(** * InstaxBLE: the directory watcher and the crop-and-resize transformer

    A shallow embedding of [src/helper-functions.py] (the function
    [crop_and_resize_image]) and of [src/instaxMultiPrint.py] (the function
    [main]), followed by the properties of the specification that were
    checked against them.

    Conventions.
    - A Python [int] is a [Z]; a Python [float] is a rational that is
      representable in binary64, every float operation being the exact
      operation followed by [PyFloat.round64].
    - A Python [str] is a [string]; [bytes] is a [list byte].
    - A raised exception is a value of [Exn]; a call that can raise returns
      a [PyResult]. *)

From Stdlib Require Import ZArith QArith Qround Qpower Qabs Lia Lra Psatz.
From Stdlib Require Floats.PrimFloat Floats.FloatOps Floats.SpecFloat Uint63.
From Stdlib Require Import Strings.Byte Strings.Ascii.
From Stdlib Require Strings.String.
From stdpp Require Import base gmap strings list pretty sorting.

(* ===================================================================== *)
(** * Part I: the model *)
(* ===================================================================== *)

(** ** Exceptions *)

Inductive OSErrorKind := PermissionErr | FileNotFoundErr | OtherOSErr.

Inductive Exn :=
| ZeroDivisionError
| ValueError
| UnidentifiedImageError
| OverflowError
| MemoryError
| OSError (kind : OSErrorKind) (msg : string)
| KeyboardInterrupt.

(** [except Exception] catches everything but [KeyboardInterrupt], which
    derives from [BaseException] only. *)
Definition isinstance_Exception (e : Exn) : bool :=
  match e with KeyboardInterrupt => false | _ => true end.

Definition isinstance_OSError (e : Exn) : bool :=
  match e with OSError _ _ => true | _ => false end.

Definition isinstance_PermissionError (e : Exn) : bool :=
  match e with OSError PermissionErr _ => true | _ => false end.

Definition isinstance_FileNotFoundError (e : Exn) : bool :=
  match e with OSError FileNotFoundErr _ => true | _ => false end.

(** The text of [str(e)] that the f-strings of [main] interpolate. *)
Definition exn_text (e : Exn) : string :=
  match e with
  | ZeroDivisionError => "division by zero"
  | ValueError => "ValueError"
  | UnidentifiedImageError => "cannot identify image file"
  | OverflowError => "Python int too large to convert to C int"
  | MemoryError => EmptyString
  | OSError _ msg => msg
  | KeyboardInterrupt => EmptyString
  end.

Inductive PyResult (A : Type) :=
| Ok (a : A)
| Raise (e : Exn).
Arguments Ok {A} a.
Arguments Raise {A} e.

(** The outcome of an operating-system call: every failure is an
    [OSError]. *)
Inductive OSResult (A : Type) :=
| OSOk (a : A)
| OSFail (kind : OSErrorKind) (msg : string).
Arguments OSOk {A} a.
Arguments OSFail {A} kind msg.

Definition os_result {A} (r : OSResult A) : PyResult A :=
  match r with
  | OSOk a => Ok a
  | OSFail kind msg => Raise (OSError kind msg)
  end.

Definition pybind {A B} (r : PyResult A) (k : A -> PyResult B) : PyResult B :=
  match r with Ok a => k a | Raise e => Raise e end.

(** ** Python floats *)

Module PyFloat.
Local Open Scope Q_scope.

(** [floor (log2 x)] for [x > 0]. *)
Definition ilog2 (x : Q) : Z :=
  let e0 := (Z.log2 (Qnum x) - Z.log2 (Z.pos (Qden x)))%Z in
  if Qle_bool (2 ^ e0) x then e0 else (e0 - 1)%Z.

(** Nearest integer, ties to the even one. This is also Python's
    [round(x)] on a float. *)
Definition round_half_even (x : Q) : Z :=
  let f := Qfloor x in
  match Qcompare (x - inject_Z f) (1 # 2) with
  | Lt => f
  | Gt => (f + 1)%Z
  | Eq => if Z.even f then f else (f + 1)%Z
  end.

(** Round to nearest-even on 53 bits of mantissa: the binary64 value of
    a real result.  The exponent range is not bounded; overflow and
    subnormal numbers need magnitudes beyond [2^1023] or below
    [2^-1022], which quotients and products of image dimensions never
    reach. *)
Definition round64 (x : Q) : Q :=
  let x := Qred x in
  if Qeq_bool x 0 then 0
  else
    let e := ilog2 (Qabs x) in
    Qred (inject_Z (round_half_even (x * 2 ^ (52 - e))) * 2 ^ (e - 52)).

(** [float(z)], the implicit conversion of an [int] operand. *)
Definition of_int (z : Z) : Q := round64 (inject_Z z).

(** [a / b] on two ints: the correctly rounded quotient. *)
Definition truediv_int (a b : Z) : PyResult Q :=
  if (b =? 0)%Z then Raise ZeroDivisionError
  else Ok (round64 (inject_Z a / inject_Z b)).

(** [x * z], a float by an int. *)
Definition mul_int (x : Q) (z : Z) : Q := round64 (x * of_int z).

(** [z / x], an int by a float. *)
Definition int_div (z : Z) (x : Q) : PyResult Q :=
  if Qeq_bool x 0 then Raise ZeroDivisionError
  else Ok (round64 (of_int z / x)).

(** [x + z], a float plus an int. *)
Definition add_int (x : Q) (z : Z) : Q := round64 (x + of_int z).

(** [int(x)]: truncation toward zero. *)
Definition to_int (x : Q) : Z := Z.quot (Qnum x) (Z.pos (Qden x)).

(** [x > y]. *)
Definition gt (x y : Q) : bool := negb (Qle_bool x y).

(** The value of a hardware binary64 number, to compare [round64] with
    the kernel's floats on concrete inputs. *)
Definition of_prim (x : PrimFloat.float) : option Q :=
  match FloatOps.Prim2SF x with
  | SpecFloat.S754_zero _ => Some 0
  | SpecFloat.S754_finite s m e =>
      Some (Qred ((if s then -1 else 1) * inject_Z (Z.pos m) * 2 ^ e))
  | _ => None
  end.

Definition prim_of_int (z : Z) : PrimFloat.float :=
  PrimFloat.of_uint63 (Uint63.of_Z z).
End PyFloat.

Global Instance PyResult_ret : MRet PyResult := fun A a => Ok a.
Global Instance PyResult_bind : MBind PyResult := fun A B k r => pybind r k.

(** ** Pillow

    The image library is not part of the repository.  Images are pixel
    grids in row-major order; opening a buffer, the deferred decoding of
    the pixel data, PNG encoding, the resampling filter and the
    allocation of a new image are left to the [Pillow] interface, each of
    them with the exceptions it can raise; the geometry of [crop] and
    [resize] is the library's. *)

Module PIL.
Record Image (Pixel : Type) := mkImage {
  width : Z;
  height : Z;
  data : list Pixel
}.
Arguments mkImage {Pixel} width height data.
Arguments width {Pixel} i.
Arguments height {Pixel} i.
Arguments data {Pixel} i.

(** The 4-tuple [(left, top, right, bottom)] handed to [Image.crop];
    each component is a Python number, an int or a float. *)
Record Box := mkBox {
  b_left : Q;
  b_top : Q;
  b_right : Q;
  b_bottom : Q
}.

Class Pillow (Pixel : Type) := {
  (** the value of a pixel outside the source grid *)
  zero_pixel : Pixel;
  (** [Image.open(io.BytesIO(b))]; raises on undecodable input *)
  Image_open : list byte -> PyResult (Image Pixel);
  (** [im.load()]: [Image.open] reads the header only, the pixel data
      are decoded when they are first needed; this is what the decoding
      raises then, if anything ([OSError] for a truncated file) *)
  load_error : Image Pixel -> option Exn;
  (** [im.save(buf, format='PNG'); buf.getvalue()]; the encoder raises
      [OSError] for a picture in a mode that PNG cannot hold (CMYK, ...)
      and [ValueError] for a picture without pixels *)
  save_PNG : Image Pixel -> PyResult (list byte);
  (** the resampling filter: the value of pixel [(x, y)] of the
      [w] by [h] image resampled from [im] *)
  resample : Image Pixel -> Z -> Z -> Z -> Z -> Pixel;
  (** what the allocation of a new [w] by [h] image raises, if anything:
      [MemoryError] when the library cannot hold an image of that size *)
  new_error : Z -> Z -> option Exn
}.

(** The numbers that fit a C [int]. *)
Definition fits_int (z : Z) : bool := ((- 2 ^ 31 <=? z) && (z <? 2 ^ 31))%Z.


Section Operations.
Context {Pixel : Type} `{Pillow Pixel}.

Definition getpixel (im : Image Pixel) (x y : Z) : Pixel :=
  if ((0 <=? x) && (x <? width im) && (0 <=? y) && (y <? height im))%Z
  then nth (Z.to_nat (y * width im + x)) (data im) zero_pixel
  else zero_pixel.

(** The [w * h] pixels [f x y], row after row. *)
Definition raster (w h : Z) (f : Z -> Z -> Pixel) : list Pixel :=
  flat_map (fun y => map (fun x => f x y) (seqZ 0 w)) (seqZ 0 h).

Definition Qlt_bool (x y : Q) : bool := negb (Qle_bool y x).

(** [Image.crop(box)] on a picture whose pixel data are in memory:
    refuses a box whose right (lower) edge lies before its left (upper)
    edge; otherwise every coordinate goes through [int(round(.))] and
    the region is copied, pixels outside the source being [zero_pixel]. *)
Definition crop (im : Image Pixel) (box : Box) : PyResult (Image Pixel) :=
  if Qlt_bool (b_right box) (b_left box) then Raise ValueError
  else if Qlt_bool (b_bottom box) (b_top box) then Raise ValueError
  else
    let x0 := PyFloat.round_half_even (b_left box) in
    let y0 := PyFloat.round_half_even (b_top box) in
    let x1 := PyFloat.round_half_even (b_right box) in
    let y1 := PyFloat.round_half_even (b_bottom box) in
    let w := Z.max 0 (x1 - x0) in
    let h := Z.max 0 (y1 - y0) in
    Ok (mkImage w h
          (raster w h (fun x y => getpixel im (x0 + x) (y0 + y)%Z))).

(** [Image.crop(box)] on a picture as [Image.open] returns it: the box
    is checked, then the pixel data are loaded, then the region is
    copied. *)
Definition Image_crop (im : Image Pixel) (box : Box) : PyResult (Image Pixel) :=
  match crop im box with
  | Raise e => Raise e
  | Ok cropped =>
      match load_error im with
      | Some e => Raise e
      | None => Ok cropped
      end
  end.

(** [Image.resize(size)].  A size equal to the image's gives a copy.
    Otherwise both numbers are converted to a C [int], which raises
    [OverflowError] from [2^31] on; a size below 1 by 1 is refused; and
    the new image, of exactly the requested size, has to be allocated. *)
Definition resize (im : Image Pixel) (size : Z * Z) : PyResult (Image Pixel) :=
  let (w, h) := size in
  if ((w =? width im) && (h =? height im))%Z then Ok im
  else if negb (fits_int w && fits_int h) then Raise OverflowError
  else if ((w <? 1) || (h <? 1))%Z then Raise ValueError
  else match new_error w h with
       | Some e => Raise e
       | None => Ok (mkImage w h (raster w h (resample im w h)))
       end.
End Operations.
End PIL.

(** ** The transformer: [helper-functions.py] *)

(** Lines 26-47: the crop rectangle for a [W] by [H] source. *)
Definition crop_box (target_x target_y W H : Z) : PyResult PIL.Box :=
  target_aspect ← PyFloat.truediv_int target_x target_y;
  current_aspect ← PyFloat.truediv_int W H;
  if PyFloat.gt current_aspect target_aspect then
    let new_width := PyFloat.to_int (PyFloat.mul_int target_aspect H) in
    left_ ← PyFloat.truediv_int (W - new_width) 2;
    let top_ := 0%Z in
    let right_ := PyFloat.add_int left_ new_width in
    let bottom_ := H in
    mret (PIL.mkBox left_ (inject_Z top_) right_ (inject_Z bottom_))
  else
    quotient ← PyFloat.int_div W target_aspect;
    let new_height := PyFloat.to_int quotient in
    let left_ := 0%Z in
    top_ ← PyFloat.truediv_int (H - new_height) 2;
    let right_ := W in
    let bottom_ := PyFloat.add_int top_ new_height in
    mret (PIL.mkBox (inject_Z left_) top_ (inject_Z right_) bottom_).

Definition crop_and_resize_image {Pixel} `{PIL.Pillow Pixel}
    (target_x target_y : Z) (image_bytes : list byte) : PyResult (list byte) :=
  image ← PIL.Image_open image_bytes;
  box ← crop_box target_x target_y (PIL.width image) (PIL.height image);
  cropped_image ← PIL.Image_crop image box;
  resized_image ← PIL.resize cropped_image (target_x, target_y);
  PIL.save_PNG resized_image.

(** The two branches of [crop_box], with every division resolved. *)
Definition wide_box (target_aspect : Q) (W H : Z) : PIL.Box :=
  let new_width := PyFloat.to_int (PyFloat.mul_int target_aspect H) in
  let left_ := PyFloat.round64 (inject_Z (W - new_width) / inject_Z 2) in
  PIL.mkBox left_ (inject_Z 0) (PyFloat.add_int left_ new_width) (inject_Z H).

Definition tall_box (target_aspect : Q) (W H : Z) : PIL.Box :=
  let new_height := PyFloat.to_int (PyFloat.round64 (PyFloat.of_int W / target_aspect)) in
  let top_ := PyFloat.round64 (inject_Z (H - new_height) / inject_Z 2) in
  PIL.mkBox (inject_Z 0) top_ (inject_Z W) (PyFloat.add_int top_ new_height).

(** Image dimensions for which the arithmetic of the crop is exact. *)
Definition max_dim : Z := 2 ^ 50.

(** ** Python strings *)

Module Str.
Definition to_list : string -> list ascii := String.list_ascii_of_string.

Definition lower_char (c : ascii) : ascii :=
  let n := nat_of_ascii c in
  if (65 <=? n)%nat && (n <=? 90)%nat then ascii_of_nat (n + 32) else c.

(** [s.lower()], on the ASCII letters. *)
Fixpoint lower (s : string) : string :=
  match s with
  | EmptyString => EmptyString
  | String c r => String (lower_char c) (lower r)
  end.

(** [s.endswith(suffix)]. *)
Definition endswith (s suffix : string) : bool :=
  bool_decide (to_list suffix `suffix_of` to_list s).

(** [s.endswith(suffixes)] for a tuple of suffixes. *)
Definition endswith_any (s : string) (suffixes : list string) : bool :=
  existsb (endswith s) suffixes.

(** [s.rpartition(c)] for a one-character separator: the text before
    and the text after the last [c], if there is one. *)
Fixpoint rpartition (c : ascii) (s : string) : option (string * string) :=
  match s with
  | EmptyString => None
  | String a r =>
      match rpartition c r with
      | Some (h, t) => Some (String a h, t)
      | None => if Ascii.eqb a c then Some (EmptyString, r) else None
      end
  end.

(** [s.rstrip(c)]. *)
Fixpoint rstrip (c : ascii) (s : string) : string :=
  match s with
  | EmptyString => EmptyString
  | String a r =>
      match rstrip c r with
      | EmptyString => if Ascii.eqb a c then EmptyString else String a EmptyString
      | r' => String a r'
      end
  end.

(** [s == c * len(s)]. *)
Fixpoint all_chars (c : ascii) (s : string) : bool :=
  match s with
  | EmptyString => true
  | String a r => Ascii.eqb a c && all_chars c r
  end.

Definition is_empty (s : string) : bool :=
  match s with EmptyString => true | _ => false end.
End Str.

(** ** [os.path], the string functions (POSIX flavour) *)

Module os_path.
Definition sep : ascii := "/"%char.

Definition join (a b : string) : string :=
  match b with
  | String "/"%char _ => b
  | _ =>
      if Str.is_empty a || Str.endswith a "/" then a +:+ b
      else a +:+ "/" +:+ b
  end.

Definition basename (p : string) : string :=
  match Str.rpartition sep p with
  | Some (_, t) => t
  | None => p
  end.

Definition dirname (p : string) : string :=
  match Str.rpartition sep p with
  | Some (h, _) =>
      let head := h +:+ "/" in
      if Str.all_chars sep head then head else Str.rstrip sep head
  | None => EmptyString
  end.

(** [splitext]: the extension starts at the last dot of the last path
    component, unless only dots precede it there. *)
Definition splitext (p : string) : string * string :=
  let '(pre, tail) :=
    match Str.rpartition sep p with
    | Some (h, t) => (h +:+ "/", t)
    | None => (EmptyString, p)
    end in
  match Str.rpartition "."%char tail with
  | Some (root, e) =>
      if Str.all_chars "."%char root then (p, EmptyString)
      else (pre +:+ root, "." +:+ e)
  | None => (p, EmptyString)
  end.
End os_path.

(** ** The operating system as [main] sees it *)

Inductive NodeKind := RegularFile | Directory | Special.

Global Instance NodeKind_eq_dec : EqDecision NodeKind.
Proof. solve_decision. Defined.

(** A child of the watched directory, with the outcome of each call that
    [main] makes on it. *)
Record Entry := mkEntry {
  e_name : string;                 (* as [os.listdir] returns it *)
  e_isfile : bool;                 (* [os.path.isfile] *)
  e_getmtime : OSResult Q;         (* [os.path.getmtime] *)
  e_rename : OSResult unit;        (* [os.rename(p, p)] *)
  e_move : OSResult unit           (* [shutil.move(p, dest)] *)
}.

Record World := mkWorld {
  (** every path that exists apart from the children of [watched] *)
  nodes : gmap string NodeKind;
  abspath_of : string -> PyResult string;
  makedirs_error : string -> option Exn;
  (** what the n-th call on the printer collaborator raises; the class
      [InstaxBLE] and [LedPatterns] are not defined in the file (it has no
      import for them), so the collaborator is a parameter of the model *)
  instax_error : nat -> option Exn;
  watched : string;
  entries : list Entry;            (* in listing order *)
  listdir_error : option (OSErrorKind * string)
}.

Definition entry_at (w : World) (path : string) : option Entry :=
  List.find (fun e => String.eqb (os_path.join (watched w) (e_name e)) path)
            (entries w).

Definition remove_entry (w : World) (path : string) : list Entry :=
  List.filter
    (fun e => negb (String.eqb (os_path.join (watched w) (e_name e)) path))
    (entries w).

Definition set_nodes (f : gmap string NodeKind -> gmap string NodeKind)
    (w : World) : World :=
  mkWorld (f (nodes w)) (abspath_of w) (makedirs_error w) (instax_error w)
          (watched w) (entries w) (listdir_error w).

(** The effect of a successful [shutil.move(src, dst)] of a child. *)
Definition moved (src dst : string) (w : World) : World :=
  mkWorld (<[dst := RegularFile]> (nodes w)) (abspath_of w) (makedirs_error w)
          (instax_error w) (watched w) (remove_entry w src) (listdir_error w).

(** ** Observable actions *)

Inductive Stream := stdout | stderr.

Inductive InstaxCall :=
| InstaxBLE_new
| instax_connect
| instax_send_led_pattern (pattern : string) (when : Z)
| instax_disconnect
| instax_print_image.

Inductive Event :=
| Ev_print (to : Stream) (text : string)
| Ev_exists (path : string)
| Ev_abspath (path : string)
| Ev_isdir (path : string)
| Ev_isfile (path : string)
| Ev_makedirs (path : string)
| Ev_listdir (path : string)
| Ev_getmtime (path : string)
| Ev_rename (src dst : string)
| Ev_move (src dst : string)
| Ev_sleep (seconds : nat)
| Ev_instax (call : InstaxCall)
(** the steps of the specification's control flow that [main] has no
    call for: reading a file, the transformer, the print submission
    ([instax_print_image] above) *)
| Ev_read_bytes (path : string)
| Ev_crop_and_resize_image (target_x target_y : Z).

(** ** The effect monad: state, trace, exceptions, and Ctrl-C *)

Record Machine := mkMachine {
  world : World;
  ticks : nat;                     (* calls made so far *)
  sigint : option nat              (* the call during which Ctrl-C arrives *)
}.

Definition M (A : Type) : Type := Machine -> PyResult A * Machine * list Event.

Global Instance M_ret : MRet M := fun A a m => (Ok a, m, []).
Global Instance M_bind : MBind M := fun A B k c m =>
  match c m with
  | (Ok a, m1, t1) => let '(r, m2, t2) := k a m1 in (r, m2, t1 ++ t2)
  | (Raise e, m1, t1) => (Raise e, m1, t1)
  end.

(** A call into the operating system or a library.  It is where a
    pending Ctrl-C surfaces, once, as [KeyboardInterrupt]. *)
Definition call {A} (ev : Event) (f : World -> World * PyResult A) : M A :=
  fun m =>
    if bool_decide (sigint m = Some (ticks m))
    then (Raise KeyboardInterrupt, mkMachine (world m) (ticks m) None, [])
    else
      let '(w, r) := f (world m) in
      (r, mkMachine w (S (ticks m)) (sigint m), [ev]).

(** [try: body except ...: handler]; [handler e = None] when no clause
    matches [e]. *)
Definition try_except {A} (body : M A) (handler : Exn -> option (M A)) : M A :=
  fun m =>
    match body m with
    | (Raise e, m1, t1) =>
        match handler e with
        | Some h => let '(r, m2, t2) := h m1 in (r, m2, t1 ++ t2)
        | None => (Raise e, m1, t1)
        end
    | done => done
    end.

(** What the environment (the producer of the files) does between two
    polls. *)
Definition interfere (f : World -> World) : M unit :=
  fun m => (Ok tt, mkMachine (f (world m)) (ticks m) (sigint m), []).

Definition raise_opt (o : option Exn) : PyResult unit :=
  match o with Some e => Raise e | None => Ok tt end.

Definition print (to : Stream) (text : string) : M unit :=
  call (Ev_print to text) (fun w => (w, Ok tt)).

Definition time_sleep (seconds : nat) : M unit :=
  call (Ev_sleep seconds) (fun w => (w, Ok tt)).

Definition os_path_exists (path : string) : M bool :=
  call (Ev_exists path)
    (fun w => (w, Ok (bool_decide (is_Some (nodes w !! path))
                      || bool_decide (is_Some (entry_at w path))))).

Definition os_path_abspath (path : string) : M string :=
  call (Ev_abspath path) (fun w => (w, abspath_of w path)).

Definition os_path_isdir (path : string) : M bool :=
  call (Ev_isdir path)
    (fun w => (w, Ok (bool_decide (nodes w !! path = Some Directory)))).

Definition os_path_isfile (path : string) : M bool :=
  call (Ev_isfile path)
    (fun w => (w, Ok match entry_at w path with
                     | Some e => e_isfile e
                     | None => bool_decide (nodes w !! path = Some RegularFile)
                     end)).

(** [os.makedirs(path, exist_ok=True)]. *)
Definition os_makedirs (path : string) : M unit :=
  call (Ev_makedirs path)
    (fun w => match makedirs_error w path with
              | Some e => (w, Raise e)
              | None =>
                  (set_nodes (fun n => match n !! path with
                                       | Some _ => n
                                       | None => <[path := Directory]> n
                                       end) w, Ok tt)
              end).

Definition os_listdir (path : string) : M (list string) :=
  call (Ev_listdir path)
    (fun w => (w, match listdir_error w with
                  | Some (kind, msg) => Raise (OSError kind msg)
                  | None =>
                      if String.eqb path (watched w) then Ok (map e_name (entries w))
                      else Raise (OSError FileNotFoundErr path)
                  end)).

Definition os_path_getmtime (path : string) : M Q :=
  call (Ev_getmtime path)
    (fun w => (w, match entry_at w path with
                  | Some e => os_result (e_getmtime e)
                  | None => Raise (OSError FileNotFoundErr path)
                  end)).

(** [os.rename(path, path)], the probe for a lock. *)
Definition os_rename_self (path : string) : M unit :=
  call (Ev_rename path path)
    (fun w => (w, match entry_at w path with
                  | Some e => os_result (e_rename e)
                  | None => Raise (OSError FileNotFoundErr path)
                  end)).

Definition shutil_move (src dst : string) : M unit :=
  call (Ev_move src dst)
    (fun w => match entry_at w src with
              | Some e =>
                  match e_move e with
                  | OSFail kind msg => (w, Raise (OSError kind msg))
                  | OSOk _ => (moved src dst w, Ok tt)
                  end
              | None => (w, Raise (OSError FileNotFoundErr src))
              end).

Definition instax (n : nat) (c : InstaxCall) : M unit :=
  call (Ev_instax c) (fun w => (w, raise_opt (instax_error w n))).

(** ** The watcher: [instaxMultiPrint.py] *)

Definition IMAGE_EXTENSIONS : list string :=
  [".png"; ".jpg"; ".jpeg"; ".gif"; ".bmp"; ".tiff"; ".webp"].

(** [list.sort(key=...)] is a stable sort by [<] on the keys; the result
    of a stable sort is unique, this is the one by insertion. *)
Fixpoint insert_by_mtime (x : string * Q) (l : list (string * Q)) :
    list (string * Q) :=
  match l with
  | [] => [x]
  | y :: l' =>
      if PIL.Qlt_bool (snd y) (snd x) then y :: insert_by_mtime x l'
      else x :: y :: l'
  end.

Definition sort_by_mtime (l : list (string * Q)) : list (string * Q) :=
  foldr insert_by_mtime [] l.

Definition is_image (f : string) : bool :=
  Str.endswith_any (Str.lower f) IMAGE_EXTENSIONS.

(** Lines 123-132: the loop over the listing. *)
Fixpoint read_directory (target_dir : string) (names : list string)
    (files_with_mtime : list (string * Q)) : M (list (string * Q)) :=
  match names with
  | [] => mret files_with_mtime
  | f :: rest =>
      let file_path := os_path.join target_dir f in
      files_with_mtime ←
        try_except
          (isf ← os_path_isfile file_path;
           if isf : bool then
             mtime ← os_path_getmtime file_path;
             mret (files_with_mtime ++ [(file_path, mtime)])
           else mret files_with_mtime)
          (fun e => if isinstance_OSError e then Some (mret files_with_mtime)
                    else None);
      read_directory target_dir rest files_with_mtime
  end.

(** The [n]-th name that the naming rule tries: [basename] itself, then
    [base_1ext], [base_2ext], ... *)
Definition candidate (printed_dir base ext basename : string) (n : nat) : string :=
  match n with
  | O => os_path.join printed_dir basename
  | S _ => os_path.join printed_dir (base +:+ "_" +:+ pretty n +:+ ext)
  end.

(** Lines 177-180: [while os.path.exists(dest_path): ...].  The loop ends
    because finitely many paths exist; [fuel] bounds the iterations and
    [None] is returned when it does not suffice. *)
Fixpoint find_free (fuel : nat) (printed_dir base ext : string)
    (counter : nat) (dest_path : string) : M (option string) :=
  match fuel with
  | O => mret None
  | S fuel' =>
      taken ← os_path_exists dest_path;
      if taken : bool then
        find_free fuel' printed_dir base ext (S counter)
          (os_path.join printed_dir (base +:+ "_" +:+ pretty counter +:+ ext))
      else mret (Some dest_path)
  end.

Definition get_world : M World := fun m => (Ok (world m), m, []).

(** Lines 172-180: the destination of [basename] in [printed_dir]. *)
Definition unique_destination (printed_dir basename : string) : M (option string) :=
  let '(base, ext) := os_path.splitext basename in
  w ← get_world;
  find_free (S (size (nodes w) + length (entries w)))
    printed_dir base ext 1 (os_path.join printed_dir basename).

(** Lines 150-192: the body of [for file_path in image_files]. *)
Definition process_file (printed_dir file_path : string) : M unit :=
  (* None stands for [continue] *)
  in_use ←
    try_except
      (os_rename_self file_path;; mret (Some false))
      (fun e =>
         if isinstance_PermissionError e then
           Some (print stdout ("Skipping '" +:+ os_path.basename file_path
                               +:+ "': File is in use.");;
                 mret (Some true))
         else if isinstance_FileNotFoundError e then
           Some (print stdout ("Skipping '" +:+ os_path.basename file_path
                               +:+ "': File was moved or deleted.");;
                 mret None)
         else if isinstance_OSError e then
           Some (print stdout ("Skipping '" +:+ os_path.basename file_path
                               +:+ "': OS error (" +:+ exn_text e +:+ ").");;
                 mret (Some true))
         else None);
  match in_use with
  | None => mret tt
  | Some in_use =>
      (if negb in_use then
         let basename := os_path.basename file_path in
         print stdout ("Processing: " +:+ basename);;
         dest ← unique_destination printed_dir basename;
         match dest with
         | None => mret tt
         | Some dest_path =>
             try_except
               (shutil_move file_path dest_path;;
                print stdout ("Moved to: " +:+ os_path.basename dest_path))
               (fun e =>
                  if isinstance_Exception e then
                    Some (print stderr ("Error moving '" +:+ basename +:+ "': "
                                        +:+ exn_text e))
                  else None)
         end
       else mret tt);;
      time_sleep 1
  end.

Fixpoint for_each {A} (l : list A) (body : A -> M unit) : M unit :=
  match l with
  | [] => mret tt
  | x :: rest => body x;; for_each rest body
  end.

(** Lines 139-144. *)
Definition select_images (files_with_mtime : list (string * Q)) : list string :=
  let sorted_files := map fst (sort_by_mtime files_with_mtime) in
  filter (fun f => is_image f = true) sorted_files.

(** Lines 120-196: one turn of [while True]. *)
Definition poll (target_dir printed_dir : string) : M unit :=
  files_with_mtime ←
    try_except
      (names ← os_listdir target_dir;
       l ← read_directory target_dir names [];
       mret (Some l))
      (fun e =>
         if isinstance_Exception e then
           Some (print stderr ("Error reading directory '" +:+ target_dir
                               +:+ "': " +:+ exn_text e);;
                 time_sleep 5;;
                 mret None)
         else None);
  match files_with_mtime with
  | None => mret tt
  | Some files_with_mtime =>
      let image_files := select_images files_with_mtime in
      (if bool_decide (image_files = []) then mret tt
       else print stdout ("Found " +:+ pretty (length image_files)
                          +:+ " image(s) to process..."));;
      for_each image_files (process_file printed_dir);;
      time_sleep 1
  end.

(** [while True] for at most [fuel] turns; [env k] is what the
    environment does before turn [k].  [Ok false]: the loop is still
    running when the fuel is spent. *)
Fixpoint while_true (fuel k : nat) (env : nat -> World -> World)
    (body : M unit) : M bool :=
  match fuel with
  | O => mret false
  | S fuel' => interfere (env k);; body;; while_true fuel' (S k) env body
  end.

Definition newline : string := String (ascii_of_nat 10) EmptyString.

(** Lines 97-107. [inl code]: [main] returns [code]. *)
Definition connect_printer : M (Z + unit) :=
  made ←
    try_except (instax 0 InstaxBLE_new;; mret true)
      (fun e =>
         if isinstance_Exception e then
           Some (print stderr ("Error initializing InstaxBLE or connecting: "
                               +:+ exn_text e);;
                 mret false)
         else None);
  if made : bool then
    try_except
      (instax 1 instax_connect;;
       instax 2 (instax_send_led_pattern "rainbow" 1);;
       instax 3 (instax_send_led_pattern "pulseGreen" 2);;
       mret (inr tt))
      (fun e =>
         if isinstance_Exception e then
           Some (print stderr ("Error initializing InstaxBLE or connecting: "
                               +:+ exn_text e);;
                 instax 4 instax_disconnect;;
                 mret (inl 1%Z))
         else None)
  else mret (inl 1%Z).

(** Lines 27-93: [inl code] when [main] returns [code] before the loop,
    else the target directory and its [printed] sub-directory. *)
Definition startup (args : list string) : M (Z + string * string) :=
  if (length args <? 2)%nat then
    print stderr "Error: No path argument provided.";;
    print stderr "Usage: python path_watcher.py <path_to_file_or_directory>";;
    mret (inl 1%Z)
  else
    let input_path := nth 1 args EmptyString in
    found ← os_path_exists input_path;
    if negb found then
      print stderr ("Error: Path '" +:+ input_path +:+ "' does not exist.");;
      mret (inl 1%Z)
    else
      resolved ←
        try_except (abs_path ← os_path_abspath input_path; mret (Some abs_path))
          (fun e =>
             if isinstance_Exception e then
               Some (print stderr ("Error resolving absolute path: " +:+ exn_text e);;
                     mret None)
             else None);
      match resolved with
      | None => mret (inl 1%Z)
      | Some abs_path =>
          is_dir ← os_path_isdir abs_path;
          target ←
            (if is_dir : bool then mret (Some abs_path)
             else
               is_file ← os_path_isfile abs_path;
               if is_file : bool then mret (Some (os_path.dirname abs_path))
               else
                 print stderr ("Error: Path '" +:+ abs_path
                               +:+ "' is not a valid file or directory.");;
                 mret None);
          match target with
          | None => mret (inl 1%Z)
          | Some target_dir =>
              print stdout ("Target directory set to: " +:+ target_dir);;
              let printed_dir := os_path.join target_dir "printed" in
              let error_dir := os_path.join target_dir "error" in
              try_except
                (os_makedirs printed_dir;;
                 print stdout ("Successfully ensured 'printed' folder exists at: "
                               +:+ printed_dir);;
                 os_makedirs error_dir;;
                 print stdout ("Successfully ensured 'error' folder exists at: "
                               +:+ error_dir);;
                 mret (inr (target_dir, printed_dir)))
                (fun e =>
                   if isinstance_OSError e then
                     Some (print stderr "Error: Failed to create directories.";;
                           print stderr ("Details: " +:+ exn_text e);;
                           mret (inl 1%Z))
                   else if isinstance_Exception e then
                     Some (print stderr
                             ("An unexpected error occurred during directory creation: "
                              +:+ exn_text e);;
                           mret (inl 1%Z))
                   else None)
          end
      end.

(** [main(args)], for at most [fuel] turns of the loop.  [Ok None]: the
    loop is still running; [Ok (Some code)]: [main] returned [code];
    [Raise e]: [e] left [main]. *)
Definition main (fuel : nat) (env : nat -> World -> World)
    (args : list string) : M (option Z) :=
  dirs ← startup args;
  match dirs with
  | inl code => mret (Some code)
  | inr (target_dir, printed_dir) =>
      connected ← connect_printer;
      match connected with
      | inl code => mret (Some code)
      | inr _ =>
          print stdout (newline +:+ "Setup complete. Entering processing loop.");;
          print stdout "Press Ctrl-C to terminate the script...";;
          try_except
            (while_true fuel 0 env (poll target_dir printed_dir);;
             mret None)
            (fun e =>
               match e with
               | KeyboardInterrupt =>
                   Some (print stdout
                           (newline +:+ "Termination signal (Ctrl-C) received. Exiting gracefully.");;
                         mret (Some 0%Z))
               | _ => None
               end)
      end
  end.

(** ** The vocabulary of the properties *)

(** *** Strings and paths *)

(** What [join] puts before a relative second argument. *)
Definition join_prefix (a : string) : string :=
  if Str.is_empty a || Str.endswith a "/" then a else a +:+ "/".

Definition relative (b : string) : Prop :=
  match b with String "/"%char _ => False | _ => True end.

(** [path] lies directly in the directory [dir]: it is [dir] joined with
    a file name, a name without separator. *)
Definition directly_in (dir path : string) : Prop :=
  exists name, ("/"%char ∉ Str.to_list name) /\ path = os_path.join dir name.

(** *** What a turn of the loop can do *)

(** The worlds that a run of the loop can reach from [w]: a sequence of
    successful moves of image files. *)
Inductive moves : World -> World -> Prop :=
| moves_refl w : moves w w
| moves_step w src dst w' :
    is_image src = true -> moves (moved src dst w) w' -> moves w w'.

(** The events that one turn of the loop can produce. *)
Definition loop_event (target_dir printed_dir : string) (ev : Event) : Prop :=
  match ev with
  | Ev_print _ _ | Ev_sleep _ | Ev_exists _ | Ev_isfile _ | Ev_getmtime _ => True
  | Ev_listdir p => p = target_dir
  | Ev_rename src dst => src = dst /\ is_image src = true
  | Ev_move src dst => is_image src = true /\ directly_in printed_dir dst
  | _ => False
  end.

(** The clock when no Ctrl-C was delivered between [m] and [m']: at least
    [n] calls were made, and a pending Ctrl-C is still ahead. *)
Definition advanced (n : nat) (m m' : Machine) : Prop :=
  sigint m' = sigint m /\ ticks m + n <= ticks m' /\
  forall k, sigint m = Some k -> ticks m <= k -> ticks m' <= k.

(** The clock when Ctrl-C was delivered between [m] and [m']. *)
Definition interrupted (m m' : Machine) : Prop :=
  sigint m' = None /\ exists k, sigint m = Some k /\ ticks m <= k.

(** [obeys target_dir printed_dir n X Q c]: whatever the machine, [c]
    produces loop events only and changes the world by moves of image
    files only; then either it has made at least [n] calls and returns a
    value of [Q] or raises an exception of [X], or it was stopped by
    Ctrl-C and raises [KeyboardInterrupt]. *)
Definition obeys (target_dir printed_dir : string) {A} (n : nat)
    (X : Exn -> Prop) (Q : A -> Prop) (c : M A) : Prop :=
  forall m,
    Forall (loop_event target_dir printed_dir) (c m).2 /\
    moves (world m) (world (c m).1.2) /\
    ((advanced n m (c m).1.2 /\
      match (c m).1.1 with Ok a => Q a | Raise e => X e end) \/
     ((c m).1.1 = Raise KeyboardInterrupt /\ interrupted m (c m).1.2)).

Definition no_exn : Exn -> Prop := fun _ => False.

Definition os_error : Exn -> Prop := fun e => isinstance_OSError e = true.

Definition any {A} : A -> Prop := fun _ => True.

(** The destination chosen by the naming rule lies in [printed_dir]. *)
Definition in_printed (printed_dir : string) (o : option string) : Prop :=
  forall dest, o = Some dest -> directly_in printed_dir dest.

(** *** Running the model on a machine without Ctrl-C *)

(** The files that the lock probe [os.rename(p, p)] was tried on, in order. *)
Definition probes (t : list Event) : list string :=
  omap (fun ev => match ev with Ev_rename src _ => Some src | _ => None end) t.

(** What lines 127-129 append for [file_path]. *)
Definition stat_entry (w : World) (file_path : string) : option (string * Q) :=
  match entry_at w file_path with
  | Some e =>
      if e_isfile e then
        match e_getmtime e with
        | OSOk mtime => Some (file_path, mtime)
        | OSFail _ _ => None
        end
      else None
  | None => None
  end.

Definition files_with_mtime_of (w : World) (target_dir : string) : list (string * Q) :=
  omap (fun f => stat_entry w (os_path.join target_dir f)) (map e_name (entries w)).

(** A machine on which no Ctrl-C is pending. *)
Definition quiet (w : World) (n : nat) : Machine := mkMachine w n None.

(** *** The naming rule *)

(** [os.path.exists(p)] in the world [w]. *)
Definition path_taken (w : World) (p : string) : bool :=
  bool_decide (is_Some (nodes w !! p)) || bool_decide (is_Some (entry_at w p)).

(** The loop of [find_free] on a fixed file system. *)
Fixpoint first_free (taken : string -> bool) (fuel : nat)
    (printed_dir base ext : string) (counter : nat) (dest_path : string) :
    option string :=
  match fuel with
  | O => None
  | S fuel' =>
      if taken dest_path then
        first_free taken fuel' printed_dir base ext (S counter)
          (os_path.join printed_dir (base +:+ "_" +:+ pretty counter +:+ ext))
      else Some dest_path
  end.

(** The destination file comes into existence. *)
Definition materialize (dest : string) (w : World) : World :=
  set_nodes (fun n => <[dest := RegularFile]> n) w.

(** The naming rule applied to the file system [w]. *)
Definition resolve (w : World) (printed_dir basename : string) : option string :=
  match (unique_destination printed_dir basename (quiet w 0)).1.1 with
  | Ok dest => dest
  | Raise _ => None
  end.

(** The naming rule applied [N] times, each result being materialized
    before the next call. *)
Fixpoint resolve_n (N : nat) (w : World) (printed_dir basename : string) :
    list string :=
  match N with
  | O => []
  | S N' =>
      match resolve w printed_dir basename with
      | Some dest => dest :: resolve_n N' (materialize dest w) printed_dir basename
      | None => []
      end
  end.

(** The file name of the [k]-th candidate. *)
Definition cand_name (base ext basename : string) (k : nat) : string :=
  match k with
  | O => basename
  | S _ => base +:+ "_" +:+ pretty k +:+ ext
  end.

(** The paths that exist in [w]. *)
Definition taken_paths (w : World) : list string :=
  map fst (map_to_list (nodes w))
  ++ map (fun e => os_path.join (watched w) (e_name e)) (entries w).

(** *** Processing one file *)

(** What [process_file] prints after the move. *)
Definition move_report (file_path dest : string) (r : OSResult unit) : Event :=
  match r with
  | OSOk _ => Ev_print stdout ("Moved to: " +:+ os_path.basename dest)
  | OSFail _ msg =>
      Ev_print stderr ("Error moving '" +:+ os_path.basename file_path +:+ "': " +:+ msg)
  end.

Definition after_move (file_path dest : string) (r : OSResult unit) (w : World) : World :=
  match r with
  | OSOk _ => moved file_path dest w
  | OSFail _ _ => w
  end.

(** The trace of [process_file] on a file whose probe succeeded. *)
Definition available_trace (file_path dest : string) (checks : list string)
    (r : OSResult unit) : list Event :=
  [Ev_rename file_path file_path;
   Ev_print stdout ("Processing: " +:+ os_path.basename file_path)]
  ++ map Ev_exists checks
  ++ [Ev_move file_path dest; move_report file_path dest r; Ev_sleep 1].

(** The trace of [process_file] on a file whose probe failed. *)
Definition skip_trace (file_path : string) (kind : OSErrorKind) (msg : string) :
    list Event :=
  Ev_rename file_path file_path ::
  match kind with
  | PermissionErr =>
      [Ev_print stdout ("Skipping '" +:+ os_path.basename file_path
                        +:+ "': File is in use.");
       Ev_sleep 1]
  | FileNotFoundErr =>
      [Ev_print stdout ("Skipping '" +:+ os_path.basename file_path
                        +:+ "': File was moved or deleted.")]
  | OtherOSErr =>
      [Ev_print stdout ("Skipping '" +:+ os_path.basename file_path
                        +:+ "': OS error (" +:+ msg +:+ ").");
       Ev_sleep 1]
  end.

(** The outcome of the probe [os.rename(p, p)] in [w]. *)
Definition probe_result (w : World) (file_path : string) : OSResult unit :=
  match entry_at w file_path with
  | Some e => e_rename e
  | None => OSFail FileNotFoundErr file_path
  end.

(** *** The sort by modification time *)

Definition mtime_le (x y : string * Q) : Prop := (snd x <= snd y)%Q.

(** The entries whose modification time is [t], in their order. *)
Definition with_mtime (t : Q) (l : list (string * Q)) : list (string * Q) :=
  List.filter (fun x => Qeq_bool (snd x) t) l.

(** *** Start-up and exit *)

Definition usage_trace : list Event :=
  [Ev_print stderr "Error: No path argument provided.";
   Ev_print stderr "Usage: python path_watcher.py <path_to_file_or_directory>"].

(** [os.path.isdir] and [os.path.isfile] in the world [w]. *)
Definition is_dir (w : World) (p : string) : bool :=
  bool_decide (nodes w !! p = Some Directory).

Definition is_file (w : World) (p : string) : bool :=
  match entry_at w p with
  | Some e => e_isfile e
  | None => bool_decide (nodes w !! p = Some RegularFile)
  end.

(** Lines 54-64. *)
Definition target_of (w : World) (abs_path : string) : option string :=
  if is_dir w abs_path then Some abs_path
  else if is_file w abs_path then Some (os_path.dirname abs_path)
  else None.

Definition ensure_dir (path : string) (w : World) : World :=
  set_nodes (fun n => match n !! path with
                      | Some _ => n
                      | None => <[path := Directory]> n
                      end) w.

Definition startup_trace (input_path abs_path target_dir : string) (w : World) :
    list Event :=
  [Ev_exists input_path; Ev_abspath input_path; Ev_isdir abs_path]
  ++ (if is_dir w abs_path then [] else [Ev_isfile abs_path])
  ++ [Ev_print stdout ("Target directory set to: " +:+ target_dir);
      Ev_makedirs (os_path.join target_dir "printed");
      Ev_print stdout ("Successfully ensured 'printed' folder exists at: "
                       +:+ os_path.join target_dir "printed");
      Ev_makedirs (os_path.join target_dir "error");
      Ev_print stdout ("Successfully ensured 'error' folder exists at: "
                       +:+ os_path.join target_dir "error")].

Definition connect_trace : list Event :=
  [Ev_instax InstaxBLE_new; Ev_instax instax_connect;
   Ev_instax (instax_send_led_pattern "rainbow" 1);
   Ev_instax (instax_send_led_pattern "pulseGreen" 2)].

Definition banner_trace : list Event :=
  [Ev_print stdout (newline +:+ "Setup complete. Entering processing loop.");
   Ev_print stdout "Press Ctrl-C to terminate the script..."].

Definition goodbye : Event :=
  Ev_print stdout (newline +:+ "Termination signal (Ctrl-C) received. Exiting gracefully.").

(** *** Selection *)

(** Names as [os.listdir] gives them: no separator, no duplicate. *)
Definition listing_ok (w : World) : Prop :=
  NoDup (map e_name (entries w)) /\
  Forall (fun e => "/"%char ∉ Str.to_list (e_name e)) (entries w).

(** *** The transformer on concrete images

    One byte per pixel, a single row, no header: enough of a codec to run
    the transformer on concrete buffers.  Resampling is nearest
    neighbour. *)
Definition raw_open (b : list byte) : PyResult (PIL.Image byte) :=
  match b with
  | [] => Raise UnidentifiedImageError
  | _ => Ok (PIL.mkImage (Z.of_nat (length b)) 1 b)
  end.

Definition nearest (im : PIL.Image byte) (w h x y : Z) : byte :=
  nth (Z.to_nat ((y * PIL.height im / h) * PIL.width im + x * PIL.width im / w))
      (PIL.data im) x00.

(** Room for [2^31 - 1] pixels. *)
Definition raw_new_error (w h : Z) : option Exn :=
  if (w * h <? 2 ^ 31)%Z then None else Some MemoryError.

Definition raw_codec : PIL.Pillow byte :=
  {| PIL.zero_pixel := x00;
     PIL.Image_open := raw_open;
     PIL.load_error := fun _ => None;
     PIL.save_PNG := fun im => Ok (PIL.data im);
     PIL.resample := nearest;
     PIL.new_error := raw_new_error |}.

(** Files that were cut short: the header is read, the pixel data are
    not all there. *)
Definition cut_short_codec : PIL.Pillow byte :=
  {| PIL.zero_pixel := x00;
     PIL.Image_open := raw_open;
     PIL.load_error := fun _ => Some (OSError OtherOSErr "image file is truncated");
     PIL.save_PNG := fun im => Ok (PIL.data im);
     PIL.resample := nearest;
     PIL.new_error := raw_new_error |}.






(** A blank [W] by [H] picture. *)
Definition blank (W H : Z) : PIL.Image byte :=
  PIL.mkImage W H (repeat x00 (Z.to_nat (W * H))).

(** The box with every coordinate cut to an integer, [int(.)]. *)
Definition truncated (box : PIL.Box) : PIL.Box :=
  PIL.mkBox (inject_Z (PyFloat.to_int (PIL.b_left box)))
            (inject_Z (PyFloat.to_int (PIL.b_top box)))
            (inject_Z (PyFloat.to_int (PIL.b_right box)))
            (inject_Z (PyFloat.to_int (PIL.b_bottom box))).

(** The columns and rows [(x0, y0, x1, y1)] that [Image.crop] copies. *)
Definition extracted (box : PIL.Box) : Z * Z * Z * Z :=
  (PyFloat.round_half_even (PIL.b_left box), PyFloat.round_half_even (PIL.b_top box),
   PyFloat.round_half_even (PIL.b_right box), PyFloat.round_half_even (PIL.b_bottom box)).

(** *** The watcher on concrete directories *)

Definition plain_file (name : string) (mtime : Q) : Entry :=
  mkEntry name true (OSOk mtime) (OSOk tt) (OSOk tt).

(** The directory [/w] with its two archives and the given children. *)
Definition example_world (children : list Entry) : World :=
  mkWorld {[ "/w" := Directory; "/w/printed" := Directory; "/w/error" := Directory ]}
          (fun p => Ok p) (fun _ => None) (fun _ => None) "/w" children None.

(** A sub-directory among the children of the watch directory. *)
Definition sub_directory (name : string) : Entry :=
  mkEntry name false (OSOk 0%Q) (OSOk tt) (OSOk tt).

(** The directory [/w] as [os.listdir] shows it when the two archives
    are there: the sub-directories [error] and [printed] and one
    picture. *)
Definition first_listing : World :=
  mkWorld {[ "/w" := Directory ]} (fun p => Ok p) (fun _ => None) (fun _ => None) "/w"
          [sub_directory "error"; sub_directory "printed"; plain_file "a.jpg" 1] None.

(** The steps of the specification's control flow that come before the
    relocation of a file. *)
Definition is_handoff (ev : Event) : bool :=
  match ev with
  | Ev_read_bytes _ | Ev_crop_and_resize_image _ _ | Ev_instax instax_print_image => true
  | _ => false
  end.

Definition is_read_of (src : string) (ev : Event) : bool :=
  match ev with Ev_read_bytes p => String.eqb p src | _ => false end.

Definition is_transform (ev : Event) : bool :=
  match ev with Ev_crop_and_resize_image _ _ => true | _ => false end.

Definition is_print_job (ev : Event) : bool :=
  match ev with Ev_instax instax_print_image => true | _ => false end.

(** The control flow as the specification has it: when a file is moved,
    its bytes were read, the transformer was called and a print job was
    submitted earlier in the trace. *)
Fixpoint handed_off_before_move (earlier t : list Event) : bool :=
  match t with
  | [] => true
  | ev :: rest =>
      match ev with
      | Ev_move src _ =>
          existsb (is_read_of src) earlier && existsb is_transform earlier
          && existsb is_print_job earlier
      | _ => true
      end && handed_off_before_move (earlier ++ [ev]) rest
  end.

(** Three pictures and a text file; [b.png] and [c.gif] have the same
    modification time. *)
Definition shelf : World :=
  example_world [plain_file "b.png" 2; plain_file "notes.txt" 0;
                 plain_file "c.gif" 2; plain_file "a.jpg" 1].

Definition listing_failure_trace (target_dir msg : string) : list Event :=
  [Ev_listdir target_dir;
   Ev_print stderr ("Error reading directory '" +:+ target_dir +:+ "': " +:+ msg);
   Ev_sleep 5].


(** A picture that is locked, one that vanished, one whose modification
    time cannot be read, and one that cannot be moved. *)
Definition troubled : World :=
  example_world
    [mkEntry "locked.png" true (OSOk 1%Q) (OSFail PermissionErr "Permission denied") (OSOk tt);
     mkEntry "gone.png" true (OSOk 2%Q) (OSFail FileNotFoundErr "No such file") (OSOk tt);
     mkEntry "stat.png" true (OSFail OtherOSErr "Input/output error") (OSOk tt) (OSOk tt);
     mkEntry "stuck.png" true (OSOk 3%Q) (OSOk tt) (OSFail OtherOSErr "Read-only file system")].

(** A watch directory next to a device node. *)
Definition with_device : World :=
  mkWorld {[ "/w" := Directory; "/dev/null" := Special ]}
          (fun p => Ok p) (fun _ => None) (fun _ => None) "/w" [] None.

(** ** The vocabulary of the further properties *)

(** *** The code before the loop *)




(** Lines 41-66, when the path leads to the target directory. *)
Definition target_trace (input_path abs_path target_dir : string) (w : World) :
    list Event :=
  [Ev_exists input_path; Ev_abspath input_path; Ev_isdir abs_path]
  ++ (if is_dir w abs_path then [] else [Ev_isfile abs_path])
  ++ [Ev_print stdout ("Target directory set to: " +:+ target_dir)].

(** Lines 85-93: what is printed when [os.makedirs] raises [e]. *)
Definition makedirs_report (e : Exn) : list Event :=
  if isinstance_OSError e then
    [Ev_print stderr "Error: Failed to create directories.";
     Ev_print stderr ("Details: " +:+ exn_text e)]
  else
    [Ev_print stderr ("An unexpected error occurred during directory creation: "
                      +:+ exn_text e)].

(** Line 104. *)
Definition connect_report (e : Exn) : Event :=
  Ev_print stderr ("Error initializing InstaxBLE or connecting: " +:+ exn_text e).

(** A watch directory on a read-only file system. *)
Definition read_only : World :=
  mkWorld {[ "/w" := Directory ]} (fun p => Ok p)
          (fun _ => Some (OSError PermissionErr "Permission denied"))
          (fun _ => None) "/w" [] None.

(** A printer that is constructed but cannot be reached. *)
Definition unreachable_printer : World :=
  mkWorld {[ "/w" := Directory ]} (fun p => Ok p) (fun _ => None)
          (fun i => if Nat.eqb i 1 then Some (OSError OtherOSErr "device not found")
                    else None)
          "/w" [] None.

(** A path that cannot be resolved. *)
Definition unresolvable : World :=
  mkWorld {[ "/w" := Directory ]} (fun p => Raise (OSError OtherOSErr "getcwd failed"))
          (fun _ => None) (fun _ => None) "/w" [] None.

(** *** What a turn does to the watch directory *)

(** A file that is there, is free and can be moved. *)
Definition movable (w : World) (file_path : string) : bool :=
  match entry_at w file_path with
  | Some e =>
      match e_rename e, e_move e with
      | OSOk _, OSOk _ => true
      | _, _ => false
      end
  | None => false
  end.

(** The children of the watch directory whose path is not in [gone]. *)
Definition remaining (w : World) (gone : list string) : list Entry :=
  List.filter
    (fun e => negb (existsb (String.eqb (os_path.join (watched w) (e_name e))) gone))
    (entries w).

(** What a turn of the loop leaves of the file system [w]: every path that
    existed is still there, and what is new is a regular file directly in
    [printed_dir]. *)
Definition archive_grows (printed_dir : string) (w w' : World) : Prop :=
  watched w' = watched w /\
  nodes w ⊆ nodes w' /\
  forall q k, nodes w !! q = None -> nodes w' !! q = Some k ->
              k = RegularFile /\ directly_in printed_dir q.

(** *** The shape of a turn *)

(** Lines 127-128 for one name of the listing. *)
Definition stat_trace (w : World) (file_path : string) : list Event :=
  Ev_isfile file_path :: (if is_file w file_path then [Ev_getmtime file_path] else []).

(** Lines 146-147. *)
Definition found_trace (image_files : list string) : list Event :=
  match image_files with
  | [] => []
  | _ => [Ev_print stdout ("Found " +:+ pretty (length image_files)
                           +:+ " image(s) to process...")]
  end.

(** The events of lines 150-192 for the file [file_path]: the probe
    failed, or it succeeded and the file went through the naming rule and
    the move. *)
Definition file_block (printed_dir file_path : string) (t : list Event) : Prop :=
  (exists kind msg, t = skip_trace file_path kind msg) \/
  (exists dest checks r,
     t = available_trace file_path dest checks r /\
     directly_in printed_dir dest).

(** The events of one turn of the loop. *)
Definition turn_trace (target_dir printed_dir : string) (w : World)
    (t : list Event) : Prop :=
  (exists msg, t = listing_failure_trace target_dir msg) \/
  (exists blocks,
     t = Ev_listdir target_dir
         :: flat_map (fun f => stat_trace w (os_path.join target_dir f))
              (map e_name (entries w))
         ++ found_trace (select_images (files_with_mtime_of w target_dir))
         ++ concat blocks ++ [Ev_sleep 1] /\
     Forall2 (file_block printed_dir)
       (select_images (files_with_mtime_of w target_dir)) blocks).

(* ===================================================================== *)
(** * Part II: properties *)
(* ===================================================================== *)

(** ** Rounding to binary64 *)

Import PyFloat.
Local Open Scope Q_scope.

Lemma two_ne_0 : ~ 2 == 0.
Proof. intros H. discriminate H. Qed.

Lemma pow2_pos (e : Z) : 0 < 2 ^ e.
Proof. apply Qpower_0_lt. reflexivity. Qed.

Lemma pow2_succ (e : Z) : 2 ^ (e + 1) == 2 * 2 ^ e.
Proof. rewrite Qpower_plus by apply two_ne_0. change (2 ^ 1) with 2. ring. Qed.

Lemma pow2_pred (e : Z) : 2 * 2 ^ (e - 1) == 2 ^ e.
Proof. rewrite <- pow2_succ. replace (e - 1 + 1)%Z with e by lia. reflexivity. Qed.

Lemma pow2_inject (n : Z) : (0 <= n)%Z -> inject_Z (2 ^ n) == 2 ^ n.
Proof. intros H. rewrite Zpower_Qpower by exact H. reflexivity. Qed.

Lemma pow2_sub (a b : Z) : 2 ^ (a - b) * 2 ^ b == 2 ^ a.
Proof.
  rewrite <- Qpower_plus by apply two_ne_0.
  replace (a - b + b)%Z with a by lia. reflexivity.
Qed.

Lemma ilog2_spec (x : Q) :
  0 < x -> 2 ^ ilog2 x <= x /\ x < 2 ^ (ilog2 x + 1).
Proof.
  intros Hx. destruct x as [n d].
  assert (Hn : (0 < n)%Z).
  { unfold Qlt in Hx. simpl in Hx. lia. }
  unfold ilog2. cbn [Qnum Qden].
  set (a := Z.log2 n). set (b := Z.log2 (Z.pos d)).
  destruct (Z.log2_spec n Hn) as [Ha1 Ha2].
  destruct (Z.log2_spec (Z.pos d) eq_refl) as [Hb1 Hb2].
  fold a in Ha1, Ha2. fold b in Hb1, Hb2.
  assert (Ha0 : (0 <= a)%Z) by apply Z.log2_nonneg.
  assert (Hb0 : (0 <= b)%Z) by apply Z.log2_nonneg.
  rewrite Zle_Qle, pow2_inject in Ha1, Hb1 by assumption.
  rewrite Zlt_Qlt, pow2_inject in Ha2, Hb2 by lia.
  unfold Z.succ in Ha2, Hb2. rewrite pow2_succ in Ha2, Hb2.
  assert (Hxd : (n # d) * inject_Z (Z.pos d) == inject_Z n).
  { rewrite Qmake_Qdiv. field. intros H. discriminate H. }
  pose proof (pow2_sub a b) as Hab.
  pose proof (pow2_pos (a - b)) as Hab0.
  pose proof (pow2_pos b) as HB0. pose proof (pow2_pos a) as HA0.
  set (X := n # d) in *. set (D := inject_Z (Z.pos d)) in *.
  set (N := inject_Z n) in *.
  set (A := 2 ^ a) in *. set (B := 2 ^ b) in *. set (C := 2 ^ (a - b)) in *.
  destruct (Qle_bool C X) eqn:Hc.
  - apply Qle_bool_iff in Hc. split; [exact Hc|].
    rewrite pow2_succ. fold C. nra.
  - assert (Hlt : X < C).
    { apply Qnot_le_lt. intros H. apply Qle_bool_iff in H. congruence. }
    replace (a - b - 1 + 1)%Z with (a - b)%Z by lia. fold C.
    split; [|exact Hlt].
    pose proof (pow2_pred (a - b)) as Hp. fold C in Hp.
    set (C' := 2 ^ (a - b - 1)) in *. nra.
Qed.

Lemma round_half_even_inject (z : Z) : round_half_even (inject_Z z) = z.
Proof.
  unfold round_half_even. rewrite Qfloor_Z.
  destruct (Qcompare_spec (inject_Z z - inject_Z z) (1 # 2)) as [H|H|H];
    [exfalso; lra | reflexivity | exfalso; lra].
Qed.

Lemma round_half_even_comp (x y : Q) :
  x == y -> round_half_even x = round_half_even y.
Proof.
  intros H. unfold round_half_even. rewrite (Qfloor_comp _ _ H).
  assert (Hc : (x - inject_Z (Qfloor y) ?= 1 # 2) = (y - inject_Z (Qfloor y) ?= 1 # 2)).
  { apply Qcompare_comp; [rewrite H; reflexivity | reflexivity]. }
  rewrite Hc. reflexivity.
Qed.

Lemma round_half_even_floor (x : Q) : (Qfloor x <= round_half_even x)%Z.
Proof.
  unfold round_half_even.
  destruct (x - inject_Z (Qfloor x) ?= 1 # 2); [destruct (Z.even _)|..]; lia.
Qed.

Lemma round64_comp (x y : Q) : x == y -> round64 x = round64 y.
Proof. intros H. unfold round64. rewrite (Qred_complete _ _ H). reflexivity. Qed.

Lemma round64_zero (x : Q) : x == 0 -> round64 x = 0.
Proof.
  intros H. unfold round64.
  assert (Hb : Qeq_bool (Qred x) 0 = true).
  { apply Qeq_bool_iff. rewrite Qred_correct. exact H. }
  rewrite Hb. reflexivity.
Qed.

(** The defining equation of [round64] away from zero. *)
Lemma round64_eq (x : Q) :
  ~ x == 0 ->
  exists e : Z,
    2 ^ e <= Qabs x /\ Qabs x < 2 ^ (e + 1) /\
    round64 x == inject_Z (round_half_even (x * 2 ^ (52 - e))) * 2 ^ (e - 52).
Proof.
  intros Hx. unfold round64.
  assert (Hb : Qeq_bool (Qred x) 0 = false).
  { apply not_true_iff_false. intros H. apply Qeq_bool_iff in H.
    rewrite Qred_correct in H. contradiction. }
  rewrite Hb. set (e := ilog2 (Qabs (Qred x))). exists e.
  assert (Habs : Qabs (Qred x) == Qabs x) by (apply Qabs_wd, Qred_correct).
  assert (Hpos : 0 < Qabs (Qred x)).
  { rewrite Habs. destruct (Qlt_le_dec 0 (Qabs x)) as [H|H]; [exact H|].
    exfalso. apply Hx. pose proof (Qabs_nonneg x) as H0.
    assert (H1 : Qabs x == 0) by lra.
    revert H1. apply Qabs_case; intros; lra. }
  destruct (ilog2_spec _ Hpos) as [H1 H2]. fold e in H1, H2.
  rewrite Habs in H1, H2. split; [exact H1|]. split; [exact H2|].
  rewrite Qred_correct.
  assert (Hr : round_half_even (Qred x * 2 ^ (52 - e)) = round_half_even (x * 2 ^ (52 - e))).
  { apply round_half_even_comp. rewrite Qred_correct. reflexivity. }
  rewrite Hr. reflexivity.
Qed.

Lemma round64_pos (x : Q) : 0 < x -> 0 < round64 x.
Proof.
  intros Hx.
  destruct (round64_eq x) as (e & H1 & H2 & ->); [lra|].
  rewrite Qabs_pos in H1 by lra.
  apply Qmult_lt_0_compat; [|apply pow2_pos].
  assert (Hs : 1 <= x * 2 ^ (52 - e)).
  { pose proof (pow2_sub 52 e) as Hp. pose proof (pow2_pos (52 - e)) as Hq.
    pose proof (pow2_pos e) as He.
    assert (H52 : 1 <= 2 ^ 52) by (apply Qpower_1_le; [lra | lia]).
    set (P := 2 ^ (52 - e)) in *. set (E := 2 ^ e) in *. nra. }
  pose proof (Qfloor_resp_le _ _ Hs) as Hf.
  change (Qfloor 1) with 1%Z in Hf.
  pose proof (round_half_even_floor (x * 2 ^ (52 - e))) as Hr.
  rewrite <- (Zlt_Qlt 0). lia.
Qed.

Lemma round64_nonneg (x : Q) : 0 <= x -> 0 <= round64 x.
Proof.
  intros Hx. destruct (Qeq_dec x 0) as [H|H].
  - rewrite (round64_zero _ H). lra.
  - apply Qlt_le_weak, round64_pos. lra.
Qed.

Lemma Qabs_inject_mul (m : Z) (p : Q) : 0 < p -> Qabs (inject_Z m * p) == inject_Z (Z.abs m) * p.
Proof.
  intros Hp. rewrite Qabs_Qmult, (Qabs_pos p) by lra.
  reflexivity.
Qed.

(** A dyadic number with a mantissa below [2^53] is a binary64 number. *)
Lemma round64_exact (x : Q) (m k : Z) :
  x == inject_Z m * 2 ^ k -> (Z.abs m < 2 ^ 53)%Z -> round64 x == x.
Proof.
  intros Hx Hm. destruct (Qeq_dec x 0) as [H0|H0].
  { rewrite (round64_zero _ H0). symmetry. exact H0. }
  destruct (round64_eq x H0) as (e & H1 & H2 & ->).
  assert (Habs : Qabs x == inject_Z (Z.abs m) * 2 ^ k).
  { rewrite (Qabs_wd _ _ Hx). apply Qabs_inject_mul, pow2_pos. }
  assert (Hek : (e < 53 + k)%Z).
  { apply (Qpower_lt_compat_l_inv 2); [|reflexivity].
    eapply Qle_lt_trans; [exact H1|]. rewrite Habs.
    rewrite Qpower_plus by apply two_ne_0.
    apply Qmult_lt_compat_r; [apply pow2_pos|].
    rewrite <- pow2_inject by lia. rewrite <- Zlt_Qlt. exact Hm. }
  set (j := (k + 52 - e)%Z).
  assert (Hs : x * 2 ^ (52 - e) == inject_Z (m * 2 ^ j)).
  { rewrite inject_Z_mult, pow2_inject by (unfold j; lia).
    rewrite Hx. unfold j. replace (k + 52 - e)%Z with (k + (52 - e))%Z by lia.
    rewrite (Qpower_plus 2 k) by apply two_ne_0. ring. }
  rewrite (round_half_even_comp _ _ Hs), round_half_even_inject.
  rewrite inject_Z_mult, pow2_inject by (unfold j; lia).
  rewrite Hx. rewrite <- Qmult_assoc. rewrite <- Qpower_plus by apply two_ne_0.
  replace (j + (e - 52))%Z with k by (unfold j; lia). reflexivity.
Qed.

Lemma of_int_exact (z : Z) : (Z.abs z < 2 ^ 53)%Z -> of_int z == inject_Z z.
Proof.
  intros H. unfold of_int. apply (round64_exact _ z 0); [|exact H].
  change (2 ^ 0) with 1. ring.
Qed.

Lemma round64_half (z : Z) :
  (Z.abs z < 2 ^ 53)%Z -> round64 (inject_Z z / 2) == inject_Z z / 2.
Proof.
  intros H. apply (round64_exact _ z (-1)); [|exact H].
  change (2 ^ (-1)) with (/ 2). reflexivity.
Qed.

Lemma round_half_even_succ (x : Q) : (round_half_even x <= Qfloor x + 1)%Z.
Proof.
  unfold round_half_even.
  destruct (x - inject_Z (Qfloor x) ?= 1 # 2); [destruct (Z.even _)|..]; lia.
Qed.

Lemma round_half_even_mono (x y : Q) :
  x <= y -> (round_half_even x <= round_half_even y)%Z.
Proof.
  intros H. pose proof (Qfloor_resp_le _ _ H) as Hf.
  pose proof (round_half_even_floor y) as Hy.
  pose proof (round_half_even_succ x) as Hx.
  destruct (Z.eq_dec (Qfloor x) (Qfloor y)) as [E|E]; [|lia].
  clear Hx Hy Hf. unfold round_half_even. rewrite E.
  destruct (Qcompare_spec (x - inject_Z (Qfloor y)) (1 # 2)) as [H1|H1|H1],
           (Qcompare_spec (y - inject_Z (Qfloor y)) (1 # 2)) as [H2|H2|H2];
    try destruct (Z.even (Qfloor y)); try lia; exfalso; lra.
Qed.

Lemma inject_Z_sub (a b : Z) : inject_Z (a - b) == inject_Z a - inject_Z b.
Proof.
  unfold Z.sub. rewrite inject_Z_plus, inject_Z_opp. reflexivity.
Qed.

Lemma Qfloor_opp_int (x : Q) :
  x == inject_Z (Qfloor x) -> Qfloor (- x) = (- Qfloor x)%Z.
Proof.
  intros H. rewrite (Qfloor_comp (- x) (inject_Z (- Qfloor x))).
  - apply Qfloor_Z.
  - rewrite inject_Z_opp. rewrite <- H. reflexivity.
Qed.

Lemma Qfloor_unique (x : Q) (z : Z) :
  inject_Z z <= x -> x < inject_Z (z + 1) -> Qfloor x = z.
Proof.
  intros H1 H2.
  pose proof (Qfloor_le x) as H3. pose proof (Qlt_floor x) as H4.
  assert (Ha : inject_Z z < inject_Z (Qfloor x + 1)) by lra.
  assert (Hb : inject_Z (Qfloor x) < inject_Z (z + 1)) by lra.
  rewrite <- Zlt_Qlt in Ha, Hb. lia.
Qed.

Lemma Qfloor_opp_frac (x : Q) :
  ~ x == inject_Z (Qfloor x) -> Qfloor (- x) = (- Qfloor x - 1)%Z.
Proof.
  intros H. pose proof (Qfloor_le x) as H3. pose proof (Qlt_floor x) as H4.
  rewrite inject_Z_plus in H4.
  apply Qfloor_unique.
  - rewrite inject_Z_sub, inject_Z_opp. lra.
  - replace (- Qfloor x - 1 + 1)%Z with (- Qfloor x)%Z by lia.
    rewrite inject_Z_opp.
    destruct (Qlt_le_dec (inject_Z (Qfloor x)) x) as [Hl|Hl]; [lra|].
    exfalso. apply H. lra.
Qed.

Lemma round_half_even_opp (x : Q) :
  round_half_even (- x) = (- round_half_even x)%Z.
Proof.
  destruct (Qeq_dec x (inject_Z (Qfloor x))) as [Hi|Hf].
  - rewrite (round_half_even_comp x _ Hi).
    rewrite (round_half_even_comp (- x) (inject_Z (- Qfloor x))).
    + rewrite !round_half_even_inject. reflexivity.
    + rewrite inject_Z_opp, <- Hi. reflexivity.
  - unfold round_half_even. rewrite (Qfloor_opp_frac x Hf).
    pose proof (Qfloor_le x) as H3. pose proof (Qlt_floor x) as H4.
    rewrite inject_Z_plus in H4.
    set (f := Qfloor x) in *.
    assert (Hm : inject_Z (- f - 1) == - inject_Z f - 1).
    { rewrite inject_Z_sub, inject_Z_opp. reflexivity. }
    assert (Hev : Z.even (- f - 1) = negb (Z.even f)).
    { replace (- f - 1)%Z with (- (f + 1))%Z by lia.
      rewrite Z.even_opp, Z.even_add. simpl. destruct (Z.even f); reflexivity. }
    rewrite Hev.
    destruct (Qcompare_spec (x - inject_Z f) (1 # 2)) as [H1|H1|H1],
             (Qcompare_spec (- x - inject_Z (- f - 1)) (1 # 2)) as [H2|H2|H2];
      try destruct (Z.even f); simpl; try lia; exfalso; lra.
Qed.

Lemma Qred_opp' (x : Q) : Qred (- x) = - Qred x.
Proof. apply Qred_opp. Qed.

Lemma round64_opp (x : Q) : round64 (- x) == - round64 x.
Proof.
  destruct (Qeq_dec x 0) as [H0|H0].
  { rewrite (round64_zero x H0), (round64_zero (- x)) by lra. reflexivity. }
  unfold round64. rewrite Qred_opp.
  assert (Hb : Qeq_bool (Qred x) 0 = false).
  { apply not_true_iff_false. intros H. apply Qeq_bool_iff in H.
    rewrite Qred_correct in H. contradiction. }
  assert (Hb' : Qeq_bool (- Qred x) 0 = false).
  { apply not_true_iff_false. intros H. apply Qeq_bool_iff in H.
    rewrite Qred_correct in H. apply H0. lra. }
  rewrite Hb, Hb'.
  assert (Ha : Qabs (- Qred x) = Qabs (Qred x)).
  { destruct (Qred x) as [n d]. unfold Qabs, Qopp. simpl. rewrite Z.abs_opp. reflexivity. }
  rewrite Ha. set (e := ilog2 (Qabs (Qred x))).
  rewrite !(Qred_correct (inject_Z _ * _)).
  generalize (2 ^ (52 - e)) (2 ^ (e - 52)). intros p q.
  assert (Hn : - Qred x * p == - (Qred x * p)).
  { ring. }
  rewrite (round_half_even_comp _ _ Hn).
  rewrite round_half_even_opp, inject_Z_opp.
  generalize (inject_Z (round_half_even (Qred x * p))). intros m. ring.
Qed.

Lemma round_half_even_err (x : Q) :
  x - (1 # 2) <= inject_Z (round_half_even x) /\
  inject_Z (round_half_even x) <= x + (1 # 2).
Proof.
  pose proof (Qfloor_le x) as H3. pose proof (Qlt_floor x) as H4.
  rewrite inject_Z_plus in H4. unfold round_half_even.
  destruct (Qcompare_spec (x - inject_Z (Qfloor x)) (1 # 2)) as [H|H|H];
    try destruct (Z.even (Qfloor x)); rewrite ?inject_Z_plus;
    change (inject_Z 1) with 1 in *; split; lra.
Qed.

Lemma pow2_le (a b : Z) : (a <= b)%Z -> 2 ^ a <= 2 ^ b.
Proof. intros H. apply Qpower_le_compat_l; [exact H | lra]. Qed.

Lemma pow2_lt_inv (a b : Z) : 2 ^ a < 2 ^ b -> (a < b)%Z.
Proof. intros H. apply (Qpower_lt_compat_l_inv 2); [exact H | reflexivity]. Qed.

Lemma pow2_scale (e : Z) : 2 ^ e * 2 ^ (52 - e) == 2 ^ 52.
Proof.
  rewrite <- Qpower_plus by apply two_ne_0.
  replace (e + (52 - e))%Z with 52%Z by lia. reflexivity.
Qed.

Lemma pow2_unscale (e : Z) : 2 ^ 52 * 2 ^ (e - 52) == 2 ^ e.
Proof.
  rewrite <- Qpower_plus by apply two_ne_0.
  replace (52 + (e - 52))%Z with e by lia. reflexivity.
Qed.

(** The shape of [round64] on a positive number: a mantissa between
    [2^52] and [2^53], within one half of the scaled input. *)
Lemma round64_pos_form (x : Q) :
  0 < x ->
  exists (e m : Z),
    2 ^ e <= x /\ x < 2 ^ (e + 1) /\
    m = round_half_even (x * 2 ^ (52 - e)) /\
    (2 ^ 52 <= m <= 2 ^ 53)%Z /\
    round64 x == inject_Z m * 2 ^ (e - 52).
Proof.
  intros Hx. destruct (round64_eq x) as (e & H1 & H2 & H3); [lra|].
  rewrite Qabs_pos in H1, H2 by lra.
  exists e, (round_half_even (x * 2 ^ (52 - e))).
  repeat split; try assumption.
  - rewrite <- (round_half_even_inject (2 ^ 52)).
    apply round_half_even_mono. rewrite pow2_inject by lia.
    rewrite <- (pow2_scale e). apply Qmult_le_compat_r; [exact H1|].
    apply Qlt_le_weak, pow2_pos.
  - rewrite <- (round_half_even_inject (2 ^ 53)).
    apply round_half_even_mono. rewrite pow2_inject by lia.
    change 53%Z with (52 + 1)%Z. rewrite (pow2_succ 52), <- (pow2_scale e).
    rewrite pow2_succ in H2. pose proof (pow2_pos (52 - e)) as Hp.
    generalize dependent (2 ^ (52 - e)). generalize dependent (2 ^ e).
    intros E _ HE P _ HP. nra.
Qed.

Lemma round64_mono_pos (x y : Q) :
  0 < x -> x <= y -> round64 x <= round64 y.
Proof.
  intros Hx Hxy.
  destruct (round64_pos_form x Hx) as (ex & mx & X1 & X2 & Xm & [X3 X4] & ->).
  destruct (round64_pos_form y) as (ey & my & Y1 & Y2 & Ym & [Y3 Y4] & ->); [lra|].
  assert (Hle : (ex <= ey)%Z).
  { assert (H : 2 ^ ex < 2 ^ (ey + 1)) by lra. apply pow2_lt_inv in H. lia. }
  destruct (Z.eq_dec ex ey) as [E|E].
  - subst ey. apply Qmult_le_compat_r; [|apply Qlt_le_weak, pow2_pos].
    rewrite <- Zle_Qle. subst mx my. apply round_half_even_mono.
    apply Qmult_le_compat_r; [exact Hxy | apply Qlt_le_weak, pow2_pos].
  - apply Qle_trans with (2 ^ (ex + 1)).
    + rewrite <- (pow2_unscale (ex + 1)).
      replace (ex + 1 - 52)%Z with (1 + (ex - 52))%Z by lia.
      rewrite (Qpower_plus 2 1) by apply two_ne_0. change (2 ^ 1) with 2.
      rewrite Zle_Qle, pow2_inject in X4 by lia.
      change 53%Z with (52 + 1)%Z in X4. rewrite pow2_succ in X4.
      pose proof (pow2_pos (ex - 52)) as Hp.
      generalize dependent (2 ^ (ex - 52)). intros P HP.
      generalize dependent (inject_Z mx). intros M HM. nra.
    + apply Qle_trans with (2 ^ ey); [apply pow2_le; lia|].
      rewrite <- (pow2_unscale ey).
      apply Qmult_le_compat_r; [|apply Qlt_le_weak, pow2_pos].
      rewrite <- pow2_inject by lia. rewrite <- Zle_Qle. exact Y3.
Qed.

Lemma round64_neg (x : Q) : x < 0 -> round64 x < 0.
Proof.
  intros Hx. assert (H : round64 x == - round64 (- x)).
  { rewrite round64_opp. ring. }
  rewrite H. pose proof (round64_pos (- x)) as Hp. lra.
Qed.

Lemma round64_mono (x y : Q) : x <= y -> round64 x <= round64 y.
Proof.
  intros Hxy. destruct (Qlt_le_dec 0 x) as [Hx|Hx].
  - apply round64_mono_pos; assumption.
  - destruct (Qlt_le_dec y 0) as [Hy|Hy].
    + assert (Hm : round64 (- y) <= round64 (- x)).
      { apply round64_mono_pos; lra. }
      rewrite !round64_opp in Hm. lra.
    + apply Qle_trans with 0; [|apply round64_nonneg; exact Hy].
      destruct (Qeq_dec x 0) as [E|E].
      * rewrite (round64_zero _ E). lra.
      * apply Qlt_le_weak, round64_neg. lra.
Qed.

Lemma round64_idem (x : Q) : round64 (round64 x) == round64 x.
Proof.
  assert (Hpos : forall y, 0 < y -> round64 (round64 y) == round64 y).
  { intros y Hy.
    destruct (round64_pos_form y Hy) as (e & m & _ & _ & _ & [M1 M2] & Hr).
    destruct (Z.eq_dec m (2 ^ 53)%Z) as [E|E].
    - apply (round64_exact _ (2 ^ 52)%Z (e - 51)); [|reflexivity].
      rewrite Hr, E.
      replace (e - 51)%Z with (1 + (e - 52))%Z by lia.
      rewrite (Qpower_plus 2 1) by apply two_ne_0.
      generalize (2 ^ (e - 52)). intros P.
      change (inject_Z (2 ^ 53)%Z) with (inject_Z (2 ^ 52)%Z * 2 ^ 1).
      generalize (inject_Z (2 ^ 52)%Z). intros M. ring.
    - apply (round64_exact _ m (e - 52)); [exact Hr | lia]. }
  destruct (Qlt_le_dec 0 x) as [Hx|Hx]; [apply Hpos; exact Hx|].
  destruct (Qeq_dec x 0) as [E|E].
  { rewrite (round64_zero _ E). reflexivity. }
  assert (H : round64 x == - round64 (- x)) by (rewrite round64_opp; ring).
  rewrite (round64_comp _ _ H), round64_opp, H.
  rewrite Hpos by lra. reflexivity.
Qed.

Lemma round64_err_aux (x M P S E U : Q) :
  E <= x -> x * S - (1 # 2) <= M -> M <= x * S + (1 # 2) ->
  S * P == 1 -> (1 # 2) * P == E * U -> 0 < P -> 0 < U ->
  x * (1 - U) <= M * P /\ M * P <= x * (1 + U).
Proof.
  intros HE H1 H2 HSP Hh HP HU.
  assert (Hx : x * S * P == x) by (rewrite <- Qmult_assoc, HSP; ring).
  assert (A1 : 0 <= (M - (x * S - (1 # 2))) * P) by (apply Qmult_le_0_compat; lra).
  assert (A2 : 0 <= (x * S + (1 # 2) - M) * P) by (apply Qmult_le_0_compat; lra).
  assert (A3 : 0 <= (x - E) * U) by (apply Qmult_le_0_compat; lra).
  split; nra.
Qed.

(** The relative error of one rounding is at most [2^-53]. *)
Lemma round64_err (x : Q) :
  0 < x ->
  x * (1 - 2 ^ (-53)) <= round64 x /\ round64 x <= x * (1 + 2 ^ (-53)).
Proof.
  intros Hx.
  destruct (round64_pos_form x Hx) as (e & m & X1 & X2 & Xm & _ & ->).
  destruct (round_half_even_err (x * 2 ^ (52 - e))) as [E1 E2].
  rewrite <- Xm in E1, E2.
  apply (round64_err_aux x (inject_Z m) (2 ^ (e - 52)) (2 ^ (52 - e)) (2 ^ e));
    try assumption; try apply pow2_pos.
  - rewrite <- Qpower_plus by apply two_ne_0.
    replace (52 - e + (e - 52))%Z with 0%Z by lia. reflexivity.
  - rewrite <- Qpower_plus by apply two_ne_0.
    replace (e + -53)%Z with (-1 + (e - 52))%Z by lia.
    rewrite (Qpower_plus 2 (-1)) by apply two_ne_0. reflexivity.
Qed.

(** ** The crop rectangle *)

Lemma to_int_floor (x : Q) : 0 <= x -> to_int x = Qfloor x.
Proof.
  intros H. destruct x as [n d]. unfold to_int, Qfloor. cbn [Qnum Qden].
  apply Z.quot_div_nonneg; [|reflexivity].
  unfold Qle in H. simpl in H. lia.
Qed.

Lemma to_int_nonneg (x : Q) : 0 <= x -> (0 <= to_int x)%Z.
Proof.
  intros H. rewrite to_int_floor by exact H.
  change 0%Z with (Qfloor 0). apply Qfloor_resp_le. exact H.
Qed.

Lemma to_int_lt (x : Q) (z : Z) :
  0 <= x -> x < inject_Z (z + 1) -> (to_int x <= z)%Z.
Proof.
  intros H0 H. rewrite to_int_floor by exact H0.
  pose proof (Qfloor_le x) as Hf.
  assert (Hlt : inject_Z (Qfloor x) < inject_Z (z + 1)) by lra.
  rewrite <- Zlt_Qlt in Hlt. lia.
Qed.

Lemma inject_Z_div_pos (a b : Z) : (0 < a)%Z -> (0 < b)%Z -> 0 < inject_Z a / inject_Z b.
Proof.
  intros Ha Hb. apply Qlt_shift_div_l.
  - change 0 with (inject_Z 0). rewrite <- Zlt_Qlt. exact Hb.
  - rewrite Qmult_0_l. change 0 with (inject_Z 0). rewrite <- Zlt_Qlt. exact Ha.
Qed.

Lemma truediv_int_ok (a b : Z) :
  b <> 0%Z -> truediv_int a b = Ok (round64 (inject_Z a / inject_Z b)).
Proof.
  intros Hb. unfold truediv_int. destruct (Z.eqb_spec b 0); [contradiction|reflexivity].
Qed.

Lemma int_div_ok (z : Z) (x : Q) :
  0 < x -> int_div z x = Ok (round64 (of_int z / x)).
Proof.
  intros Hx. unfold int_div.
  destruct (Qeq_bool x 0) eqn:E; [|reflexivity].
  apply Qeq_bool_iff in E. lra.
Qed.

Lemma gt_true (x y : Q) : gt x y = true <-> y < x.
Proof.
  unfold gt. rewrite negb_true_iff. split.
  - intros H. apply Qnot_le_lt. intros Hle. apply Qle_bool_iff in Hle. congruence.
  - intros H. apply not_true_iff_false. intros Hle. apply Qle_bool_iff in Hle. lra.
Qed.

Lemma gt_false (x y : Q) : gt x y = false <-> x <= y.
Proof.
  unfold gt. rewrite negb_false_iff. apply Qle_bool_iff.
Qed.

Lemma add_int_ge (x : Q) (z : Z) :
  (0 <= z)%Z -> round64 x <= add_int (round64 x) z.
Proof.
  intros Hz. unfold add_int.
  rewrite <- (round64_idem x) at 1. apply round64_mono.
  assert (H : 0 <= of_int z).
  { apply round64_nonneg. change 0 with (inject_Z 0). rewrite <- Zle_Qle. exact Hz. }
  lra.
Qed.

Lemma crop_box_eq (w h W H : Z) :
  (0 < w)%Z -> (0 < h)%Z -> (0 < W)%Z -> (0 < H)%Z ->
  let target_aspect := round64 (inject_Z w / inject_Z h) in
  let current_aspect := round64 (inject_Z W / inject_Z H) in
  crop_box w h W H =
  Ok (if gt current_aspect target_aspect
      then wide_box target_aspect W H else tall_box target_aspect W H).
Proof.
  intros Hw Hh HW HH ta ca. unfold crop_box.
  rewrite (truediv_int_ok w h) by lia. cbn [mbind PyResult_bind pybind].
  rewrite (truediv_int_ok W H) by lia. cbn [mbind PyResult_bind pybind].
  fold ta ca. destruct (gt ca ta).
  - rewrite truediv_int_ok by lia. reflexivity.
  - rewrite int_div_ok by (apply round64_pos, inject_Z_div_pos; assumption).
    cbn [mbind PyResult_bind pybind].
    rewrite truediv_int_ok by lia. reflexivity.
Qed.

Lemma crop_box_ordered (w h W H : Z) :
  (0 < w)%Z -> (0 < h)%Z -> (0 < W)%Z -> (0 < H)%Z ->
  exists box, crop_box w h W H = Ok box /\
    PIL.b_left box <= PIL.b_right box /\ PIL.b_top box <= PIL.b_bottom box.
Proof.
  intros Hw Hh HW HH. rewrite crop_box_eq by assumption.
  set (ta := round64 (inject_Z w / inject_Z h)).
  assert (Hta : 0 < ta) by (apply round64_pos, inject_Z_div_pos; assumption).
  eexists. split; [reflexivity|].
  destruct (gt _ ta); cbn [wide_box tall_box PIL.b_left PIL.b_right PIL.b_top PIL.b_bottom].
  - split.
    + apply add_int_ge, to_int_nonneg, round64_nonneg.
      apply Qmult_le_0_compat; [lra|]. apply round64_nonneg.
      change 0 with (inject_Z 0). rewrite <- Zle_Qle. lia.
    + rewrite <- Zle_Qle. lia.
  - split.
    + rewrite <- Zle_Qle. lia.
    + apply add_int_ge, to_int_nonneg, round64_nonneg.
      apply Qle_shift_div_l; [exact Hta|]. rewrite Qmult_0_l.
      apply round64_nonneg. change 0 with (inject_Z 0). rewrite <- Zle_Qle. lia.
Qed.

Lemma max_dim_Q (z : Z) : (z < max_dim)%Z -> inject_Z z < 1125899906842624.
Proof. intros H. rewrite Zlt_Qlt in H. exact H. Qed.

Lemma ulp_bound : 0 < 2 ^ (-53) /\ 2 ^ (-53) <= 1 # 9007199254740992.
Proof. split; [apply pow2_pos | apply Qle_refl]. Qed.

Lemma square_error_below_one (x u r : Q) :
  0 < x -> x < 1125899906842624 -> 0 < u -> u <= 1 # 9007199254740992 ->
  r <= x * (1 + u) * (1 + u) -> r < x + 1.
Proof.
  intros Hx Hb Hu1 Hu2 Hr.
  assert (Hxu : x * u <= 1 # 8).
  { apply Qle_trans with (1125899906842624 * (1 # 9007199254740992));
      [|apply Qle_bool_imp_le; reflexivity].
    apply Qle_trans with (x * (1 # 9007199254740992)).
    - apply Qmult_le_l; [exact Hx | exact Hu2].
    - apply Qmult_le_compat_r; lra. }
  assert (Hxuu : x * u * u <= (1 # 8) * u).
  { apply Qmult_le_compat_r; lra. }
  nra.
Qed.

Lemma quotient_error_below_one (y d u r : Q) :
  0 < y -> y < 1125899906842624 -> 0 < u -> u <= 1 # 9007199254740992 ->
  0 < d -> d * (1 - u) <= y -> r <= d * (1 + u) -> r < y + 1.
Proof.
  intros Hy Hb Hu1 Hu2 Hd Hdy Hr.
  assert (Hd2 : d <= 2 * y).
  { assert (A : d * (1 # 2) <= d * (1 - u)) by (apply Qmult_le_l; lra). lra. }
  assert (Hdu : d * u <= 1 # 4).
  { apply Qle_trans with (2 * 1125899906842624 * (1 # 9007199254740992));
      [|apply Qle_bool_imp_le; reflexivity].
    apply Qle_trans with (d * (1 # 9007199254740992)).
    - apply Qmult_le_l; [exact Hd | exact Hu2].
    - apply Qmult_le_compat_r; lra. }
  lra.
Qed.

Lemma inject_Z_pos (z : Z) : (0 < z)%Z -> 0 < inject_Z z.
Proof. intros H. change 0 with (inject_Z 0). rewrite <- Zlt_Qlt. exact H. Qed.

Lemma of_int_dim (z : Z) : (0 < z < max_dim)%Z -> of_int z == inject_Z z.
Proof.
  intros [H1 H2]. apply of_int_exact. unfold max_dim in H2.
  assert (2 ^ 50 < 2 ^ 53)%Z by reflexivity. lia.
Qed.

(** In the wide branch the new width lies between 0 and the source width. *)
Lemma new_width_range (w h W H : Z) :
  (0 < w)%Z -> (0 < h)%Z -> (0 < W < max_dim)%Z -> (0 < H < max_dim)%Z ->
  let target_aspect := round64 (inject_Z w / inject_Z h) in
  let current_aspect := round64 (inject_Z W / inject_Z H) in
  gt current_aspect target_aspect = true ->
  (0 <= to_int (mul_int target_aspect H) <= W)%Z.
Proof.
  intros Hw Hh HW HH ta ca Hgt. apply gt_true in Hgt.
  assert (Hta : 0 < ta) by (apply round64_pos, inject_Z_div_pos; lia).
  assert (HHq : 0 < inject_Z H) by (apply inject_Z_pos; lia).
  assert (HWq : 0 < inject_Z W) by (apply inject_Z_pos; lia).
  assert (Hprod : 0 <= ta * of_int H).
  { rewrite of_int_dim by exact HH. apply Qmult_le_0_compat; lra. }
  unfold mul_int. split.
  { apply to_int_nonneg, round64_nonneg, Hprod. }
  apply to_int_lt; [apply round64_nonneg, Hprod|].
  rewrite inject_Z_plus. change (inject_Z 1) with 1.
  destruct ulp_bound as [Hu1 Hu2].
  destruct (round64_err (inject_Z W / inject_Z H)) as [_ Hca];
    [apply inject_Z_div_pos; lia|]. fold ca in Hca.
  set (x := inject_Z W * (1 + 2 ^ (-53))).
  assert (Hx : 0 < x) by (unfold x; apply Qmult_lt_0_compat; lra).
  assert (Hle : ta * of_int H <= x).
  { rewrite of_int_dim by exact HH. unfold x.
    apply Qle_trans with (ca * inject_Z H).
    - apply Qmult_le_compat_r; lra.
    - apply Qle_trans with (inject_Z W / inject_Z H * (1 + 2 ^ (-53)) * inject_Z H).
      + apply Qmult_le_compat_r; lra.
      + apply Qle_lteq. right. field. lra. }
  apply (square_error_below_one (inject_Z W) (2 ^ (-53)));
    [exact HWq | apply max_dim_Q; lia | exact Hu1 | exact Hu2 |].
  apply Qle_trans with (round64 x); [apply round64_mono, Hle|].
  apply (round64_err x Hx).
Qed.

(** In the tall branch the new height lies between 0 and the source height. *)
Lemma new_height_range (w h W H : Z) :
  (0 < w)%Z -> (0 < h)%Z -> (0 < W < max_dim)%Z -> (0 < H < max_dim)%Z ->
  let target_aspect := round64 (inject_Z w / inject_Z h) in
  let current_aspect := round64 (inject_Z W / inject_Z H) in
  gt current_aspect target_aspect = false ->
  (0 <= to_int (round64 (of_int W / target_aspect)) <= H)%Z.
Proof.
  intros Hw Hh HW HH ta ca Hgt. apply gt_false in Hgt.
  assert (Hca : 0 < ca) by (apply round64_pos, inject_Z_div_pos; lia).
  assert (Hta : 0 < ta) by lra.
  assert (HHq : 0 < inject_Z H) by (apply inject_Z_pos; lia).
  assert (HWq : 0 < inject_Z W) by (apply inject_Z_pos; lia).
  rewrite (round64_comp (of_int W / ta) (inject_Z W / ta))
    by (rewrite of_int_dim by exact HW; reflexivity).
  set (d := inject_Z W / ta).
  assert (Hd : 0 < d) by (unfold d; apply Qlt_shift_div_l; lra).
  assert (Hdt : d * ta == inject_Z W) by (unfold d; field; lra).
  split.
  { apply to_int_nonneg, round64_nonneg. lra. }
  apply to_int_lt; [apply round64_nonneg; lra|].
  rewrite inject_Z_plus. change (inject_Z 1) with 1.
  destruct ulp_bound as [Hu1 Hu2].
  destruct (round64_err (inject_Z W / inject_Z H)) as [Hlow _];
    [apply inject_Z_div_pos; lia|]. fold ca in Hlow.
  apply (quotient_error_below_one (inject_Z H) d (2 ^ (-53)));
    [exact HHq | apply max_dim_Q; lia | exact Hu1 | exact Hu2 | exact Hd | |
     apply (round64_err d Hd)].
  (* d * (1 - u) <= H, from W (1 - u) <= ca * H <= ta * H *)
  assert (A : inject_Z W * (1 - 2 ^ (-53)) <= ta * inject_Z H).
  { apply Qle_trans with (ca * inject_Z H).
    - apply Qle_trans with (inject_Z W / inject_Z H * (1 - 2 ^ (-53)) * inject_Z H).
      + apply Qle_lteq. right. field. lra.
      + apply Qmult_le_compat_r; lra.
    - apply Qmult_le_compat_r; lra. }
  rewrite <- Hdt in A.
  apply Qmult_le_l with (z := ta); [exact Hta|].
  apply Qle_trans with (d * ta * (1 - 2 ^ (-53))); [|exact A].
  apply Qle_lteq. right. ring.
Qed.

(** ** Pillow's crop and resize *)

Local Close Scope Q_scope.

Section PillowFacts.
Context {Pixel : Type} `{PIL.Pillow Pixel}.






Lemma Image_crop_loaded (im : PIL.Image Pixel) (box : PIL.Box) :
  PIL.load_error im = None -> PIL.Image_crop im box = PIL.crop im box.
Proof.
  intros Hl. unfold PIL.Image_crop. rewrite Hl. destruct (PIL.crop im box); reflexivity.
Qed.

End PillowFacts.

(** ** The claims about the transformer *)

(** *** C2 *)



(** *** C3 *)

(** Equal aspect ratios compare equal as floats, so the comparison of
    line 33 is false and the [else] branch runs. *)
Lemma equal_aspect_takes_else_branch (w h W H : Z) :
  (0 < h)%Z -> (0 < H)%Z -> (W * h = w * H)%Z ->
  gt (round64 (inject_Z W / inject_Z H)) (round64 (inject_Z w / inject_Z h)) = false.
Proof.
  intros Hh HH E. apply gt_false.
  rewrite (round64_comp (inject_Z W / inject_Z H) (inject_Z w / inject_Z h)).
  - apply Qle_refl.
  - assert (A : (0 < inject_Z h)%Q) by (apply inject_Z_pos; exact Hh).
    assert (B : (0 < inject_Z H)%Q) by (apply inject_Z_pos; exact HH).
    assert (C : (inject_Z W * inject_Z h == inject_Z w * inject_Z H)%Q).
    { rewrite <- !inject_Z_mult, E. reflexivity. }
    apply Qeq_trans with ((inject_Z W * inject_Z h) / (inject_Z H * inject_Z h))%Q;
      [field; lra|].
    rewrite C. field. lra.
Qed.

(** The kernel's binary64 arithmetic gives the same quotient as the
    model: [21 / (3 / 17)] is the float just below 119. *)
Lemma float_quotient_21_3_17 :
  of_prim (PrimFloat.div (prim_of_int 21) (PrimFloat.div (prim_of_int 3) (prim_of_int 17)))
  = Some (round64 (of_int 21 / round64 (inject_Z 3 / inject_Z 17))) /\
  (round64 (of_int 21 / round64 (inject_Z 3 / inject_Z 17)) < 119)%Q.
Proof. split; [vm_compute; reflexivity | vm_compute; reflexivity]. Qed.

(** Claim C3, at the target 3 by 17 and a 21 by 119 source: the aspect
    ratios are equal and the [else] branch is taken, but the new height is
    [int(21 / (3 / 17)) = 118], the crop rectangle is
    [(0, 0.5, 21, 118.5)] instead of [(0, 0, 21, 119)], and the cropped
    image has 118 rows: one row of pixels is discarded before the resize. *)
Theorem C3_equal_aspect_crop_discards_a_row :
  (21 * 17 = 3 * 119)%Z /\
  gt (round64 (inject_Z 21 / inject_Z 119)) (round64 (inject_Z 3 / inject_Z 17)) = false /\
  to_int (round64 (of_int 21 / round64 (inject_Z 3 / inject_Z 17))) = 118%Z /\
  crop_box 3 17 21 119 = Ok (PIL.mkBox 0 (1 # 2) 21 (237 # 2)) /\
  crop_box 3 17 21 119 <> Ok (PIL.mkBox 0 0 21 119) /\
  extracted (PIL.mkBox 0 (1 # 2) 21 (237 # 2)) = (0, 0, 21, 118)%Z /\
  exists cropped, PIL.crop (H := raw_codec) (blank 21 119) (PIL.mkBox 0 (1 # 2) 21 (237 # 2))
                  = Ok cropped /\
                  PIL.width cropped = 21%Z /\ PIL.height cropped = 118%Z.
Proof.
  split; [reflexivity|].
  split; [apply equal_aspect_takes_else_branch; reflexivity|].
  split; [vm_compute; reflexivity|].
  assert (E : crop_box 3 17 21 119 = Ok (PIL.mkBox 0 (1 # 2) 21 (237 # 2)))
    by (vm_compute; reflexivity).
  split; [exact E|].
  split; [rewrite E; discriminate|].
  split; [vm_compute; reflexivity|].
  eexists. split; [reflexivity|]. split; reflexivity.
Qed.

(** *** C4 *)

Lemma C4_offsets_reach_crop_untruncated :
  crop_box 1 1 5 2 = Ok (PIL.mkBox (3 # 2) 0 (7 # 2) 2) /\
  truncated (PIL.mkBox (3 # 2) 0 (7 # 2) 2) = PIL.mkBox 1 0 3 2 /\
  extracted (PIL.mkBox (3 # 2) 0 (7 # 2) 2) = (2, 0, 4, 2)%Z /\
  extracted (truncated (PIL.mkBox (3 # 2) 0 (7 # 2) 2)) = (1, 0, 3, 2)%Z.
Proof. repeat split; vm_compute; reflexivity. Qed.

(** A centering offset [(a - b) / 2] and the far edge [offset + b] are
    computed without error. *)
Lemma centered_offsets_exact (a b : Z) :
  (0 < a < max_dim)%Z -> (0 <= b <= a)%Z ->
  let offset := round64 (inject_Z (a - b) / inject_Z 2) in
  (offset == inject_Z (a - b) / 2)%Q /\
  (add_int offset b == offset + inject_Z b)%Q.
Proof.
  intros Ha Hb offset. unfold max_dim in Ha.
  assert (Hp : (2 ^ 50 < 2 ^ 52)%Z) by reflexivity.
  assert (Hq : (2 ^ 52 < 2 ^ 53)%Z) by reflexivity.
  assert (Ho : (offset == inject_Z (a - b) / 2)%Q).
  { apply round64_half. lia. }
  split; [exact Ho|].
  assert (Hb' : (of_int b == inject_Z b)%Q) by (apply of_int_exact; lia).
  assert (Hs : (offset + of_int b == inject_Z (a + b) / 2)%Q).
  { rewrite Ho, Hb', inject_Z_sub, inject_Z_plus. field. }
  unfold add_int. rewrite (round64_comp _ _ Hs).
  rewrite round64_half by lia.
  rewrite Ho, inject_Z_sub, inject_Z_plus. field.
Qed.

(** C4, as amended: only the new width (or height) is truncated, by [int()].  The
    centering offset is the exact quotient [(W - new_width) / 2] (a
    half-integer when the difference is odd), the far edge is the offset
    plus the new width, and both reach [Image.crop] as they are; it is
    [Image.crop] that turns them into integers, rounding to the nearest
    one, ties to the even one. *)
Theorem C4_crop_offsets_are_exact_halves (w h W H : Z) :
  (0 < w < max_dim)%Z -> (0 < h < max_dim)%Z ->
  (0 < W < max_dim)%Z -> (0 < H < max_dim)%Z ->
  exists box,
    crop_box w h W H = Ok box /\
    ((exists new_width,
        new_width = to_int (mul_int (round64 (inject_Z w / inject_Z h)) H) /\
        (0 <= new_width <= W)%Z /\
        (PIL.b_left box == inject_Z (W - new_width) / 2)%Q /\
        (PIL.b_top box == 0)%Q /\
        (PIL.b_right box == PIL.b_left box + inject_Z new_width)%Q /\
        (PIL.b_bottom box == inject_Z H)%Q) \/
     (exists new_height,
        new_height = to_int (round64 (of_int W / round64 (inject_Z w / inject_Z h))) /\
        (0 <= new_height <= H)%Z /\
        (PIL.b_left box == 0)%Q /\
        (PIL.b_top box == inject_Z (H - new_height) / 2)%Q /\
        (PIL.b_right box == inject_Z W)%Q /\
        (PIL.b_bottom box == PIL.b_top box + inject_Z new_height)%Q)) /\
    forall (Pixel : Type) (P : PIL.Pillow Pixel) (im : PIL.Image Pixel),
      exists cropped,
        PIL.crop im box = Ok cropped /\
        PIL.width cropped
        = Z.max 0 (round_half_even (PIL.b_right box) - round_half_even (PIL.b_left box)) /\
        PIL.height cropped
        = Z.max 0 (round_half_even (PIL.b_bottom box) - round_half_even (PIL.b_top box)).
Proof.
  intros [Hw _] [Hh _] HW HH.
  destruct (crop_box_ordered w h W H) as (box & Hbox & Hx & Hy); try lia.
  exists box. split; [exact Hbox|]. split.
  - rewrite crop_box_eq in Hbox by lia.
    destruct (gt _ _) eqn:Hgt; injection Hbox as <-.
    + left. eexists. split; [reflexivity|].
      pose proof (new_width_range w h W H Hw Hh HW HH Hgt) as Hr.
      split; [exact Hr|].
      destruct (centered_offsets_exact W _ HW Hr) as [Ho Hs].
      cbn [wide_box PIL.b_left PIL.b_top PIL.b_right PIL.b_bottom].
      repeat split; try reflexivity; assumption.
    + right. eexists. split; [reflexivity|].
      pose proof (new_height_range w h W H Hw Hh HW HH Hgt) as Hr.
      split; [exact Hr|].
      destruct (centered_offsets_exact H _ HH Hr) as [Ho Hs].
      cbn [tall_box PIL.b_left PIL.b_top PIL.b_right PIL.b_bottom].
      repeat split; try reflexivity; assumption.
  - intros Pixel P im. unfold PIL.crop, PIL.Qlt_bool.
    apply Qle_bool_iff in Hx, Hy. rewrite Hx, Hy. cbn [negb].
    eexists. split; [reflexivity|]. split; reflexivity.
Qed.

Lemma C4_crop_offsets_witness :
  exists box,
    crop_box 1 1 5 2 = Ok box /\
    ((exists new_width,
        new_width = to_int (mul_int (round64 (inject_Z 1 / inject_Z 1)) 2) /\
        (0 <= new_width <= 5)%Z /\
        (PIL.b_left box == inject_Z (5 - new_width) / 2)%Q /\
        (PIL.b_top box == 0)%Q /\
        (PIL.b_right box == PIL.b_left box + inject_Z new_width)%Q /\
        (PIL.b_bottom box == inject_Z 2)%Q) \/
     (exists new_height,
        new_height = to_int (round64 (of_int 5 / round64 (inject_Z 1 / inject_Z 1))) /\
        (0 <= new_height <= 2)%Z /\
        (PIL.b_left box == 0)%Q /\
        (PIL.b_top box == inject_Z (2 - new_height) / 2)%Q /\
        (PIL.b_right box == inject_Z 5)%Q /\
        (PIL.b_bottom box == PIL.b_top box + inject_Z new_height)%Q)) /\
    forall (Pixel : Type) (P : PIL.Pillow Pixel) (im : PIL.Image Pixel),
      exists cropped,
        PIL.crop im box = Ok cropped /\
        PIL.width cropped
        = Z.max 0 (round_half_even (PIL.b_right box) - round_half_even (PIL.b_left box)) /\
        PIL.height cropped
        = Z.max 0 (round_half_even (PIL.b_bottom box) - round_half_even (PIL.b_top box)).
Proof.
  apply (C4_crop_offsets_are_exact_halves 1 1 5 2); unfold max_dim; lia.
Defined.

(** ** Strings and paths *)

Lemma to_list_app (a b : string) :
  Str.to_list (a +:+ b) = Str.to_list a ++ Str.to_list b.
Proof.
  induction a as [|c a IH]; [reflexivity|].
  change (String c a +:+ b) with (String c (a +:+ b)).
  cbn. f_equal. exact IH.
Qed.

Lemma to_list_inj (a b : string) : Str.to_list a = Str.to_list b -> a = b.
Proof.
  intros H. rewrite <- (String.string_of_list_ascii_of_string a),
    <- (String.string_of_list_ascii_of_string b).
  unfold Str.to_list in H. rewrite H. reflexivity.
Qed.

Lemma append_assoc (a b c : string) : (a +:+ b) +:+ c = a +:+ (b +:+ c).
Proof. apply to_list_inj. rewrite !to_list_app. symmetry. apply app_assoc. Qed.

Lemma append_empty_r (a : string) : a +:+ EmptyString = a.
Proof. apply to_list_inj. rewrite to_list_app. apply app_nil_r. Qed.

Lemma append_inv_tail (a b t : string) : a +:+ t = b +:+ t -> a = b.
Proof.
  intros H. apply to_list_inj. apply (f_equal Str.to_list) in H.
  rewrite !to_list_app in H. eapply app_inv_tail. exact H.
Qed.

Lemma length_to_list (a : string) : length (Str.to_list a) = String.length a.
Proof. induction a; cbn; auto. Qed.

(** *** [rpartition] *)

Lemma rpartition_some c s h t :
  Str.rpartition c s = Some (h, t) ->
  s = h +:+ String c t /\ c ∉ Str.to_list t.
Proof.
  revert h t. induction s as [|a s IH]; intros h t H; cbn in H; [discriminate|].
  destruct (Str.rpartition c s) as [[h' t']|] eqn:E.
  - injection H as <- <-. destruct (IH h' t' eq_refl) as [-> Hn]. auto.
  - destruct (Ascii.eqb_spec a c) as [->|Hne]; [|discriminate].
    injection H as <- <-. split; [reflexivity|].
    clear IH. revert E. induction s as [|b s IH]; cbn; intros E.
    + apply not_elem_of_nil.
    + destruct (Str.rpartition c s) as [[? ?]|]; [discriminate|].
      destruct (Ascii.eqb_spec b c); [discriminate|].
      apply not_elem_of_cons. split; [congruence | auto].
Qed.

Lemma rpartition_none c s : Str.rpartition c s = None -> c ∉ Str.to_list s.
Proof.
  induction s as [|b s IH]; cbn; intros E.
  - apply not_elem_of_nil.
  - destruct (Str.rpartition c s) as [[? ?]|]; [discriminate|].
    destruct (Ascii.eqb_spec b c); [discriminate|].
    apply not_elem_of_cons. split; [congruence | auto].
Qed.

Lemma rpartition_fresh c t : c ∉ Str.to_list t -> Str.rpartition c t = None.
Proof.
  induction t as [|b t IH]; cbn; intros H; [reflexivity|].
  apply not_elem_of_cons in H as [Hne Hn]. rewrite (IH Hn).
  destruct (Ascii.eqb_spec b c); [congruence | reflexivity].
Qed.

Lemma rpartition_app c h t :
  c ∉ Str.to_list t -> Str.rpartition c (h +:+ String c t) = Some (h, t).
Proof.
  intros Hn. induction h as [|a h IH].
  - change (EmptyString +:+ String c t) with (String c t). cbn.
    rewrite (rpartition_fresh c t Hn). rewrite Ascii.eqb_refl. reflexivity.
  - change (String a h +:+ String c t) with (String a (h +:+ String c t)).
    cbn. rewrite IH. reflexivity.
Qed.

(** *** [os.path] *)

Lemma basename_no_sep p : "/"%char ∉ Str.to_list (os_path.basename p).
Proof.
  unfold os_path.basename. destruct (Str.rpartition os_path.sep p) as [[h t]|] eqn:E.
  - apply rpartition_some in E. tauto.
  - apply rpartition_none in E. exact E.
Qed.

Lemma splitext_app p root ext : os_path.splitext p = (root, ext) -> root +:+ ext = p.
Proof.
  unfold os_path.splitext.
  destruct (Str.rpartition os_path.sep p) as [[h t]|] eqn:E.
  - apply rpartition_some in E as [-> _].
    destruct (Str.rpartition "." t) as [[r e]|] eqn:E2.
    + destruct (Str.all_chars "." r).
      * intros [= <- <-]. apply append_empty_r.
      * intros [= <- <-]. apply rpartition_some in E2 as [-> _].
        rewrite !append_assoc. reflexivity.
    + intros [= <- <-]. apply append_empty_r.
  - destruct (Str.rpartition "." p) as [[r e]|] eqn:E2.
    + destruct (Str.all_chars "." r).
      * intros [= <- <-]. apply append_empty_r.
      * intros [= <- <-]. apply rpartition_some in E2 as [-> _]. reflexivity.
    + intros [= <- <-]. apply append_empty_r.
Qed.

Lemma join_relative a b : relative b -> os_path.join a b = join_prefix a +:+ b.
Proof.
  unfold os_path.join, join_prefix, relative. intros Hb.
  assert (E : match b with
              | String "/"%char _ => b
              | _ => if Str.is_empty a || Str.endswith a "/" then a +:+ b
                     else a +:+ "/" +:+ b
              end
              = if Str.is_empty a || Str.endswith a "/" then a +:+ b
                else a +:+ "/" +:+ b).
  { destruct b as [|c b]; [reflexivity|].
    destruct c as [[] [] [] [] [] [] [] []]; try reflexivity. destruct Hb. }
  rewrite E. destruct (Str.is_empty a || Str.endswith a "/"); [reflexivity|].
  rewrite append_assoc. reflexivity.
Qed.

Lemma relative_no_sep b : "/"%char ∉ Str.to_list b -> relative b.
Proof.
  destruct b as [|c b]; [exact (fun _ => I)|]. cbn. intros H.
  apply not_elem_of_cons in H as [Hne _].
  destruct c as [[] [] [] [] [] [] [] []]; try exact I. congruence.
Qed.

Lemma relative_app a b : relative a -> a <> EmptyString -> relative (a +:+ b).
Proof. destruct a as [|c a]; [congruence|]. intros H _. exact H. Qed.

(** *** Names without separator *)

Lemma no_sep_app (c : ascii) (a b : string) :
  c ∉ Str.to_list (a +:+ b) <-> (c ∉ Str.to_list a) /\ (c ∉ Str.to_list b).
Proof. rewrite to_list_app, not_elem_of_app. reflexivity. Qed.

Lemma pretty_N_go_fresh (c : ascii) (x : N) (s : string) :
  (forall d, pretty_N_char d <> c) -> c ∉ Str.to_list s ->
  c ∉ Str.to_list (pretty_N_go x s).
Proof.
  intros Hc. revert s. induction (N.lt_wf_0 x) as [x _ IH]; intros s Hs.
  assert (x = 0 \/ 0 < x)%N as [->|Hx] by lia.
  - rewrite pretty_N_go_0. exact Hs.
  - rewrite pretty_N_go_step by exact Hx. apply IH.
    + apply N.div_lt; [exact Hx | reflexivity].
    + cbn. apply not_elem_of_cons. split; [|exact Hs]. intros E. apply (Hc _ (eq_sym E)).
Qed.

(** A decimal numeral has neither a dot nor a slash. *)
Lemma pretty_nat_fresh (c : ascii) (n : nat) :
  c = "."%char \/ c = "/"%char -> c ∉ Str.to_list (pretty n).
Proof.
  intros Hc.
  assert (Hd : forall d, pretty_N_char d <> c).
  { intros d. unfold pretty_N_char.
    destruct Hc as [-> | ->]; repeat case_match; discriminate. }
  unfold pretty, pretty_nat, pretty, pretty_N. case_decide.
  - cbn. apply not_elem_of_cons. split; [|apply not_elem_of_nil].
    destruct Hc as [-> | ->]; discriminate.
  - apply pretty_N_go_fresh; [exact Hd | apply not_elem_of_nil].
Qed.

(** The names that the naming rule tries after a collision have no
    separator when the original name has none. *)
Lemma numbered_name_plain (base ext : string) (counter : nat) :
  "/"%char ∉ Str.to_list base -> "/"%char ∉ Str.to_list ext ->
  "/"%char ∉ Str.to_list (base +:+ "_" +:+ pretty counter +:+ ext).
Proof.
  intros Hb He. rewrite !no_sep_app. split; [exact Hb|].
  split; [|split; [apply pretty_nat_fresh; right; reflexivity | exact He]].
  cbn. intros H. apply elem_of_cons in H as [H|H]; [discriminate | inversion H].
Qed.

Lemma splitext_plain (basename : string) :
  "/"%char ∉ Str.to_list basename ->
  ("/"%char ∉ Str.to_list (os_path.splitext basename).1) /\
  ("/"%char ∉ Str.to_list (os_path.splitext basename).2).
Proof.
  intros H. destruct (os_path.splitext basename) as [base ext] eqn:E.
  cbn [fst snd]. apply no_sep_app.
  rewrite (splitext_app _ _ _ E). exact H.
Qed.

(** *** Lower case and suffixes *)

Lemma lower_app a b : Str.lower (a +:+ b) = Str.lower a +:+ Str.lower b.
Proof.
  induction a as [|c a IH]; [reflexivity|].
  change (String c a +:+ b) with (String c (a +:+ b)). cbn. rewrite IH. reflexivity.
Qed.

Lemma suffix_after_sep (c : ascii) (ext X s : list ascii) :
  c ∉ ext -> ext `suffix_of` X ++ c :: s <-> ext `suffix_of` s.
Proof.
  intros Hc. split.
  - destruct ext as [|x ext]; [intros _; apply suffix_nil|].
    induction X as [|a X IH]; cbn; intros H.
    + apply suffix_cons_inv in H as [H|H]; [|exact H].
      injection H as -> _. exfalso. apply Hc. left.
    + apply suffix_cons_inv in H as [H|H]; [|auto].
      exfalso. apply Hc. rewrite H. right. apply elem_of_app. right. left.
  - intros H. apply suffix_app_r, suffix_cons_r, H.
Qed.

Lemma endswith_after_sep ext X s :
  "/"%char ∉ Str.to_list ext ->
  Str.endswith (X +:+ String "/" s) ext = Str.endswith s ext.
Proof.
  intros Hc. unfold Str.endswith. apply bool_decide_ext.
  rewrite to_list_app. cbn [Str.to_list String.list_ascii_of_string].
  apply suffix_after_sep. exact Hc.
Qed.

Lemma endswith_any_after_sep exts X s :
  Forall (fun ext => "/"%char ∉ Str.to_list ext) exts ->
  Str.endswith_any (X +:+ String "/" s) exts = Str.endswith_any s exts.
Proof.
  unfold Str.endswith_any. induction 1 as [|ext exts H _ IH]; [reflexivity|].
  cbn. rewrite IH, endswith_after_sep by exact H. reflexivity.
Qed.

Lemma IMAGE_EXTENSIONS_no_sep :
  Forall (fun ext => "/"%char ∉ Str.to_list ext) IMAGE_EXTENSIONS.
Proof.
  unfold IMAGE_EXTENSIONS. repeat constructor; cbn; intros H;
    repeat (apply elem_of_cons in H as [H|H]; [discriminate H|]);
    apply elem_of_nil in H; exact H.
Qed.

Lemma endswith_sep_inv a :
  Str.endswith a "/" = true -> exists X, a = X +:+ "/".
Proof.
  unfold Str.endswith. intros H. apply bool_decide_eq_true in H as [k Hk].
  exists (String.string_of_list_ascii k). apply to_list_inj.
  rewrite to_list_app. unfold Str.to_list at 2.
  rewrite String.list_ascii_of_string_of_list_ascii. exact Hk.
Qed.

Lemma join_prefix_cases a :
  join_prefix a = EmptyString \/ exists X, join_prefix a = X +:+ "/".
Proof.
  unfold join_prefix. destruct a as [|c a]; [left; reflexivity|]. cbn [Str.is_empty orb].
  destruct (Str.endswith (String c a) "/") eqn:E.
  - right. apply endswith_sep_inv. exact E.
  - right. eauto.
Qed.

Lemma relative_or_absolute f : relative f \/ exists r, f = String "/" r.
Proof.
  destruct f as [|c f]; [left; exact I|].
  destruct c as [[] [] [] [] [] [] [] []]; try (left; exact I). right. eauto.
Qed.

(** The extension test sees the file name only, whatever the directory. *)
Lemma is_image_join target_dir f : is_image (os_path.join target_dir f) = is_image f.
Proof.
  destruct (relative_or_absolute f) as [Hr|[r ->]]; [|reflexivity].
  rewrite (join_relative _ _ Hr). unfold is_image.
  destruct (join_prefix_cases target_dir) as [->|[X ->]]; [reflexivity|].
  rewrite append_assoc, lower_app.
  change (Str.lower ("/" +:+ f)) with (String "/" (Str.lower f)).
  apply endswith_any_after_sep, IMAGE_EXTENSIONS_no_sep.
Qed.

(** ** What a turn of the loop can do *)

Lemma moves_trans w1 w2 w3 : moves w1 w2 -> moves w2 w3 -> moves w1 w3.
Proof.
  induction 1 as [|w src dst w' Hi _ IH]; [auto|].
  intros H. eapply moves_step; [exact Hi | auto].
Qed.

Lemma moves_one w src dst : is_image src = true -> moves w (moved src dst w).
Proof. intros H. eapply moves_step; [exact H | apply moves_refl]. Qed.

Section Obeys.
Variables target_dir printed_dir : string.

Local Abbreviation obeys := (obeys target_dir printed_dir).

Lemma advanced_trans n1 n2 m1 m2 m3 :
  advanced n1 m1 m2 -> advanced n2 m2 m3 -> advanced (n1 + n2) m1 m3.
Proof.
  intros (S1 & T1 & K1) (S2 & T2 & K2). split; [congruence|]. split; [lia|].
  intros k Hk Hle. apply K2; [congruence | eauto].
Qed.

Lemma advanced_interrupted n m1 m2 m3 :
  advanced n m1 m2 -> interrupted m2 m3 -> interrupted m1 m3.
Proof.
  intros (S1 & T1 & K1) (S2 & k & Hk & Hle). split; [exact S2|].
  exists k. split; [congruence | lia].
Qed.

Lemma advanced_weaken n n' m m' : n' <= n -> advanced n m m' -> advanced n' m m'.
Proof. intros Hn (S1 & T1 & K1). split; [exact S1|]. split; [lia | exact K1]. Qed.

Lemma obeys_ret {A} (X : Exn -> Prop) (Q : A -> Prop) (a : A) :
  Q a -> obeys 0 X Q (mret a).
Proof.
  intros Ha m. cbn. split; [constructor|]. split; [apply moves_refl|]. left.
  split; [|exact Ha]. split; [reflexivity|]. split; [lia | auto].
Qed.

Lemma obeys_weaken {A} n n' (X X' : Exn -> Prop) (Q Q' : A -> Prop) (c : M A) :
  n' <= n -> (forall e, X e -> X' e) -> (forall a, Q a -> Q' a) ->
  obeys n X Q c -> obeys n' X' Q' c.
Proof.
  intros Hn HX HQ Hc m. destruct (Hc m) as (HE & HR & [[Ha Hx]|Hi]).
  - split; [exact HE|]. split; [exact HR|]. left.
    split; [eapply advanced_weaken; eauto|].
    destruct ((c m).1.1); auto.
  - auto.
Qed.

Lemma obeys_bind {A B} n1 n2 (X : Exn -> Prop) (Q1 : A -> Prop) (Q2 : B -> Prop)
    (c : M A) (k : A -> M B) :
  obeys n1 X Q1 c -> (forall a, Q1 a -> obeys n2 X Q2 (k a)) ->
  obeys n1 X Q2 (c ≫= k).
Proof.
  intros Hc Hk m. specialize (Hc m). unfold mbind, M_bind.
  destruct (c m) as [[[a|e] m1] t1]; cbn [fst snd] in *.
  - destruct Hc as (E1 & R1 & [[A1 Ha]|[Hr _]]); [|discriminate].
    specialize (Hk a Ha m1). destruct (k a m1) as [[r m2] t2]. cbn [fst snd] in *.
    destruct Hk as (E2 & R2 & H2).
    split; [apply Forall_app; auto|]. split; [eapply moves_trans; eauto|].
    destruct H2 as [[A2 X2]|[Hr I2]].
    + left. split; [|exact X2].
      eapply advanced_weaken; [|eapply advanced_trans; eauto]. lia.
    + right. split; [exact Hr|]. eapply advanced_interrupted; eauto.
  - destruct Hc as (E1 & R1 & [[A1 Hx]|[Hr I1]]).
    + split; [exact E1|]. split; [exact R1|]. left. auto.
    + injection Hr as ->. split; [exact E1|]. split; [exact R1|]. right. auto.
Qed.

Lemma obeys_call {A} (X : Exn -> Prop) (Q : A -> Prop) (ev : Event)
    (f : World -> World * PyResult A) :
  loop_event target_dir printed_dir ev ->
  (forall w, moves w (f w).1) ->
  (forall w, match (f w).2 with Ok a => Q a | Raise e => X e end) ->
  obeys 1 X Q (call ev f).
Proof.
  intros Hev Hf HX m. unfold call. case_bool_decide as Hs.
  - cbn. split; [constructor|]. split; [apply moves_refl|]. right.
    split; [reflexivity|]. split; [reflexivity|]. eauto.
  - specialize (Hf (world m)). specialize (HX (world m)).
    destruct (f (world m)) as [w r]. cbn [fst snd] in *.
    split; [repeat constructor; exact Hev|]. split; [exact Hf|]. left.
    split; [|exact HX]. split; [reflexivity|]. cbn [ticks sigint world].
    split; [lia|].
    intros k Hk Hle. rewrite Hk in Hs.
    assert (ticks m <> k) by congruence. lia.
Qed.

Lemma obeys_try_except {A} n (X1 X2 : Exn -> Prop) (Q : A -> Prop) (body : M A)
    (handler : Exn -> option (M A)) :
  obeys n X1 Q body ->
  handler KeyboardInterrupt = None ->
  (forall e, X1 e ->
     match handler e with Some h => obeys 0 X2 Q h | None => X2 e end) ->
  obeys n X2 Q (try_except body handler).
Proof.
  intros Hb Hki Hh m. specialize (Hb m). unfold try_except.
  destruct (body m) as [[[a|e] m1] t1]; cbn [fst snd] in *.
  - destruct Hb as (E1 & R1 & [[A1 Ha]|[Hr _]]); [|discriminate].
    split; [exact E1|]. split; [exact R1|]. left. auto.
  - destruct Hb as (E1 & R1 & [[A1 Hx]|[Hr I1]]).
    + specialize (Hh e Hx). destruct (handler e) as [h|].
      * specialize (Hh m1). destruct (h m1) as [[r m2] t2]. cbn [fst snd] in *.
        destruct Hh as (E2 & R2 & H2).
        split; [apply Forall_app; auto|]. split; [eapply moves_trans; eauto|].
        destruct H2 as [[A2 X2']|[Hr I2]].
        -- left. split; [|exact X2'].
           eapply advanced_weaken; [|eapply advanced_trans; eauto]. lia.
        -- right. split; [exact Hr|]. eapply advanced_interrupted; eauto.
      * cbn [fst snd]. split; [exact E1|]. split; [exact R1|]. left. auto.
    + injection Hr as ->. rewrite Hki. cbn [fst snd].
      split; [exact E1|]. split; [exact R1|]. right. auto.
Qed.

Lemma obeys_for_each {A} (X : Exn -> Prop) (l : list A) (body : A -> M unit) :
  (forall x, x ∈ l -> obeys 0 X any (body x)) -> obeys 0 X any (for_each l body).
Proof.
  induction l as [|x l IH]; intros H; cbn [for_each].
  - apply obeys_ret. exact I.
  - apply (obeys_bind 0 0 X any).
    + apply H. left.
    + intros _ _. apply IH. intros y Hy. apply H. right. exact Hy.
Qed.

(** *** The calls of the loop *)

Lemma obeys_print to text : obeys 1 no_exn any (print to text).
Proof. apply obeys_call; [exact I | intros; apply moves_refl | intros; exact I]. Qed.

Lemma obeys_time_sleep n : obeys 1 no_exn any (time_sleep n).
Proof. apply obeys_call; [exact I | intros; apply moves_refl | intros; exact I]. Qed.

Lemma obeys_exists path : obeys 1 no_exn any (os_path_exists path).
Proof. apply obeys_call; [exact I | intros; apply moves_refl | intros; exact I]. Qed.

Lemma obeys_isfile path : obeys 1 no_exn any (os_path_isfile path).
Proof. apply obeys_call; [exact I | intros; apply moves_refl | intros; exact I]. Qed.

Lemma os_result_os_error {A} (r : OSResult A) :
  match os_result r with Ok a => any a | Raise e => os_error e end.
Proof. destruct r; reflexivity. Qed.

Lemma obeys_getmtime path : obeys 1 os_error any (os_path_getmtime path).
Proof.
  apply obeys_call; [exact I | intros; apply moves_refl |].
  intros w. cbn. destruct (entry_at w path); [apply os_result_os_error | reflexivity].
Qed.

Lemma obeys_listdir : obeys 1 os_error any (os_listdir target_dir).
Proof.
  apply obeys_call; [reflexivity | intros; apply moves_refl |].
  intros w. cbn. destruct (listdir_error w) as [[kind msg]|]; [reflexivity|].
  destruct (String.eqb target_dir (watched w)); reflexivity.
Qed.

Lemma obeys_rename_self path :
  is_image path = true -> obeys 1 os_error any (os_rename_self path).
Proof.
  intros Hi. apply obeys_call; [split; auto | intros; apply moves_refl |].
  intros w. cbn. destruct (entry_at w path); [apply os_result_os_error | reflexivity].
Qed.

Lemma obeys_move src dst :
  is_image src = true -> directly_in printed_dir dst ->
  obeys 1 os_error any (shutil_move src dst).
Proof.
  intros Hi Hd. apply obeys_call; [split; assumption | |].
  - intros w. destruct (entry_at w src) as [e|]; [|apply moves_refl].
    destruct (e_move e); [apply moves_one; exact Hi | apply moves_refl].
  - intros w. destruct (entry_at w src) as [e|]; [|reflexivity].
    destruct (e_move e); reflexivity.
Qed.
End Obeys.

Section LoopObeys.
Variables target_dir printed_dir : string.
Local Abbreviation obeys := (obeys target_dir printed_dir).

Lemma obeys_read_directory names acc :
  obeys 0 no_exn any (read_directory target_dir names acc).
Proof.
  revert acc. induction names as [|f rest IH]; intros acc; cbn [read_directory].
  - apply obeys_ret. exact I.
  - apply (obeys_bind _ _ 0 0 no_exn any); [|intros; apply IH].
    apply (obeys_try_except _ _ 0 os_error).
    + apply (obeys_bind _ _ 0 0 os_error any).
      * eapply obeys_weaken; [| | |apply obeys_isfile]; [lia | intros e [] | auto].
      * intros [] _.
        -- apply (obeys_bind _ _ 0 0 os_error any).
           ++ eapply obeys_weaken; [| | |apply obeys_getmtime]; [lia | auto | auto].
           ++ intros; apply obeys_ret; exact I.
        -- apply obeys_ret; exact I.
    + reflexivity.
    + intros e He. unfold os_error in He. rewrite He. apply obeys_ret. exact I.
Qed.

Local Abbreviation in_printed := (in_printed printed_dir).

Lemma obeys_find_free fuel base ext counter dest_path :
  "/"%char ∉ Str.to_list base -> "/"%char ∉ Str.to_list ext ->
  directly_in printed_dir dest_path ->
  obeys 0 no_exn in_printed (find_free fuel printed_dir base ext counter dest_path).
Proof.
  intros Hb He. revert counter dest_path.
  induction fuel as [|fuel IH]; intros counter dest_path Hd; cbn [find_free].
  - apply obeys_ret. intros dest [=].
  - apply (obeys_bind _ _ 0 0 no_exn any).
    + eapply obeys_weaken; [| | |apply obeys_exists]; [lia | auto | auto].
    + intros [] _.
      * apply IH. eexists. split; [|reflexivity].
        apply numbered_name_plain; assumption.
      * apply obeys_ret. intros dest [= <-]. exact Hd.
Qed.

Lemma obeys_get_world : obeys 0 no_exn any get_world.
Proof.
  intros m. cbn. split; [constructor|]. split; [apply moves_refl|]. left.
  split; [|exact I]. split; [reflexivity|]. split; [lia | auto].
Qed.

Lemma obeys_unique_destination basename :
  "/"%char ∉ Str.to_list basename ->
  obeys 0 no_exn in_printed (unique_destination printed_dir basename).
Proof.
  intros Hplain. destruct (splitext_plain basename Hplain) as [Hb He].
  unfold unique_destination.
  destruct (os_path.splitext basename) as [base ext].
  apply (obeys_bind _ _ 0 0 no_exn any); [apply obeys_get_world|]. intros w _.
  apply obeys_find_free; [exact Hb | exact He |].
  exists basename. split; [exact Hplain | reflexivity].
Qed.

Lemma obeys_print0 X to text : obeys 0 X any (print to text).
Proof.
  eapply obeys_weaken; [| | |apply obeys_print]; [lia | intros e [] | auto].
Qed.

Lemma obeys_process_file file_path :
  is_image file_path = true ->
  obeys 0 no_exn any (process_file printed_dir file_path).
Proof.
  intros Hi. unfold process_file.
  apply (obeys_bind _ _ 0 0 no_exn any).
  - apply (obeys_try_except _ _ 0 os_error).
    + apply (obeys_bind _ _ 0 0 os_error any).
      * eapply obeys_weaken; [| | |apply obeys_rename_self]; [lia | auto | auto | exact Hi].
      * intros; apply obeys_ret; exact I.
    + reflexivity.
    + intros e He. unfold os_error in He.
      destruct e as [| | | | |kind msg|]; try discriminate He.
      destruct kind; cbn.
      * apply (obeys_bind _ _ 0 0 no_exn any); [apply obeys_print0|].
        intros; apply obeys_ret; exact I.
      * apply (obeys_bind _ _ 0 0 no_exn any); [apply obeys_print0|].
        intros; apply obeys_ret; exact I.
      * apply (obeys_bind _ _ 0 0 no_exn any); [apply obeys_print0|].
        intros; apply obeys_ret; exact I.
  - intros [in_use|] _; [|apply obeys_ret; exact I].
    apply (obeys_bind _ _ 0 0 no_exn any);
      [|intros; eapply obeys_weaken; [| | |apply obeys_time_sleep]; [lia|auto|auto]].
    destruct in_use; cbn [negb]; [apply obeys_ret; exact I|].
    apply (obeys_bind _ _ 0 0 no_exn any); [apply obeys_print0|]. intros _ _.
    apply (obeys_bind _ _ 0 0 no_exn in_printed);
      [apply obeys_unique_destination, basename_no_sep|].
    intros [dest|] Hd; [|apply obeys_ret; exact I].
    specialize (Hd dest eq_refl).
    apply (obeys_try_except _ _ 0 os_error).
    + apply (obeys_bind _ _ 0 0 os_error any).
      * eapply obeys_weaken; [| | |apply obeys_move]; [lia | auto | auto | exact Hi | exact Hd].
      * intros; apply obeys_print0.
    + reflexivity.
    + intros e He. unfold os_error in He.
      destruct e; try discriminate He. cbn. apply obeys_print0.
Qed.

Lemma select_images_is_image l f : f ∈ select_images l -> is_image f = true.
Proof. unfold select_images. intros H. apply list_elem_of_filter in H. tauto. Qed.

Lemma obeys_poll : obeys 1 no_exn any (poll target_dir printed_dir).
Proof.
  unfold poll. apply (obeys_bind _ _ 1 0 no_exn any).
  - apply (obeys_try_except _ _ 1 os_error).
    + apply (obeys_bind _ _ 1 0 os_error any); [apply obeys_listdir|].
      intros names _. apply (obeys_bind _ _ 0 0 os_error any).
      * eapply obeys_weaken; [| | |apply obeys_read_directory]; [lia | intros e [] | auto].
      * intros; apply obeys_ret; exact I.
    + reflexivity.
    + intros e He. unfold os_error in He.
      destruct e; try discriminate He. cbn.
      apply (obeys_bind _ _ 0 0 no_exn any); [apply obeys_print0|]. intros _ _.
      apply (obeys_bind _ _ 0 0 no_exn any);
        [eapply obeys_weaken; [| | |apply obeys_time_sleep]; [lia|auto|auto]|].
      intros; apply obeys_ret; exact I.
  - intros [files|] _; [|apply obeys_ret; exact I].
    apply (obeys_bind _ _ 0 0 no_exn any).
    + case_bool_decide; [apply obeys_ret; exact I | apply obeys_print0].
    + intros _ _. apply (obeys_bind _ _ 0 0 no_exn any).
      * apply obeys_for_each. intros f Hf. apply obeys_process_file.
        eapply select_images_is_image; eauto.
      * intros; eapply obeys_weaken; [| | |apply obeys_time_sleep]; [lia|auto|auto].
Qed.
End LoopObeys.

(** ** Running the model on a machine without Ctrl-C *)

Lemma call_run {A} (ev : Event) (f : World -> World * PyResult A) w n :
  call ev f (quiet w n) = ((f w).2, quiet (f w).1 (S n), [ev]).
Proof.
  unfold call, quiet. cbn [sigint ticks world].
  case_bool_decide; [discriminate|]. destruct (f w); reflexivity.
Qed.

Lemma bind_run {A B} (c : M A) (k : A -> M B) m a m1 t1 :
  c m = (Ok a, m1, t1) ->
  (c ≫= k) m = ((k a m1).1.1, (k a m1).1.2, t1 ++ (k a m1).2).
Proof.
  intros H. unfold mbind, M_bind. rewrite H.
  destruct (k a m1) as [[r m2] t2]. reflexivity.
Qed.

Lemma bind_raise {A B} (c : M A) (k : A -> M B) m e m1 t1 :
  c m = (Raise e, m1, t1) -> (c ≫= k) m = (Raise e, m1, t1).
Proof. intros H. unfold mbind, M_bind. rewrite H. reflexivity. Qed.

Ltac run :=
  repeat (progress (unfold mbind, M_bind, mret, M_ret;
                    try rewrite !call_run; cbn [fst snd])).

Lemma probes_app t1 t2 : probes (t1 ++ t2) = probes t1 ++ probes t2.
Proof. unfold probes. apply omap_app. Qed.

Lemma read_directory_run target_dir names acc w n :
  exists n' t,
    read_directory target_dir names acc (quiet w n)
    = (Ok (acc ++ omap (fun f => stat_entry w (os_path.join target_dir f)) names),
       quiet w n', t) /\ probes t = [].
Proof.
  revert acc n. induction names as [|f rest IH]; intros acc n.
  - exists n, []. cbn. rewrite app_nil_r. auto.
  - cbn [read_directory omap list_omap].
    set (step := try_except _ _).
    assert (Hstep : exists n1 t1,
      step (quiet w n)
      = (Ok (acc ++ option_list (stat_entry w (os_path.join target_dir f))),
         quiet w n1, t1) /\ probes t1 = []).
    { unfold step, try_except, os_path_isfile, os_path_getmtime, stat_entry.
      run. destruct (entry_at w (os_path.join target_dir f)) as [e|] eqn:He.
      - destruct (e_isfile e).
        + run. rewrite He. destruct (e_getmtime e) as [mtime|kind msg]; cbn;
            rewrite ?app_nil_r; do 2 eexists; split; reflexivity.
        + cbn. rewrite app_nil_r. do 2 eexists; split; reflexivity.
      - case_bool_decide; run; rewrite ?He; cbn; rewrite app_nil_r;
          do 2 eexists; split; reflexivity. }
    destruct Hstep as (n1 & t1 & Hs & Hp1).
    destruct (IH (acc ++ option_list (stat_entry w (os_path.join target_dir f))) n1)
      as (n2 & t2 & Hr & Hp2).
    exists n2, (t1 ++ t2). split.
    + rewrite (bind_run _ _ _ _ _ _ Hs), Hr. cbn [fst snd].
      rewrite <- app_assoc. destruct (stat_entry w _); reflexivity.
    + rewrite probes_app, Hp1, Hp2. reflexivity.
Qed.

(** ** The naming rule *)

Lemma find_free_run fuel printed_dir base ext counter dest w n :
  exists checks,
    find_free fuel printed_dir base ext counter dest (quiet w n)
    = (Ok (first_free (path_taken w) fuel printed_dir base ext counter dest),
       quiet w (n + length checks), map Ev_exists checks).
Proof.
  revert counter dest n. induction fuel as [|fuel IH]; intros counter dest n.
  - exists []. cbn. rewrite Nat.add_0_r. reflexivity.
  - cbn [find_free first_free]. unfold os_path_exists. run.
    fold (path_taken w dest). destruct (path_taken w dest).
    + destruct (IH (S counter)
        (os_path.join printed_dir (base +:+ "_" +:+ pretty counter +:+ ext)) (S n))
        as [checks ->].
      exists (dest :: checks). cbn [fst snd length map].
      replace (S n + length checks) with (n + S (length checks)) by lia. reflexivity.
    + exists [dest]. cbn. replace (n + 1) with (S n) by lia. reflexivity.
Qed.

Lemma unique_destination_run printed_dir basename w n :
  exists checks,
    unique_destination printed_dir basename (quiet w n)
    = (Ok (first_free (path_taken w) (S (size (nodes w) + length (entries w)))
             printed_dir (os_path.splitext basename).1 (os_path.splitext basename).2
             1 (os_path.join printed_dir basename)),
       quiet w (n + length checks), map Ev_exists checks).
Proof.
  unfold unique_destination. destruct (os_path.splitext basename) as [base ext].
  unfold get_world. run. cbn [world quiet].
  destruct (find_free_run (S (size (nodes w) + length (entries w))) printed_dir
              base ext 1 (os_path.join printed_dir basename) w n) as [checks ->].
  exists checks. reflexivity.
Qed.

Section Candidates.
Variables (printed_dir basename : string).
Hypothesis basename_plain : "/"%char ∉ Str.to_list basename.

Local Abbreviation base := (os_path.splitext basename).1.
Local Abbreviation ext := (os_path.splitext basename).2.
Local Abbreviation cand := (candidate printed_dir base ext basename).
Local Abbreviation cand_name := (cand_name base ext basename).

Lemma base_ext : base +:+ ext = basename.
Proof.
  apply splitext_app. destruct (os_path.splitext basename); reflexivity.
Qed.

Lemma cand_name_relative k : relative (cand_name k).
Proof.
  destruct k as [|k]; cbn [cand_name]; [apply relative_no_sep, basename_plain|].
  pose proof (relative_no_sep _ basename_plain) as Hr. rewrite <- base_ext in Hr.
  destruct base as [|c b]; [exact I | exact Hr].
Qed.

Lemma cand_eq k : cand k = join_prefix printed_dir +:+ cand_name k.
Proof.
  rewrite <- join_relative by apply cand_name_relative.
  destruct k; reflexivity.
Qed.

Lemma cand_name_inj j k : cand_name j = cand_name k -> j = k.
Proof.
  assert (Hne : forall n, cand_name 0 <> cand_name (S n)).
  { intros n H. cbn [cand_name] in H. rewrite <- base_ext in H at 1.
    apply String.app_inj in H. apply (f_equal String.length) in H.
    rewrite <- !length_to_list, !to_list_app, !length_app in H. cbn in H. lia. }
  destruct j as [|j], k as [|k]; intros H.
  - reflexivity.
  - destruct (Hne k H).
  - destruct (Hne j (eq_sym H)).
  - cbn [cand_name] in H. apply String.app_inj in H. apply String.app_inj in H.
    apply append_inv_tail in H. apply (inj pretty) in H. exact H.
Qed.

Lemma cand_inj j k : cand j = cand k -> j = k.
Proof.
  rewrite !cand_eq. intros H. apply String.app_inj in H. apply cand_name_inj, H.
Qed.

Lemma first_free_least taken fuel j k :
  (forall i, j <= i < k -> taken (cand i) = true) ->
  taken (cand k) = false -> j <= k < j + fuel ->
  first_free taken fuel printed_dir base ext (S j) (cand j) = Some (cand k).
Proof.
  revert j. induction fuel as [|fuel IH]; intros j Ht Hf Hk; [lia|].
  cbn [first_free]. destruct (decide (j = k)) as [->|Hne].
  - rewrite Hf. reflexivity.
  - rewrite Ht by lia. apply (IH (S j)); [intros; apply Ht; lia | exact Hf | lia].
Qed.

Lemma taken_paths_length w :
  length (taken_paths w) = size (nodes w) + length (entries w).
Proof.
  unfold taken_paths. rewrite length_app, !length_map, length_map_to_list. reflexivity.
Qed.

Lemma path_taken_elem w p : path_taken w p = true -> p ∈ taken_paths w.
Proof.
  unfold path_taken, taken_paths. intros H. apply elem_of_app.
  apply orb_true_iff in H as [H|H]; apply bool_decide_eq_true in H as [x Hx].
  - left. apply list_elem_of_fmap. exists (p, x). split; [reflexivity|].
    apply elem_of_map_to_list. exact Hx.
  - right. unfold entry_at in Hx. apply find_some in Hx as [Hin Heq].
    apply String.eqb_eq in Heq. apply list_elem_of_fmap. exists x.
    split; [auto|]. apply list_elem_of_In. exact Hin.
Qed.

(** Some candidate among the first [size + 1] is free, and the first
    free one is found by a bounded search. *)
Lemma least_free_or_all taken N :
  (forall k, k < N -> taken (cand k) = true) \/
  (exists k, k < N /\ taken (cand k) = false /\
             forall i, i < k -> taken (cand i) = true).
Proof.
  induction N as [|N [IH|IH]].
  - left. intros k Hk. lia.
  - destruct (taken (cand N)) eqn:E.
    + left. intros k Hk. destruct (decide (k = N)) as [->|]; [exact E|].
      apply IH. lia.
    + right. exists N. split; [lia|]. split; [exact E|]. intros; apply IH; lia.
  - right. destruct IH as (k & Hk & Hf & Hl). exists k. split; [lia|]. auto.
Qed.

Lemma free_candidate w :
  exists k, k <= size (nodes w) + length (entries w) /\
    path_taken w (cand k) = false /\
    forall i, i < k -> path_taken w (cand i) = true.
Proof.
  set (n := size (nodes w) + length (entries w)).
  destruct (least_free_or_all (path_taken w) (S n)) as [Hall|(k & Hk & Hf & Hl)].
  - exfalso.
    assert (Hnd : NoDup (map (fun k => cand k) (seq 0 (S n)))).
    { apply NoDup_fmap_2_strong; [|apply NoDup_seq].
      intros x y _ _ H. apply cand_inj, H. }
    assert (Hincl : map (fun k => cand k) (seq 0 (S n)) ⊆ taken_paths w).
    { intros p Hp. apply list_elem_of_fmap in Hp as (k & -> & Hk).
      apply elem_of_seq in Hk. apply path_taken_elem, Hall. lia. }
    pose proof (submseteq_length _ _ (NoDup_submseteq _ _ Hnd (fun x Hx => Hincl x Hx))) as Hlen.
    rewrite length_map, length_seq, taken_paths_length in Hlen. fold n in Hlen. lia.
  - exists k. split; [lia|]. auto.
Qed.

Lemma resolve_eq w :
  exists k, resolve w printed_dir basename = Some (cand k) /\
    path_taken w (cand k) = false /\
    forall i, i < k -> path_taken w (cand i) = true.
Proof.
  destruct (free_candidate w) as (k & Hk & Hf & Hl). exists k.
  split; [|auto]. unfold resolve.
  destruct (unique_destination_run printed_dir basename w 0) as [checks ->].
  cbn [fst snd]. fold base ext.
  change (os_path.join printed_dir basename) with (cand 0).
  apply first_free_least; [intros; apply Hl; lia | exact Hf | lia].
Qed.
End Candidates.

Lemma entry_at_materialize dest w p : entry_at (materialize dest w) p = entry_at w p.
Proof. reflexivity. Qed.

Lemma path_taken_materialize dest w p :
  path_taken (materialize dest w) p = path_taken w p || bool_decide (p = dest).
Proof.
  unfold path_taken. rewrite entry_at_materialize. cbn [materialize set_nodes nodes].
  destruct (decide (p = dest)) as [->|Hne].
  - rewrite lookup_insert_eq, (bool_decide_eq_true_2 (dest = dest)) by reflexivity.
    rewrite (bool_decide_eq_true_2 (is_Some (Some RegularFile))) by eauto.
    cbn. rewrite !orb_true_r. reflexivity.
  - rewrite lookup_insert_ne by congruence.
    rewrite (bool_decide_eq_false_2 (p = dest)) by exact Hne.
    rewrite orb_false_r. reflexivity.
Qed.

Section NamingRule.
Variables (printed_dir basename : string).
Hypothesis basename_plain : "/"%char ∉ Str.to_list basename.
Local Abbreviation base := (os_path.splitext basename).1.
Local Abbreviation ext := (os_path.splitext basename).2.
Local Abbreviation cand := (candidate printed_dir base ext basename).

Lemma resolve_n_fresh N w :
  length (resolve_n N w printed_dir basename) = N /\
  NoDup (resolve_n N w printed_dir basename) /\
  Forall (fun d => path_taken w d = false) (resolve_n N w printed_dir basename).
Proof.
  revert w. induction N as [|N IH]; intros w; cbn [resolve_n].
  - split; [reflexivity|]. split; constructor.
  - destruct (resolve_eq printed_dir basename basename_plain w) as (k & -> & Hf & _).
    destruct (IH (materialize (cand k) w)) as (Hlen & Hnd & Hall).
    assert (Hall' : Forall (fun d => path_taken w d = false /\ d <> cand k)
                      (resolve_n N (materialize (cand k) w) printed_dir basename)).
    { eapply Forall_impl; [exact Hall|]. intros d Hd. cbn beta in Hd.
      rewrite path_taken_materialize in Hd. apply orb_false_iff in Hd as [H1 H2].
      split; [exact H1|]. apply bool_decide_eq_false in H2. exact H2. }
    split; [cbn; congruence|]. split.
    + constructor; [|exact Hnd]. intros Hin.
      rewrite Forall_forall in Hall'. destruct (Hall' _ Hin) as [_ Hne]. congruence.
    + constructor; [exact Hf|]. eapply Forall_impl; [exact Hall'|]. intros d [H _]. exact H.
Qed.

Lemma resolve_n_sequence N j w :
  (forall i, i < j -> path_taken w (cand i) = true) ->
  (forall i, j <= i < j + N -> path_taken w (cand i) = false) ->
  resolve_n N w printed_dir basename = map (fun k => cand k) (seq j N).
Proof.
  revert j w. induction N as [|N IH]; intros j w Ht Hf; [reflexivity|].
  cbn [resolve_n seq map].
  destruct (resolve_eq printed_dir basename basename_plain w) as (k & -> & Hk & Hl).
  assert (k = j) as ->.
  { destruct (Nat.lt_trichotomy k j) as [H|[H|H]]; [|exact H|].
    - rewrite Ht in Hk by exact H. discriminate.
    - specialize (Hl j H). rewrite Hf in Hl by lia. discriminate. }
  f_equal. apply (IH (S j)).
  - intros i Hi. rewrite path_taken_materialize.
    destruct (decide (i = j)) as [->|Hne].
    + rewrite (bool_decide_eq_true_2 _ eq_refl). apply orb_true_r.
    + rewrite Ht by lia. reflexivity.
  - intros i Hi. rewrite path_taken_materialize, Hf by lia.
    apply bool_decide_eq_false_2. intros H.
    apply (cand_inj printed_dir basename basename_plain) in H. lia.
Qed.
End NamingRule.

(** ** Processing one file *)

Lemma process_file_available printed_dir file_path w n e :
  entry_at w file_path = Some e -> e_rename e = OSOk tt ->
  exists dest checks,
    resolve w printed_dir (os_path.basename file_path) = Some dest /\
    process_file printed_dir file_path (quiet w n)
    = (Ok tt, quiet (after_move file_path dest (e_move e) w) (n + length checks + 5),
       available_trace file_path dest checks (e_move e)).
Proof.
  intros He Hr.
  destruct (resolve_eq printed_dir (os_path.basename file_path)
              (basename_no_sep file_path) w) as (k & Hres & _ & _).
  destruct (unique_destination_run printed_dir (os_path.basename file_path) w (S (S n)))
    as [checks Hu].
  assert (Hd : first_free (path_taken w) (S (size (nodes w) + length (entries w)))
                 printed_dir (os_path.splitext (os_path.basename file_path)).1
                 (os_path.splitext (os_path.basename file_path)).2 1
                 (os_path.join printed_dir (os_path.basename file_path))
               = resolve w printed_dir (os_path.basename file_path)).
  { unfold resolve.
    destruct (unique_destination_run printed_dir (os_path.basename file_path) w 0)
      as [checks' ->]. reflexivity. }
  rewrite Hd, Hres in Hu.
  exists (candidate printed_dir (os_path.splitext (os_path.basename file_path)).1
            (os_path.splitext (os_path.basename file_path)).2
            (os_path.basename file_path) k), checks.
  split; [exact Hres|].
  unfold process_file, try_except, os_rename_self. run. rewrite He, Hr. cbn [os_result].
  run. cbn [negb]. unfold print at 1. run.
  fold (quiet w (S (S n))). rewrite Hu. cbn [fst snd].
  unfold try_except, shutil_move. run. rewrite He.
  unfold available_trace, after_move, move_report.
  destruct (e_move e) as [[]|kind msg]; cbn [fst snd].
  - unfold print, time_sleep. run.
    replace (n + length checks + 5) with (S (S (S (S (S (n + length checks))))))
      by lia.
    cbn. rewrite <- ?app_assoc. reflexivity.
  - cbn. unfold print, time_sleep. run.
    replace (n + length checks + 5) with (S (S (S (S (S (n + length checks))))))
      by lia.
    cbn. rewrite <- ?app_assoc. reflexivity.
Qed.

Lemma process_file_skipped printed_dir file_path w n kind msg :
  probe_result w file_path = OSFail kind msg ->
  process_file printed_dir file_path (quiet w n)
  = (Ok tt, quiet w (n + length (skip_trace file_path kind msg)),
     skip_trace file_path kind msg).
Proof.
  intros Hp. unfold process_file, try_except, os_rename_self. run.
  assert (E : match entry_at w file_path with
              | Some e => os_result (e_rename e)
              | None => Raise (OSError FileNotFoundErr file_path)
              end = Raise (OSError kind msg)).
  { unfold probe_result in Hp. destruct (entry_at w file_path) as [e|].
    - rewrite Hp. reflexivity.
    - injection Hp as <- <-. reflexivity. }
  rewrite E. unfold skip_trace.
  destruct kind; cbn; unfold print, time_sleep; run; cbn; run; cbn;
    repeat f_equal; lia.
Qed.

Lemma probes_exists checks : probes (map Ev_exists checks) = [].
Proof. induction checks; [reflexivity | exact IHchecks]. Qed.

Lemma probes_available file_path dest checks r :
  probes (available_trace file_path dest checks r) = [file_path].
Proof.
  unfold available_trace. rewrite !probes_app, probes_exists.
  destruct r; reflexivity.
Qed.

Lemma process_file_probes printed_dir file_path w n :
  exists w' n' t,
    process_file printed_dir file_path (quiet w n) = (Ok tt, quiet w' n', t) /\
    probes t = [file_path].
Proof.
  destruct (probe_result w file_path) as [[]|kind msg] eqn:Hp.
  - unfold probe_result in Hp. destruct (entry_at w file_path) as [e|] eqn:He;
      [|discriminate].
    destruct (process_file_available printed_dir file_path w n e He Hp)
      as (dest & checks & _ & ->).
    do 3 eexists. split; [reflexivity | apply probes_available].
  - rewrite (process_file_skipped _ _ _ _ _ _ Hp).
    do 3 eexists. split; [reflexivity|]. destruct kind; reflexivity.
Qed.

Lemma for_each_probes printed_dir l w n :
  exists w' n' t,
    for_each l (process_file printed_dir) (quiet w n) = (Ok tt, quiet w' n', t) /\
    probes t = l.
Proof.
  revert w n. induction l as [|f l IH]; intros w n; cbn [for_each].
  - exists w, n, []. split; reflexivity.
  - destruct (process_file_probes printed_dir f w n) as (w1 & n1 & t1 & H1 & P1).
    destruct (IH w1 n1) as (w2 & n2 & t2 & H2 & P2).
    exists w2, n2, (t1 ++ t2). split.
    + rewrite (bind_run _ _ _ _ _ _ H1), H2. reflexivity.
    + rewrite probes_app, P1, P2. reflexivity.
Qed.

Lemma poll_listdir_failure target_dir printed_dir w n kind msg :
  listdir_error w = Some (kind, msg) ->
  poll target_dir printed_dir (quiet w n)
  = (Ok tt, quiet w (n + 3),
     [Ev_listdir target_dir;
      Ev_print stderr ("Error reading directory '" +:+ target_dir +:+ "': " +:+ msg);
      Ev_sleep 5]).
Proof.
  intros H. unfold poll, try_except, os_listdir. run. rewrite H. cbn.
  unfold print, time_sleep. run. cbn. repeat f_equal. lia.
Qed.

Lemma listing_run target_dir w n (handler : Exn -> option (M (option (list (string * Q))))) :
  listdir_error w = None -> watched w = target_dir ->
  exists n1 t1,
    try_except
      (names ← os_listdir target_dir;
       l ← read_directory target_dir names [];
       mret (Some l)) handler (quiet w n)
    = (Ok (Some (files_with_mtime_of w target_dir)), quiet w n1, t1) /\
    probes t1 = [].
Proof.
  intros Hl Hw. unfold try_except, os_listdir. run. rewrite Hl, Hw.
  rewrite String.eqb_refl.
  destruct (read_directory_run target_dir (map e_name (entries w)) [] w (S n))
    as (n1 & t1 & Hr & P1).
  rewrite Hr. cbn [fst snd app]. do 2 eexists. split; [reflexivity|].
  change (probes ([] ++ Ev_listdir target_dir :: t1 ++ []) = []).
  rewrite app_nil_r. exact P1.
Qed.

Lemma poll_run target_dir printed_dir w n :
  listdir_error w = None -> watched w = target_dir ->
  exists w' n' t,
    poll target_dir printed_dir (quiet w n) = (Ok tt, quiet w' n', t) /\
    probes t = select_images (files_with_mtime_of w target_dir).
Proof.
  intros Hl Hw. unfold poll.
  destruct (listing_run target_dir w n
    (fun e =>
       if isinstance_Exception e
       then Some (print stderr ("Error reading directory '" +:+ target_dir
                                +:+ "': " +:+ exn_text e);;
                  time_sleep 5;; mret None)
       else None) Hl Hw) as (n1 & t1 & H1 & P1).
  rewrite (bind_run _ _ _ _ _ _ H1).
  set (image_files := select_images (files_with_mtime_of w target_dir)).
  assert (Hfound : exists n2 t2,
    (if bool_decide (image_files = []) then mret tt
     else print stdout ("Found " +:+ pretty (length image_files)
                        +:+ " image(s) to process...")) (quiet w n1)
    = (Ok tt, quiet w n2, t2) /\ probes t2 = []).
  { case_bool_decide.
    - exists n1, []. split; reflexivity.
    - unfold print. rewrite call_run. do 2 eexists. split; reflexivity. }
  destruct Hfound as (n2 & t2 & Hf & P2).
  rewrite (bind_run _ _ _ _ _ _ Hf).
  destruct (for_each_probes printed_dir image_files w n2) as (w3 & n3 & t3 & H3 & P3).
  rewrite (bind_run _ _ _ _ _ _ H3). unfold time_sleep. rewrite call_run.
  cbn [fst snd]. do 3 eexists. split; [reflexivity|].
  rewrite !probes_app, P1, P2, P3. cbn. apply app_nil_r.
Qed.

(** ** The sort by modification time *)

Lemma Qlt_bool_true x y : PIL.Qlt_bool x y = true <-> (x < y)%Q.
Proof.
  unfold PIL.Qlt_bool. rewrite negb_true_iff. split.
  - intros H. apply Qnot_le_lt. intros Hle. apply Qle_bool_iff in Hle. congruence.
  - intros H. apply not_true_iff_false. intros Hle. apply Qle_bool_iff in Hle. lra.
Qed.

Lemma Qlt_bool_false x y : PIL.Qlt_bool x y = false <-> (y <= x)%Q.
Proof. unfold PIL.Qlt_bool. rewrite negb_false_iff. apply Qle_bool_iff. Qed.

Lemma insert_by_mtime_perm x l : insert_by_mtime x l ≡ₚ x :: l.
Proof.
  induction l as [|y l IH]; cbn; [reflexivity|].
  destruct (PIL.Qlt_bool (snd y) (snd x)); [|reflexivity].
  rewrite IH. apply Permutation_swap.
Qed.

Lemma sort_by_mtime_perm l : sort_by_mtime l ≡ₚ l.
Proof.
  induction l as [|x l IH]; cbn; [reflexivity|].
  rewrite insert_by_mtime_perm, IH. reflexivity.
Qed.

Lemma insert_by_mtime_sorted x l :
  StronglySorted mtime_le l -> StronglySorted mtime_le (insert_by_mtime x l).
Proof.
  induction 1 as [|y l Hs IH Hall]; cbn.
  - repeat constructor.
  - destruct (PIL.Qlt_bool (snd y) (snd x)) eqn:E.
    + constructor; [exact IH|].
      rewrite insert_by_mtime_perm. constructor; [|exact Hall].
      apply Qlt_bool_true in E. unfold mtime_le. lra.
    + apply Qlt_bool_false in E. constructor; [constructor; assumption|].
      constructor; [exact E|].
      eapply Forall_impl; [exact Hall|]. intros z Hz. unfold mtime_le in *. lra.
Qed.

Lemma sort_by_mtime_sorted l : StronglySorted mtime_le (sort_by_mtime l).
Proof.
  induction l as [|x l IH]; cbn; [constructor|].
  apply insert_by_mtime_sorted, IH.
Qed.

Lemma insert_by_mtime_stable t x l :
  with_mtime t (insert_by_mtime x l) = with_mtime t (x :: l).
Proof.
  induction l as [|y l IH]; [reflexivity|]. cbn [insert_by_mtime].
  destruct (PIL.Qlt_bool (snd y) (snd x)) eqn:E; [|reflexivity].
  apply Qlt_bool_true in E. unfold with_mtime in *. cbn [List.filter] in *.
  rewrite IH. destruct (Qeq_bool (snd x) t) eqn:Ex; [|reflexivity].
  destruct (Qeq_bool (snd y) t) eqn:Ey; [|reflexivity].
  apply Qeq_bool_iff in Ex, Ey. lra.
Qed.

(** Stability: entries with equal modification times keep their order. *)
Lemma sort_by_mtime_stable t l : with_mtime t (sort_by_mtime l) = with_mtime t l.
Proof.
  induction l as [|x l IH]; [reflexivity|]. cbn [sort_by_mtime foldr].
  fold (sort_by_mtime l). rewrite insert_by_mtime_stable.
  unfold with_mtime in *. cbn [List.filter]. rewrite IH. reflexivity.
Qed.

Lemma sorted_before (l : list (string * Q)) x y :
  StronglySorted mtime_le l -> x ∈ l -> y ∈ l -> (snd x < snd y)%Q ->
  exists l1 l2 l3, l = l1 ++ x :: l2 ++ y :: l3.
Proof.
  intros Hs Hx Hy Hlt.
  apply list_elem_of_split in Hx as (l1 & r & ->).
  assert (Hr : y ∈ r).
  { apply elem_of_app in Hy as [Hy|Hy].
    - exfalso. induction l1 as [|z l1 IH]; [inversion Hy|].
      cbn in Hs. apply StronglySorted_inv in Hs as [Hs Hall].
      apply elem_of_cons in Hy as [->|Hy]; [|auto].
      rewrite Forall_forall in Hall.
      assert (Hle : mtime_le z x) by (apply Hall, elem_of_app; right; left).
      unfold mtime_le in Hle. lra.
    - apply elem_of_cons in Hy as [->|Hy]; [lra | exact Hy]. }
  apply list_elem_of_split in Hr as (l2 & l3 & ->). eauto.
Qed.

Lemma select_images_before (l : list (string * Q)) a ta b tb :
  (a, ta) ∈ l -> (b, tb) ∈ l -> (ta < tb)%Q ->
  is_image a = true -> is_image b = true ->
  exists l1 l2 l3, select_images l = l1 ++ a :: l2 ++ b :: l3.
Proof.
  intros Ha Hb Hlt Hia Hib.
  destruct (sorted_before (sort_by_mtime l) (a, ta) (b, tb)) as (l1 & l2 & l3 & E).
  - apply sort_by_mtime_sorted.
  - rewrite sort_by_mtime_perm. exact Ha.
  - rewrite sort_by_mtime_perm. exact Hb.
  - exact Hlt.
  - unfold select_images. rewrite E.
    rewrite map_app, map_cons, map_app, map_cons. cbn [fst].
    rewrite filter_app, filter_cons, filter_app, filter_cons.
    rewrite !decide_True by assumption.
    do 3 eexists. reflexivity.
Qed.

(** ** The loop *)

Lemma machine_eta m : m = mkMachine (world m) (ticks m) (sigint m).
Proof. destruct m; reflexivity. Qed.

Lemma interfere_run f m :
  interfere f m = (Ok tt, mkMachine (f (world m)) (ticks m) (sigint m), []).
Proof. reflexivity. Qed.

Lemma bind_trace_head {A B} (c : M A) (k : A -> M B) m ev t :
  (c m).2 = ev :: t -> exists t', ((c ≫= k) m).2 = ev :: t'.
Proof.
  unfold mbind, M_bind. destruct (c m) as [[[a|e] m1] t1]; cbn [snd]; intros ->.
  - destruct (k a m1) as [[r m2] t2]. cbn. eauto.
  - cbn. eauto.
Qed.

Lemma try_except_trace_head {A} (body : M A) handler m ev t :
  (body m).2 = ev :: t -> exists t', (try_except body handler m).2 = ev :: t'.
Proof.
  unfold try_except. destruct (body m) as [[[a|e] m1] t1]; cbn [snd]; intros ->.
  - cbn. eauto.
  - destruct (handler e) as [h|]; [|cbn; eauto].
    destruct (h m1) as [[r m2] t2]. cbn. eauto.
Qed.

(** Every turn starts by listing the target directory. *)
Lemma poll_lists_first target_dir printed_dir w n :
  exists t, (poll target_dir printed_dir (quiet w n)).2 = Ev_listdir target_dir :: t.
Proof.
  unfold poll.
  assert (H0 : (os_listdir target_dir (quiet w n)).2 = [Ev_listdir target_dir]).
  { unfold os_listdir. rewrite call_run. reflexivity. }
  eapply bind_trace_head in H0 as [t1 H1].
  eapply try_except_trace_head in H1 as [t2 H2].
  eapply bind_trace_head in H2 as [t3 H3].
  eexists. exact H3.
Qed.

(** One turn of the loop when no Ctrl-C is pending. *)
Lemma poll_quiet target_dir printed_dir w n :
  exists w' n' t,
    poll target_dir printed_dir (quiet w n) = (Ok tt, quiet w' n', t) /\
    n < n' /\ moves w w' /\ Forall (loop_event target_dir printed_dir) t.
Proof.
  destruct (obeys_poll target_dir printed_dir (quiet w n)) as (HE & HR & H).
  destruct (poll target_dir printed_dir (quiet w n)) as [[r m'] t]. cbn [fst snd] in *.
  destruct H as [[(Hs & Ht & _) Hr]|[_ (_ & k & Hk & _)]]; [|discriminate Hk].
  destruct r as [[]|e]; [|destruct Hr].
  exists (world m'), (ticks m'), t. cbn [quiet sigint ticks world] in *.
  split; [|split; [lia | auto]].
  rewrite (machine_eta m'), Hs at 1. reflexivity.
Qed.

(** Without Ctrl-C the loop outlives any number of turns. *)
Lemma while_true_quiet fuel k env target_dir printed_dir w n :
  exists w' n' t,
    while_true fuel k env (poll target_dir printed_dir) (quiet w n)
    = (Ok false, quiet w' n', t) /\
    Forall (loop_event target_dir printed_dir) t /\
    (0 < fuel -> exists t', t = Ev_listdir target_dir :: t').
Proof.
  revert k w n. induction fuel as [|fuel IH]; intros k w n; cbn [while_true].
  - exists w, n, []. split; [reflexivity|]. split; [constructor | lia].
  - rewrite (bind_run _ _ _ _ _ _ (interfere_run (env k) (quiet w n))).
    cbn [quiet world ticks sigint]. fold (quiet (env k w) n).
    destruct (poll_quiet target_dir printed_dir (env k w) n) as (w1 & n1 & t1 & H1 & _ & _ & E1).
    destruct (poll_lists_first target_dir printed_dir (env k w) n) as [t1' Hfirst].
    rewrite H1 in Hfirst. cbn [snd] in Hfirst. subst t1.
    rewrite (bind_run _ _ _ _ _ _ H1).
    destruct (IH (S k) w1 n1) as (w2 & n2 & t2 & H2 & E2 & _). rewrite H2.
    cbn [fst snd app]. do 3 eexists. split; [reflexivity|].
    split; [|eauto].
    change (Forall (loop_event target_dir printed_dir)
              ((Ev_listdir target_dir :: t1') ++ t2)).
    apply Forall_app; split; [exact E1 | exact E2].
Qed.

(** Whatever the machine, the loop produces loop events only. *)
Lemma while_true_events fuel k env target_dir printed_dir m :
  Forall (loop_event target_dir printed_dir)
    (while_true fuel k env (poll target_dir printed_dir) m).2.
Proof.
  revert k m. induction fuel as [|fuel IH]; intros k m; cbn [while_true].
  - constructor.
  - rewrite (bind_run _ _ _ _ _ _ (interfere_run (env k) m)). cbn [fst snd app].
    set (m0 := mkMachine (env k (world m)) (ticks m) (sigint m)).
    destruct (obeys_poll target_dir printed_dir m0) as (HE & _).
    unfold mbind, M_bind.
    destruct (poll target_dir printed_dir m0) as [[[[]|e] m1] t1]; cbn [fst snd] in *.
    + specialize (IH (S k) m1).
      destruct (while_true fuel (S k) env (poll target_dir printed_dir) m1)
        as [[r m2] t2]. cbn [fst snd] in *. apply Forall_app. auto.
    + exact HE.
Qed.

(** A pending Ctrl-C stops the loop within as many turns as calls are
    left before it. *)
Lemma while_true_interrupt fuel k env target_dir printed_dir m c :
  sigint m = Some c -> ticks m <= c < ticks m + fuel ->
  exists m' t,
    while_true fuel k env (poll target_dir printed_dir) m
    = (Raise KeyboardInterrupt, m', t) /\ sigint m' = None.
Proof.
  revert k m. induction fuel as [|fuel IH]; intros k m Hs Hc; [lia|].
  cbn [while_true].
  rewrite (bind_run _ _ _ _ _ _ (interfere_run (env k) m)). cbn [fst snd app].
  set (m0 := mkMachine (env k (world m)) (ticks m) (sigint m)).
  destruct (obeys_poll target_dir printed_dir m0) as (_ & _ & H).
  unfold mbind, M_bind.
  destruct (poll target_dir printed_dir m0) as [[r m1] t1]. cbn [fst snd] in *.
  destruct H as [[(Hs1 & Ht1 & Hk1) Hr]|[-> (Hn & _)]].
  - destruct r as [[]|e]; [|destruct Hr].
    cbn [m0 sigint ticks] in *.
    destruct (IH (S k) m1) as (m2 & t2 & -> & Hn2).
    + congruence.
    + specialize (Hk1 c Hs). lia.
    + do 2 eexists. split; [reflexivity | exact Hn2].
  - do 2 eexists. split; [reflexivity | exact Hn].
Qed.

Lemma call_pending {A} (ev : Event) (f : World -> World * PyResult A) m c :
  sigint m = Some c -> ticks m < c ->
  call ev f m = ((f (world m)).2, mkMachine (f (world m)).1 (S (ticks m)) (Some c), [ev]).
Proof.
  intros Hs Hc. unfold call. rewrite Hs.
  case_bool_decide as H; [injection H; lia|]. destruct (f (world m)); reflexivity.
Qed.

(** ** Start-up and exit *)

Lemma startup_no_argument args w n :
  length args < 2 ->
  startup args (quiet w n) = (Ok (inl 1%Z), quiet w (n + 2), usage_trace).
Proof.
  intros H. unfold startup. apply Nat.ltb_lt in H. rewrite H.
  unfold print. run. cbn. repeat f_equal. lia.
Qed.

Lemma startup_missing_path args w n :
  2 <= length args -> path_taken w (nth 1 args EmptyString) = false ->
  startup args (quiet w n)
  = (Ok (inl 1%Z), quiet w (n + 2),
     [Ev_exists (nth 1 args EmptyString);
      Ev_print stderr ("Error: Path '" +:+ nth 1 args EmptyString
                       +:+ "' does not exist.")]).
Proof.
  intros H Hp. unfold startup.
  assert (E : (length args <? 2) = false) by (apply Nat.ltb_ge; exact H).
  rewrite E. unfold os_path_exists. run. fold (path_taken w (nth 1 args EmptyString)).
  rewrite Hp. cbn [negb]. unfold print. run. cbn. repeat f_equal. lia.
Qed.

Lemma main_returns_early fuel env args m code m1 t1 :
  startup args m = (Ok (inl code), m1, t1) ->
  main fuel env args m = (Ok (Some code), m1, t1).
Proof.
  intros H. unfold main. rewrite (bind_run _ _ _ _ _ _ H). cbn.
  rewrite app_nil_r. reflexivity.
Qed.

Lemma startup_run args w n abs_path target_dir :
  2 <= length args ->
  path_taken w (nth 1 args EmptyString) = true ->
  abspath_of w (nth 1 args EmptyString) = Ok abs_path ->
  target_of w abs_path = Some target_dir ->
  makedirs_error w (os_path.join target_dir "printed") = None ->
  makedirs_error w (os_path.join target_dir "error") = None ->
  exists n',
    startup args (quiet w n)
    = (Ok (inr (target_dir, os_path.join target_dir "printed")),
       quiet (ensure_dir (os_path.join target_dir "error")
                (ensure_dir (os_path.join target_dir "printed") w)) n',
       startup_trace (nth 1 args EmptyString) abs_path target_dir w).
Proof.
  intros H Hp Ha Ht Hm1 Hm2. unfold startup.
  assert (E : (length args <? 2) = false) by (apply Nat.ltb_ge; exact H).
  rewrite E. unfold os_path_exists. run. fold (path_taken w (nth 1 args EmptyString)).
  rewrite Hp. cbn [negb]. unfold try_except, os_path_abspath. run. rewrite Ha.
  cbn [fst snd]. unfold os_path_isdir. run. fold (is_dir w abs_path).
  unfold target_of, startup_trace in *.
  destruct (is_dir w abs_path).
  - injection Ht as <-. cbn [fst snd]. unfold print at 1. run.
    unfold try_except, os_makedirs, print. run. rewrite Hm1. cbn [fst snd].
    run. fold (ensure_dir (os_path.join abs_path "printed") w).
    cbn [ensure_dir set_nodes makedirs_error]. rewrite Hm2. cbn [fst snd]. run.
    eexists. reflexivity.
  - unfold os_path_isfile. run. fold (is_file w abs_path).
    destruct (is_file w abs_path); [|discriminate Ht].
    injection Ht as <-. cbn [fst snd]. unfold print at 1. run.
    unfold try_except, os_makedirs, print. run. rewrite Hm1. cbn [fst snd].
    run. cbn [ensure_dir set_nodes makedirs_error]. rewrite Hm2. cbn [fst snd]. run.
    eexists. reflexivity.
Qed.

Lemma connect_printer_run w n :
  (forall i, instax_error w i = None) ->
  connect_printer (quiet w n) = (Ok (inr tt), quiet w (n + 4), connect_trace).
Proof.
  intros H. unfold connect_printer, try_except, instax. run. rewrite !H. cbn.
  run. rewrite !H. cbn. repeat f_equal. lia.
Qed.

Lemma bind_ok {A B} (c : M A) (k : A -> M B) m a m1 t1 r m2 t2 :
  c m = (Ok a, m1, t1) -> k a m1 = (r, m2, t2) -> (c ≫= k) m = (r, m2, t1 ++ t2).
Proof. intros H1 H2. unfold mbind, M_bind. rewrite H1, H2. reflexivity. Qed.

Lemma print_run to text w n :
  print to text (quiet w n) = (Ok tt, quiet w (S n), [Ev_print to text]).
Proof. unfold print. rewrite call_run. reflexivity. Qed.

Lemma print_pending to text m c :
  sigint m = Some c -> ticks m < c ->
  print to text m = (Ok tt, mkMachine (world m) (S (ticks m)) (Some c), [Ev_print to text]).
Proof. intros Hs Hc. unfold print. rewrite (call_pending _ _ m c Hs Hc). reflexivity. Qed.

(** [main] once the start-up has succeeded, when no Ctrl-C is pending. *)
Lemma main_quiet_loop fuel env args w n target_dir printed_dir w1 n1 t1 :
  startup args (quiet w n) = (Ok (inr (target_dir, printed_dir)), quiet w1 n1, t1) ->
  (forall i, instax_error w1 i = None) ->
  exists w' n' t,
    main fuel env args (quiet w n)
    = (Ok None, quiet w' n', t1 ++ connect_trace ++ banner_trace ++ t) /\
    Forall (loop_event target_dir printed_dir) t /\
    (0 < fuel -> exists t', t = Ev_listdir target_dir :: t').
Proof.
  intros Hs Hi.
  destruct (while_true_quiet fuel 0 env target_dir printed_dir w1 (S (S (n1 + 4))))
    as (w2 & n2 & t2 & H2 & E2 & F2).
  exists w2, n2, t2. split; [|split; [exact E2 | exact F2]].
  unfold main. eapply bind_ok; [exact Hs|]. cbn beta iota.
  eapply bind_ok; [apply connect_printer_run, Hi|]. cbn beta iota.
  unfold banner_trace.
  eapply (bind_ok _ _ _ _ _ [_]); [apply print_run|].
  eapply (bind_ok _ _ _ _ _ [_]); [apply print_run|].
  unfold try_except. erewrite bind_ok; [|exact H2|reflexivity].
  rewrite app_nil_r. reflexivity.
Qed.

(** [main] when Ctrl-C arrives during a call of the loop. *)
Lemma main_interrupted fuel env args m target_dir printed_dir m1 t1 m2 t2 c :
  startup args m = (Ok (inr (target_dir, printed_dir)), m1, t1) ->
  connect_printer m1 = (Ok (inr tt), m2, t2) ->
  sigint m2 = Some c -> ticks m2 + 2 <= c < ticks m2 + 2 + fuel ->
  exists m' t,
    main fuel env args m = (Ok (Some 0%Z), m', t1 ++ t2 ++ banner_trace ++ t ++ [goodbye]).
Proof.
  intros Hs Hc Hsig Hr.
  set (m3 := mkMachine (world m2) (S (S (ticks m2))) (Some c)).
  destruct (while_true_interrupt fuel 0 env target_dir printed_dir m3 c eq_refl)
    as (m4 & t4 & H4 & Hn4); [cbn; lia|].
  exists (quiet (world m4) (S (ticks m4))), t4.
  unfold main. eapply bind_ok; [exact Hs|]. cbn beta iota.
  eapply bind_ok; [exact Hc|]. cbn beta iota.
  unfold banner_trace.
  eapply (bind_ok _ _ _ _ _ [_]); [apply (print_pending _ _ m2 c Hsig); lia|].
  eapply (bind_ok _ _ _ _ _ [_]);
    [apply (print_pending _ _ (mkMachine (world m2) (S (ticks m2)) (Some c)) c eq_refl);
     cbn; lia|].
  cbn [world ticks]. fold m3.
  unfold try_except. rewrite (bind_raise _ _ _ _ _ _ H4).
  rewrite (machine_eta m4), Hn4. fold (quiet (world m4) (ticks m4)).
  erewrite bind_ok; [|apply print_run|reflexivity].
  unfold goodbye. rewrite app_nil_r. reflexivity.
Qed.

(** ** Selection *)

(** *** What moves of image files leave alone *)

Lemma moves_keeps w w' :
  moves w w' ->
  watched w' = watched w /\
  forall e, e ∈ entries w ->
    is_image (os_path.join (watched w) (e_name e)) = false -> e ∈ entries w'.
Proof.
  induction 1 as [w|w src dst w' Hi _ [IHw IHe]].
  - split; [reflexivity | auto].
  - cbn [moved watched entries] in *. split; [exact IHw|].
    intros e He Hn. apply IHe; [|exact Hn].
    unfold remove_entry. apply list_elem_of_In, filter_In.
    split; [apply list_elem_of_In, He|].
    apply negb_true_iff, String.eqb_neq. intros E. congruence.
Qed.

(** *** [dirname] of a file in a directory *)

Lemma all_chars_app c a b :
  Str.all_chars c (a +:+ b) = Str.all_chars c a && Str.all_chars c b.
Proof.
  induction a as [|x a IH]; [reflexivity|].
  change (String x a +:+ b) with (String x (a +:+ b)). cbn.
  rewrite IH. apply andb_assoc.
Qed.

Lemma rstrip_sep_end c s : Str.rstrip c (s +:+ String c EmptyString) = Str.rstrip c s.
Proof.
  induction s as [|x s IH].
  - change (EmptyString +:+ String c EmptyString) with (String c EmptyString).
    cbn. rewrite Ascii.eqb_refl. reflexivity.
  - change (String x s +:+ String c EmptyString)
      with (String x (s +:+ String c EmptyString)).
    cbn [Str.rstrip]. rewrite IH. reflexivity.
Qed.

(** A non-empty string that does not end with [c] is left alone by
    [rstrip] and is not a run of [c]. *)
Lemma rstrip_id c s :
  s <> EmptyString -> Str.endswith s (String c EmptyString) = false ->
  Str.rstrip c s = s /\ Str.all_chars c s = false.
Proof.
  unfold Str.endswith. intros Hne He. apply bool_decide_eq_false in He.
  cbn [Str.to_list String.list_ascii_of_string] in He.
  induction s as [|x s IH]; [congruence|]. clear Hne.
  destruct s as [|y s].
  - cbn. destruct (Ascii.eqb_spec x c) as [->|Hx]; [|auto].
    exfalso. apply He. exists []. reflexivity.
  - destruct IH as [IH1 IH2]; [congruence | |].
    + intros Hs. apply He. cbn. apply suffix_cons_r. exact Hs.
    + cbn [Str.rstrip Str.all_chars] in *. rewrite IH1, IH2.
      split; [reflexivity | apply andb_false_r].
Qed.

Lemma dirname_of_child parent name :
  parent <> EmptyString -> Str.endswith parent "/" = false ->
  "/"%char ∉ Str.to_list name ->
  os_path.dirname (parent +:+ "/" +:+ name) = parent.
Proof.
  intros Hne He Hn. unfold os_path.dirname.
  change ("/" +:+ name) with (String os_path.sep name).
  rewrite (rpartition_app _ _ _ Hn).
  destruct (rstrip_id os_path.sep parent Hne He) as [H1 H2].
  rewrite all_chars_app, H2. cbn [andb].
  rewrite rstrip_sep_end. exact H1.
Qed.

Lemma dirname_of_root_child name :
  "/"%char ∉ Str.to_list name -> os_path.dirname ("/" +:+ name) = "/".
Proof.
  intros Hn. unfold os_path.dirname.
  change ("/" +:+ name) with (EmptyString +:+ String os_path.sep name).
  rewrite (rpartition_app _ _ _ Hn). reflexivity.
Qed.

(** *** Which entries are selected *)

Lemma stat_entry_some w p x :
  stat_entry w p = Some x ->
  exists e mtime, x = (p, mtime) /\ entry_at w p = Some e /\
    e_isfile e = true /\ e_getmtime e = OSOk mtime.
Proof.
  unfold stat_entry. destruct (entry_at w p) as [e|]; [|discriminate].
  destruct (e_isfile e) eqn:Ef; [|discriminate].
  destruct (e_getmtime e) as [mtime|] eqn:Em; [|discriminate].
  intros [= <-]. eauto 10.
Qed.

Lemma select_images_elem l f :
  f ∈ select_images l <-> is_image f = true /\ exists mtime, (f, mtime) ∈ l.
Proof.
  unfold select_images. rewrite list_elem_of_filter, list_elem_of_fmap.
  split; intros [Hi H]; (split; [exact Hi|]).
  - destruct H as ([f' t] & -> & H). exists t.
    rewrite <- (sort_by_mtime_perm l). exact H.
  - destruct H as [t H]. exists (f, t). split; [reflexivity|].
    rewrite (sort_by_mtime_perm l). exact H.
Qed.

Lemma join_inj target_dir a b :
  "/"%char ∉ Str.to_list a -> "/"%char ∉ Str.to_list b ->
  os_path.join target_dir a = os_path.join target_dir b -> a = b.
Proof.
  intros Ha Hb. rewrite !join_relative by (apply relative_no_sep; assumption).
  apply String.app_inj.
Qed.

Lemma entry_at_listed w e :
  listing_ok w -> e ∈ entries w ->
  entry_at w (os_path.join (watched w) (e_name e)) = Some e.
Proof.
  unfold listing_ok, entry_at. generalize (watched w) as d.
  induction (entries w) as [|e0 l IH]; intros d [Hnd Hall] He; [inversion He|].
  cbn [map] in Hnd. apply NoDup_cons in Hnd as [Hnin Hnd].
  apply Forall_cons in Hall as [H0 Hall]. cbn [find].
  destruct (String.eqb_spec (os_path.join d (e_name e0)) (os_path.join d (e_name e)))
    as [E|E].
  - apply elem_of_cons in He as [->|He]; [reflexivity|]. exfalso.
    rewrite Forall_forall in Hall.
    apply join_inj in E; [|exact H0|apply Hall, He].
    apply Hnin. rewrite E. apply list_elem_of_fmap. eauto.
  - apply elem_of_cons in He as [->|He]; [congruence|]. apply IH; auto.
Qed.

Lemma selected_iff w e :
  listing_ok w -> e ∈ entries w ->
  os_path.join (watched w) (e_name e)
    ∈ select_images (files_with_mtime_of w (watched w))
  <-> e_isfile e = true /\ (exists mtime, e_getmtime e = OSOk mtime) /\
      is_image (e_name e) = true.
Proof.
  intros Hok He. rewrite select_images_elem, is_image_join.
  pose proof (entry_at_listed w e Hok He) as Hat.
  unfold files_with_mtime_of. split.
  - intros [Hi [t Ht]]. apply list_elem_of_omap in Ht as (name & _ & Hs).
    apply stat_entry_some in Hs as (e' & t' & [= Hp <-] & Hat' & Hf & Hm).
    rewrite <- Hp, Hat in Hat'. injection Hat' as <-. eauto.
  - intros (Hf & [t Hm] & Hi). split; [exact Hi|]. exists t.
    apply list_elem_of_omap. exists (e_name e).
    split; [apply list_elem_of_fmap; eauto|].
    unfold stat_entry. rewrite Hat, Hf, Hm. reflexivity.
Qed.

(** *** The printed archive and the error archive *)

Lemma join_child_normal parent name :
  name <> EmptyString -> "/"%char ∉ Str.to_list name ->
  os_path.join parent name <> EmptyString /\
  Str.endswith (os_path.join parent name) "/" = false.
Proof.
  intros Hne Hn. rewrite (join_relative _ _ (relative_no_sep _ Hn)). split.
  - intros E. apply (f_equal Str.to_list) in E. rewrite to_list_app in E.
    apply app_eq_nil in E as [_ E]. destruct name; [congruence | discriminate E].
  - unfold Str.endswith. apply bool_decide_eq_false. rewrite to_list_app.
    cbn [Str.to_list String.list_ascii_of_string]. intros [k Hk].
    assert (Hl : is_Some (last (Str.to_list name))).
    { apply last_is_Some. destruct name; [congruence | discriminate]. }
    destruct Hl as [d Hd].
    apply (f_equal last) in Hk.
    rewrite last_app, Hd, last_snoc in Hk. injection Hk as ->.
    apply Hn, last_Some_elem_of, Hd.
Qed.

(** A path directly in a directory has that directory as its [dirname]. *)
Lemma directly_in_dirname dir path :
  dir <> EmptyString -> Str.endswith dir "/" = false ->
  directly_in dir path -> os_path.dirname path = dir.
Proof.
  intros Hne He (name & Hn & ->).
  rewrite (join_relative _ _ (relative_no_sep _ Hn)). unfold join_prefix.
  rewrite He. destruct dir; [congruence|]. cbn [Str.is_empty orb].
  rewrite append_assoc. apply dirname_of_child; assumption.
Qed.

Lemma no_sep_printed : "/"%char ∉ Str.to_list "printed".
Proof.
  cbn. intros H. repeat (apply elem_of_cons in H as [H|H]; [discriminate H|]).
  inversion H.
Qed.

Lemma no_sep_error : "/"%char ∉ Str.to_list "error".
Proof.
  cbn. intros H. repeat (apply elem_of_cons in H as [H|H]; [discriminate H|]).
  inversion H.
Qed.

(** What lies directly in [printed] has [printed] as its directory and
    does not lie directly in [error]. *)
Lemma printed_is_not_error target_dir dst :
  directly_in (os_path.join target_dir "printed") dst ->
  os_path.dirname dst = os_path.join target_dir "printed" /\
  ~ directly_in (os_path.join target_dir "error") dst.
Proof.
  intros Hp.
  destruct (join_child_normal target_dir "printed") as [P1 P2];
    [discriminate | exact no_sep_printed |].
  destruct (join_child_normal target_dir "error") as [E1 E2];
    [discriminate | exact no_sep_error |].
  pose proof (directly_in_dirname _ _ P1 P2 Hp) as Hd. split; [exact Hd|].
  intros He. pose proof (directly_in_dirname _ _ E1 E2 He) as Hd'.
  rewrite Hd in Hd'.
  apply join_inj in Hd'; [discriminate Hd' | exact no_sep_printed | exact no_sep_error].
Qed.

(** ** The claims about the watcher *)

(** *** C1 *)

(** [main] is started on the directory [/w], which holds the two archives
    and the picture [a.jpg], and runs one turn of the loop: the picture is
    moved to [/w/printed/a.jpg], and nothing in the trace reads it, calls
    the transformer or submits a print job. *)
Lemma C1_moved_without_handoff :
  (main 1 (fun _ w => w) ["instaxMultiPrint.py"; "/w"] (quiet first_listing 0)).2
  = startup_trace "/w" "/w" "/w" first_listing ++ connect_trace ++ banner_trace
    ++ [Ev_listdir "/w"; Ev_isfile "/w/error"; Ev_isfile "/w/printed";
        Ev_isfile "/w/a.jpg"; Ev_getmtime "/w/a.jpg";
        Ev_print stdout "Found 1 image(s) to process...";
        Ev_rename "/w/a.jpg" "/w/a.jpg"; Ev_print stdout "Processing: a.jpg";
        Ev_exists "/w/printed/a.jpg"; Ev_move "/w/a.jpg" "/w/printed/a.jpg";
        Ev_print stdout "Moved to: a.jpg"; Ev_sleep 1; Ev_sleep 1] /\
  handed_off_before_move []
    (main 1 (fun _ w => w) ["instaxMultiPrint.py"; "/w"] (quiet first_listing 0)).2
  = false /\
  existsb is_handoff
    (main 1 (fun _ w => w) ["instaxMultiPrint.py"; "/w"] (quiet first_listing 0)).2
  = false /\
  entries (world (main 1 (fun _ w => w) ["instaxMultiPrint.py"; "/w"]
                    (quiet first_listing 0)).1.2)
  = [sub_directory "error"; sub_directory "printed"] /\
  nodes (world (main 1 (fun _ w => w) ["instaxMultiPrint.py"; "/w"]
                  (quiet first_listing 0)).1.2) !! "/w/printed/a.jpg"
  = Some RegularFile.
Proof. repeat split; vm_compute; reflexivity. Qed.

Lemma available_trace_no_handoff file_path dest checks r :
  Forall (fun ev => is_handoff ev = false) (available_trace file_path dest checks r).
Proof.
  unfold available_trace. repeat (apply Forall_app; split).
  - repeat constructor.
  - apply Forall_forall. intros ev Hev. apply list_elem_of_fmap in Hev as (p & -> & _).
    reflexivity.
  - repeat constructor. destruct r; reflexivity.
Qed.

Lemma loop_event_no_handoff target_dir printed_dir ev :
  loop_event target_dir printed_dir ev ->
  is_handoff ev = false /\
  forall src dst, ev = Ev_move src dst -> directly_in printed_dir dst.
Proof.
  destruct ev; cbn [loop_event is_handoff]; intros H; try destruct H;
    (split; [reflexivity | intros src' dst' E; try discriminate E]).
  injection E as <- <-. assumption.
Qed.

(** The destination of the naming rule lies directly in the printed
    archive. *)
Lemma candidate_directly_in printed_dir basename k :
  "/"%char ∉ Str.to_list basename ->
  directly_in printed_dir
    (candidate printed_dir (os_path.splitext basename).1 (os_path.splitext basename).2
       basename k).
Proof.
  intros Hplain. destruct (splitext_plain basename Hplain) as [Hb He].
  destruct k as [|k]; cbn [candidate]; eexists; (split; [|reflexivity]).
  - exact Hplain.
  - apply numbered_name_plain; assumption.
Qed.

(** Claim C1, as amended: a file whose lock probe succeeds is moved at once to
    a free name directly in the printed archive.  Between the probe and
    the move the program only logs and tests candidate names for
    existence; it does not read the file, call the transformer or submit a
    print job.  When the move fails, the failure is logged and the file
    system is left as it was.  In no turn of the loop is there a read, a
    transformer call or a print job, and every move goes to a file name
    directly in the printed archive; with the directories as [main] sets
    them, the directory of every destination is [printed], and no
    destination lies in [error]. *)
Theorem C1_available_file_is_moved_to_printed :
  (forall printed_dir file_path w n e,
     entry_at w file_path = Some e -> e_rename e = OSOk tt ->
     exists dest checks,
       resolve w printed_dir (os_path.basename file_path) = Some dest /\
       path_taken w dest = false /\
       directly_in printed_dir dest /\
       process_file printed_dir file_path (quiet w n)
       = (Ok tt, quiet (after_move file_path dest (e_move e) w) (n + length checks + 5),
          available_trace file_path dest checks (e_move e)) /\
       Forall (fun ev => is_handoff ev = false)
              (available_trace file_path dest checks (e_move e))) /\
  (forall fuel k env target_dir printed_dir m,
     Forall (fun ev =>
               is_handoff ev = false /\
               forall src dst, ev = Ev_move src dst -> directly_in printed_dir dst)
            (while_true fuel k env (poll target_dir printed_dir) m).2) /\
  (forall fuel k env target_dir m src dst,
     Ev_move src dst
       ∈ (while_true fuel k env
            (poll target_dir (os_path.join target_dir "printed")) m).2 ->
     os_path.dirname dst = os_path.join target_dir "printed" /\
     ~ directly_in (os_path.join target_dir "error") dst).
Proof.
  split; [|split].
  - intros printed_dir file_path w n e He Hr.
    destruct (process_file_available printed_dir file_path w n e He Hr)
      as (dest & checks & Hres & Hrun).
    destruct (resolve_eq printed_dir (os_path.basename file_path)
                (basename_no_sep file_path) w) as (k & Hres' & Hfree & _).
    exists dest, checks. rewrite Hres in Hres'. injection Hres' as ->.
    split; [exact Hres|]. split; [exact Hfree|]. split.
    + apply candidate_directly_in, basename_no_sep.
    + split; [exact Hrun | apply available_trace_no_handoff].
  - intros fuel k env target_dir printed_dir m.
    eapply Forall_impl; [apply while_true_events|].
    intros ev. apply loop_event_no_handoff.
  - intros fuel k env target_dir m src dst Hin.
    pose proof (while_true_events fuel k env target_dir
                  (os_path.join target_dir "printed") m) as Hall.
    rewrite Forall_forall in Hall. destruct (Hall _ Hin) as [_ Hd].
    apply printed_is_not_error, Hd.
Qed.

Lemma C1_available_file_is_moved_to_printed_witness :
  (exists dest checks,
     resolve first_listing "/w/printed" (os_path.basename "/w/a.jpg") = Some dest /\
     path_taken first_listing dest = false /\
     directly_in "/w/printed" dest /\
     process_file "/w/printed" "/w/a.jpg" (quiet first_listing 0)
     = (Ok tt,
        quiet (after_move "/w/a.jpg" dest (OSOk tt) first_listing) (0 + length checks + 5),
        available_trace "/w/a.jpg" dest checks (OSOk tt)) /\
     Forall (fun ev => is_handoff ev = false)
            (available_trace "/w/a.jpg" dest checks (OSOk tt))) /\
  (os_path.dirname "/w/printed/a.jpg" = os_path.join "/w" "printed" /\
   ~ directly_in (os_path.join "/w" "error") "/w/printed/a.jpg").
Proof.
  destruct C1_available_file_is_moved_to_printed as (H1 & _ & H3). split.
  - apply (H1 "/w/printed" "/w/a.jpg" first_listing 0 (plain_file "a.jpg" 1)); reflexivity.
  - apply (H3 1 0 (fun _ w => w) "/w" (quiet first_listing 0) "/w/a.jpg").
    vm_compute. repeat constructor.
Defined.

(** *** C5 *)

(** Claim C5: a poll whose listing succeeds probes the image files in the order
    of the stable sort by modification time.  The sorted list is a
    permutation of the listing, ascending in [mtime], and entries with the
    same [mtime] keep their listing order; the extension filter keeps the
    order of the sorted list; so of two image files the one with the
    smaller [mtime] is probed, and hence processed, first. *)
Theorem C5_processed_oldest_first (target_dir printed_dir : string) (w : World) (n : nat) :
  listdir_error w = None -> watched w = target_dir ->
  exists w' n' t,
    poll target_dir printed_dir (quiet w n) = (Ok tt, quiet w' n', t) /\
    probes t
    = filter (fun f => is_image f = true)
        (map fst (sort_by_mtime (files_with_mtime_of w target_dir))) /\
    StronglySorted mtime_le (sort_by_mtime (files_with_mtime_of w target_dir)) /\
    sort_by_mtime (files_with_mtime_of w target_dir) ≡ₚ files_with_mtime_of w target_dir /\
    (forall mtime,
       with_mtime mtime (sort_by_mtime (files_with_mtime_of w target_dir))
       = with_mtime mtime (files_with_mtime_of w target_dir)) /\
    (forall a ta b tb,
       (a, ta) ∈ files_with_mtime_of w target_dir ->
       (b, tb) ∈ files_with_mtime_of w target_dir ->
       (ta < tb)%Q -> is_image a = true -> is_image b = true ->
       exists l1 l2 l3, probes t = l1 ++ a :: l2 ++ b :: l3).
Proof.
  intros Hl Hw.
  destruct (poll_run target_dir printed_dir w n Hl Hw) as (w' & n' & t & Hrun & Hp).
  exists w', n', t. split; [exact Hrun|]. split; [exact Hp|].
  split; [apply sort_by_mtime_sorted|]. split; [apply sort_by_mtime_perm|].
  split; [intros mtime; apply sort_by_mtime_stable|].
  intros a ta b tb Ha Hb Hlt Hia Hib. rewrite Hp.
  exact (select_images_before _ a ta b tb Ha Hb Hlt Hia Hib).
Qed.

Lemma C5_processed_oldest_first_witness :
  exists w' n' t,
    poll "/w" "/w/printed" (quiet shelf 0) = (Ok tt, quiet w' n', t) /\
    probes t = ["/w/a.jpg"; "/w/b.png"; "/w/c.gif"].
Proof.
  destruct (C5_processed_oldest_first "/w" "/w/printed" shelf 0 eq_refl eq_refl)
    as (w' & n' & t & Hrun & Hp & _).
  exists w', n', t. split; [exact Hrun|]. rewrite Hp. vm_compute. reflexivity.
Defined.

(** *** C6 *)

(** Claim C6: resolving the destination of the same file name [N] times, each
    result being created before the next call, gives [N] pairwise
    distinct paths, none of which existed before; when none of the first
    [N] candidate names is taken to begin with, they are the file name
    itself and then the names with [_1], ..., [_(N-1)] before the
    extension, in this order. *)
Theorem C6_naming_rule (printed_dir file_path : string) (N : nat) (w : World) :
  length (resolve_n N w printed_dir (os_path.basename file_path)) = N /\
  NoDup (resolve_n N w printed_dir (os_path.basename file_path)) /\
  Forall (fun dest => path_taken w dest = false)
    (resolve_n N w printed_dir (os_path.basename file_path)) /\
  ((forall i, i < N ->
      path_taken w
        (os_path.join printed_dir
           (cand_name (os_path.splitext (os_path.basename file_path)).1
                      (os_path.splitext (os_path.basename file_path)).2
                      (os_path.basename file_path) i)) = false) ->
   resolve_n N w printed_dir (os_path.basename file_path)
   = map (fun k =>
            os_path.join printed_dir
              (cand_name (os_path.splitext (os_path.basename file_path)).1
                         (os_path.splitext (os_path.basename file_path)).2
                         (os_path.basename file_path) k))
         (seq 0 N)).
Proof.
  pose proof (basename_no_sep file_path) as Hplain.
  destruct (resolve_n_fresh printed_dir _ Hplain N w) as (Hlen & Hnd & Hfree).
  split; [exact Hlen|]. split; [exact Hnd|]. split; [exact Hfree|].
  intros Hall.
  rewrite (resolve_n_sequence printed_dir _ Hplain N 0 w).
  - apply map_ext. intros [|k]; reflexivity.
  - intros i Hi. lia.
  - intros i Hi. specialize (Hall i ltac:(lia)). destruct i; exact Hall.
Qed.

Lemma C6_naming_rule_witness :
  resolve_n 3 (example_world []) "/w/printed" (os_path.basename "/w/a.jpg")
  = ["/w/printed/a.jpg"; "/w/printed/a_1.jpg"; "/w/printed/a_2.jpg"].
Proof.
  destruct (C6_naming_rule "/w/printed" "/w/a.jpg" 3 (example_world []))
    as (_ & _ & _ & Hseq).
  rewrite Hseq; [vm_compute; reflexivity|].
  intros i Hi.
  destruct i as [|[|[|i]]]; [vm_compute; reflexivity .. | lia].
Defined.

(** *** C7 *)



(** *** C8 *)

Lemma startup_not_file_or_directory args w n abs_path :
  2 <= length args ->
  path_taken w (nth 1 args EmptyString) = true ->
  abspath_of w (nth 1 args EmptyString) = Ok abs_path ->
  target_of w abs_path = None ->
  exists n' t, startup args (quiet w n) = (Ok (inl 1%Z), quiet w n', t).
Proof.
  intros H Hp Ha Ht. unfold startup.
  assert (E : (length args <? 2) = false) by (apply Nat.ltb_ge; exact H).
  rewrite E. unfold os_path_exists. run. fold (path_taken w (nth 1 args EmptyString)).
  rewrite Hp. cbn [negb]. unfold try_except, os_path_abspath. run. rewrite Ha.
  cbn [fst snd]. unfold os_path_isdir. run. fold (is_dir w abs_path).
  unfold target_of in Ht.
  destruct (is_dir w abs_path); [discriminate Ht|].
  unfold os_path_isfile. run. fold (is_file w abs_path).
  destruct (is_file w abs_path); [discriminate Ht|].
  unfold print. run. do 2 eexists. reflexivity.
Qed.

(** Claim C8: without a path argument [main] writes the usage message to
    standard error and returns 1; with a path that does not exist, or that
    exists but is neither a directory nor a regular file, it returns 1;
    when Ctrl-C arrives during a call made by the processing loop it
    returns 0. *)
Theorem C8_exit_status :
  (forall fuel env args w n,
     length args < 2 ->
     main fuel env args (quiet w n) = (Ok (Some 1%Z), quiet w (n + 2), usage_trace)) /\
  (forall fuel env args w n,
     2 <= length args -> path_taken w (nth 1 args EmptyString) = false ->
     exists t, main fuel env args (quiet w n) = (Ok (Some 1%Z), quiet w (n + 2), t)) /\
  (forall fuel env args w n abs_path,
     2 <= length args -> path_taken w (nth 1 args EmptyString) = true ->
     abspath_of w (nth 1 args EmptyString) = Ok abs_path ->
     target_of w abs_path = None ->
     exists n' t, main fuel env args (quiet w n) = (Ok (Some 1%Z), quiet w n', t)) /\
  (forall fuel env args m target_dir printed_dir m1 t1 m2 t2 c,
     startup args m = (Ok (inr (target_dir, printed_dir)), m1, t1) ->
     connect_printer m1 = (Ok (inr tt), m2, t2) ->
     sigint m2 = Some c -> ticks m2 + 2 <= c < ticks m2 + 2 + fuel ->
     exists m' t,
       main fuel env args m
       = (Ok (Some 0%Z), m', t1 ++ t2 ++ banner_trace ++ t ++ [goodbye])).
Proof.
  split.
  { intros fuel env args w n H. apply main_returns_early, startup_no_argument, H. }
  split.
  { intros fuel env args w n H Hp. eexists.
    apply main_returns_early, startup_missing_path; assumption. }
  split.
  { intros fuel env args w n abs_path H Hp Ha Ht.
    destruct (startup_not_file_or_directory args w n abs_path H Hp Ha Ht) as (n' & t & Hs).
    exists n', t. apply main_returns_early, Hs. }
  exact main_interrupted.
Qed.

Lemma C8_exit_status_witness :
  (main 5 (fun _ w => w) ["prog"] (quiet shelf 0)).1.1 = Ok (Some 1%Z) /\
  (main 5 (fun _ w => w) ["prog"; "/nowhere"] (quiet shelf 0)).1.1 = Ok (Some 1%Z) /\
  (main 5 (fun _ w => w) ["prog"; "/dev/null"] (quiet with_device 0)).1.1 = Ok (Some 1%Z) /\
  (main 5 (fun _ w => w) ["prog"; "/w"] (mkMachine shelf 0 (Some 16))).1.1 = Ok (Some 0%Z).
Proof.
  destruct C8_exit_status as (H1 & H2 & H3 & H4).
  split.
  { rewrite (H1 5 (fun _ w => w) ["prog"] shelf 0); [reflexivity | cbn; lia]. }
  split.
  { destruct (H2 5 (fun _ w => w) ["prog"; "/nowhere"] shelf 0) as [t ->];
      [cbn; lia | reflexivity | reflexivity]. }
  split.
  { destruct (H3 5 (fun _ w => w) ["prog"; "/dev/null"] with_device 0 "/dev/null")
      as (n' & t & ->); [cbn; lia | reflexivity | reflexivity | reflexivity | reflexivity]. }
  destruct (H4 5 (fun _ w => w) ["prog"; "/w"] (mkMachine shelf 0 (Some 16))
              "/w" "/w/printed"
              (startup ["prog"; "/w"] (mkMachine shelf 0 (Some 16))).1.2
              (startup ["prog"; "/w"] (mkMachine shelf 0 (Some 16))).2
              (connect_printer (startup ["prog"; "/w"] (mkMachine shelf 0 (Some 16))).1.2).1.2
              (connect_printer (startup ["prog"; "/w"] (mkMachine shelf 0 (Some 16))).1.2).2
              16)
    as (m' & t & ->); [reflexivity | reflexivity | reflexivity | vm_compute; lia | reflexivity].
Defined.

(** *** C9 *)

Lemma probes_elem t p : p ∈ probes t -> exists dst, Ev_rename p dst ∈ t.
Proof.
  unfold probes. intros H. apply list_elem_of_omap in H as (ev & Hev & E).
  destruct ev; try discriminate E. injection E as ->. eauto.
Qed.

Lemma loop_never_probes_other_files fuel k env target_dir printed_dir m f :
  is_image f = false ->
  os_path.join target_dir f
    ∉ probes (while_true fuel k env (poll target_dir printed_dir) m).2.
Proof.
  intros Hn Hin. apply probes_elem in Hin as [dst Hin].
  pose proof (while_true_events fuel k env target_dir printed_dir m) as Hall.
  rewrite Forall_forall in Hall. destruct (Hall _ Hin) as [_ Hi].
  rewrite is_image_join in Hi. congruence.
Qed.

Lemma loop_never_moves_other_files fuel k env target_dir printed_dir m f dst :
  is_image f = false ->
  Ev_move (os_path.join target_dir f) dst
    ∉ (while_true fuel k env (poll target_dir printed_dir) m).2.
Proof.
  intros Hn Hin.
  pose proof (while_true_events fuel k env target_dir printed_dir m) as Hall.
  rewrite Forall_forall in Hall. destruct (Hall _ Hin) as [Hi _].
  rewrite is_image_join in Hi. congruence.
Qed.

Lemma poll_keeps_other_files target_dir printed_dir m e :
  is_image (e_name e) = false -> e ∈ entries (world m) ->
  e ∈ entries (world (poll target_dir printed_dir m).1.2).
Proof.
  intros Hn He.
  destruct (obeys_poll target_dir printed_dir m) as (_ & Hm & _).
  apply (moves_keeps _ _ Hm); [exact He|]. rewrite is_image_join. exact Hn.
Qed.

(** Claim C9: in a turn of the loop whose listing succeeds, an entry of the
    listing whose modification time can be read is taken up by the loop
    over [image_files] (its lock probe is in the trace of the turn)
    exactly when it is a regular file and its lower-cased name ends with
    one of the seven extensions.  A name without such an extension, as
    [notes.txt], is never probed and never moved, whatever happens in the
    loop, and its entry is still in the watch directory after a turn. *)
Theorem C9_selected_iff_image_file :
  (forall target_dir printed_dir w n e mtime,
     listdir_error w = None -> watched w = target_dir -> listing_ok w ->
     e ∈ entries w -> e_getmtime e = OSOk mtime ->
     os_path.join target_dir (e_name e)
       ∈ probes (poll target_dir printed_dir (quiet w n)).2
     <-> e_isfile e = true /\
         Str.endswith_any (Str.lower (e_name e))
           [".png"; ".jpg"; ".jpeg"; ".gif"; ".bmp"; ".tiff"; ".webp"] = true) /\
  (forall fuel k env target_dir printed_dir m f,
     Str.endswith_any (Str.lower f)
       [".png"; ".jpg"; ".jpeg"; ".gif"; ".bmp"; ".tiff"; ".webp"] = false ->
     (os_path.join target_dir f
        ∉ probes (while_true fuel k env (poll target_dir printed_dir) m).2) /\
     forall dst,
       Ev_move (os_path.join target_dir f) dst
         ∉ (while_true fuel k env (poll target_dir printed_dir) m).2) /\
  (forall target_dir printed_dir m e,
     Str.endswith_any (Str.lower (e_name e))
       [".png"; ".jpg"; ".jpeg"; ".gif"; ".bmp"; ".tiff"; ".webp"] = false ->
     e ∈ entries (world m) ->
     e ∈ entries (world (poll target_dir printed_dir m).1.2)) /\
  Str.endswith_any (Str.lower "notes.txt")
    [".png"; ".jpg"; ".jpeg"; ".gif"; ".bmp"; ".tiff"; ".webp"] = false.
Proof.
  split; [|split; [|split]].
  - intros target_dir printed_dir w n e mtime Hl Hw Hok He Hm.
    destruct (poll_run target_dir printed_dir w n Hl Hw) as (w' & n' & t & Hrun & Hp).
    rewrite Hrun. cbn [snd]. rewrite Hp. subst target_dir. rewrite (selected_iff w e Hok He).
    fold IMAGE_EXTENSIONS. fold (is_image (e_name e)). split.
    + intros (Hf & _ & Hi). auto.
    + intros (Hf & Hi). eauto.
  - intros fuel k env target_dir printed_dir m f Hn. split.
    + apply loop_never_probes_other_files. exact Hn.
    + intros dst. apply loop_never_moves_other_files. exact Hn.
  - intros target_dir printed_dir m e Hn He.
    apply poll_keeps_other_files; [exact Hn | exact He].
  - reflexivity.
Qed.

Lemma shelf_listing_ok : listing_ok shelf.
Proof.
  split.
  - apply (bool_decide_unpack _). vm_compute. reflexivity.
  - repeat constructor; apply (bool_decide_unpack _); vm_compute; reflexivity.
Defined.

Lemma C9_selected_iff_image_file_witness :
  ("/w/a.jpg" ∈ probes (poll "/w" "/w/printed" (quiet shelf 0)).2
   <-> true = true /\
       Str.endswith_any (Str.lower "a.jpg")
         [".png"; ".jpg"; ".jpeg"; ".gif"; ".bmp"; ".tiff"; ".webp"] = true) /\
  (("/w/notes.txt" ∉ probes (while_true 2 0 (fun _ w => w) (poll "/w" "/w/printed")
                               (quiet shelf 0)).2) /\
   forall dst,
     Ev_move "/w/notes.txt" dst
       ∉ (while_true 2 0 (fun _ w => w) (poll "/w" "/w/printed") (quiet shelf 0)).2) /\
  plain_file "notes.txt" 0 ∈ entries (world (poll "/w" "/w/printed" (quiet shelf 0)).1.2).
Proof.
  destruct C9_selected_iff_image_file as (H1 & H2 & H3 & _).
  split; [|split].
  - apply (H1 "/w" "/w/printed" shelf 0 (plain_file "a.jpg" 1) 1%Q eq_refl eq_refl
             shelf_listing_ok); [vm_compute; repeat constructor | reflexivity].
  - apply (H2 2 0 (fun _ w => w) "/w" "/w/printed" (quiet shelf 0) "notes.txt" eq_refl).
  - apply (H3 "/w" "/w/printed" (quiet shelf 0) (plain_file "notes.txt" 0) eq_refl).
    vm_compute. repeat constructor.
Defined.

(** *** C10 *)

(** Claim C10: when the path argument exists and resolves to [abs_path], the
    target directory is [abs_path] itself if that is a directory, and
    [os.path.dirname(abs_path)] if it is a regular file.  Once the two
    sub-directories are there and the printer is connected, the loop lists
    the target directory, and no other directory, turn after turn.  The
    [dirname] of a file directly under a directory is that directory. *)
Theorem C10_watched_directory :
  (forall fuel env args w n abs_path target_dir,
     2 <= length args ->
     path_taken w (nth 1 args EmptyString) = true ->
     abspath_of w (nth 1 args EmptyString) = Ok abs_path ->
     target_of w abs_path = Some target_dir ->
     makedirs_error w (os_path.join target_dir "printed") = None ->
     makedirs_error w (os_path.join target_dir "error") = None ->
     (forall i, instax_error w i = None) ->
     (is_dir w abs_path = true -> target_dir = abs_path) /\
     (is_dir w abs_path = false ->
      is_file w abs_path = true /\ target_dir = os_path.dirname abs_path) /\
     exists w' n' t,
       main fuel env args (quiet w n)
       = (Ok None, quiet w' n',
          startup_trace (nth 1 args EmptyString) abs_path target_dir w
          ++ connect_trace ++ banner_trace ++ t) /\
       Forall (loop_event target_dir (os_path.join target_dir "printed")) t /\
       (forall p, Ev_listdir p ∈ t -> p = target_dir) /\
       (0 < fuel -> exists t', t = Ev_listdir target_dir :: t')) /\
  (forall parent name,
     parent <> EmptyString -> Str.endswith parent "/" = false ->
     "/"%char ∉ Str.to_list name ->
     os_path.dirname (parent +:+ "/" +:+ name) = parent).
Proof.
  split; [|exact dirname_of_child].
  intros fuel env args w n abs_path target_dir H Hp Ha Ht Hm1 Hm2 Hi.
  split; [|split].
  - intros Hd. unfold target_of in Ht. rewrite Hd in Ht. congruence.
  - intros Hd. unfold target_of in Ht. rewrite Hd in Ht.
    destruct (is_file w abs_path); [|discriminate Ht]. split; congruence.
  - destruct (startup_run args w n abs_path target_dir H Hp Ha Ht Hm1 Hm2) as (n1 & Hs).
    destruct (main_quiet_loop fuel env args w n _ _ _ _ _ Hs Hi)
      as (w' & n' & t & Hrun & Hev & Hfirst).
    exists w', n', t. split; [exact Hrun|]. split; [exact Hev|].
    split; [|exact Hfirst].
    intros p Hin. rewrite Forall_forall in Hev. exact (Hev _ Hin).
Qed.

Lemma C10_watched_directory_witness :
  (exists w' n' t,
     main 2 (fun _ w => w) ["prog"; "/w/a.jpg"] (quiet shelf 0)
     = (Ok None, quiet w' n',
        startup_trace "/w/a.jpg" "/w/a.jpg" "/w" shelf
        ++ connect_trace ++ banner_trace ++ t) /\
     (forall p, Ev_listdir p ∈ t -> p = "/w")) /\
  (exists w' n' t,
     main 2 (fun _ w => w) ["prog"; "/w"] (quiet shelf 0)
     = (Ok None, quiet w' n',
        startup_trace "/w" "/w" "/w" shelf ++ connect_trace ++ banner_trace ++ t) /\
     (forall p, Ev_listdir p ∈ t -> p = "/w")).
Proof.
  destruct C10_watched_directory as [H _]. split.
  - destruct (H 2 (fun _ w => w) ["prog"; "/w/a.jpg"] shelf 0 "/w/a.jpg" "/w")
      as (_ & _ & w' & n' & t & Hrun & _ & Hl & _);
      [cbn; lia | reflexivity | reflexivity | reflexivity | reflexivity | reflexivity
      | reflexivity |].
    exists w', n', t. split; assumption.
  - destruct (H 2 (fun _ w => w) ["prog"; "/w"] shelf 0 "/w" "/w")
      as (_ & _ & w' & n' & t & Hrun & _ & Hl & _);
      [cbn; lia | reflexivity | reflexivity | reflexivity | reflexivity | reflexivity
      | reflexivity |].
    exists w', n', t. split; assumption.
Defined.

(* ===================================================================== *)
(** * Part III: further properties of the code *)
(* ===================================================================== *)

(** ** The transformer: errors and the geometry of the crop *)

Lemma Qfloor_add_int (x : Q) (n : Z) : Qfloor (x + inject_Z n) = (Qfloor x + n)%Z.
Proof.
  apply Qfloor_unique.
  - rewrite inject_Z_plus. pose proof (Qfloor_le x). lra.
  - rewrite !inject_Z_plus. pose proof (Qlt_floor x) as H.
    rewrite inject_Z_plus in H. lra.
Qed.

(** Rounding a sum with an integer moves the result by that integer, up to
    one unit (the tie rule looks at the parity). *)
Lemma round_half_even_shift (x : Q) (n : Z) :
  (round_half_even x + n - 1 <= round_half_even (x + inject_Z n)
   <= round_half_even x + n + 1)%Z.
Proof.
  pose proof (round_half_even_floor x). pose proof (round_half_even_succ x).
  pose proof (round_half_even_floor (x + inject_Z n)) as A.
  pose proof (round_half_even_succ (x + inject_Z n)) as B.
  rewrite Qfloor_add_int in A, B. lia.
Qed.

(** One axis of the crop: an interval of length [b] centered in [0, a],
    as [Image.crop] rounds it. *)
Lemma centered_axis (a b : Z) :
  (0 < a < max_dim)%Z -> (0 <= b <= a)%Z ->
  let lo := round64 (inject_Z (a - b) / inject_Z 2) in
  let hi := add_int lo b in
  (0 <= round_half_even lo <= round_half_even hi)%Z /\
  (round_half_even hi <= a)%Z /\
  (b - 1 <= round_half_even hi - round_half_even lo <= b + 1)%Z /\
  (-1 <= round_half_even lo - (a - round_half_even hi) <= 1)%Z /\
  (Z.even (a - b) = true ->
   round_half_even lo = ((a - b) / 2)%Z /\
   round_half_even hi = ((a - b) / 2 + b)%Z).
Proof.
  intros Ha Hb lo hi.
  destruct (centered_offsets_exact a b Ha Hb) as [Hlo Hhi]. fold lo in Hlo, Hhi. fold hi in Hhi.
  assert (Hb0 : (0 <= inject_Z b)%Q).
  { change 0%Q with (inject_Z 0). rewrite <- Zle_Qle. tauto. }
  assert (Hba : (inject_Z b <= inject_Z a)%Q) by (rewrite <- Zle_Qle; tauto).
  assert (Hlo' : (lo == (inject_Z a - inject_Z b) * (1 # 2))%Q).
  { rewrite Hlo, inject_Z_sub. field. }
  assert (Hlo0 : (0 <= lo)%Q) by (rewrite Hlo'; lra).
  assert (Hhia : (hi <= inject_Z a)%Q) by (rewrite Hhi, Hlo'; lra).
  assert (Hlohi : (lo <= hi)%Q) by (rewrite Hhi; lra).
  split; [split|split; [|split; [|split]]].
  - rewrite <- (round_half_even_inject 0). apply round_half_even_mono. exact Hlo0.
  - apply round_half_even_mono. exact Hlohi.
  - rewrite <- (round_half_even_inject a). apply round_half_even_mono. exact Hhia.
  - rewrite (round_half_even_comp hi (lo + inject_Z b) Hhi).
    pose proof (round_half_even_shift lo b). lia.
  - assert (Hmirror : (hi == - lo + inject_Z a)%Q) by (rewrite Hhi, Hlo'; ring).
    rewrite (round_half_even_comp hi _ Hmirror).
    pose proof (round_half_even_shift (- lo) a) as Hs.
    rewrite round_half_even_opp in Hs. lia.
  - intros He. apply Z.even_spec in He as [k Hk].
    assert (Hk2 : ((a - b) / 2 = k)%Z).
    { rewrite Hk, Z.mul_comm. apply Z.div_mul. lia. }
    assert (Elo : (lo == inject_Z k)%Q).
    { rewrite Hlo, Hk, inject_Z_mult. field. }
    rewrite Hk2. split.
    + rewrite (round_half_even_comp _ _ Elo). apply round_half_even_inject.
    + rewrite (round_half_even_comp hi (inject_Z (k + b))).
      * apply round_half_even_inject.
      * rewrite Hhi, Elo, inject_Z_plus. reflexivity.
Qed.

(** The branch that [crop_box] takes, and the range of the new size. *)
Lemma crop_box_branch (w h W H : Z) :
  (0 < w < max_dim)%Z -> (0 < h < max_dim)%Z ->
  (0 < W < max_dim)%Z -> (0 < H < max_dim)%Z ->
  (crop_box w h W H = Ok (wide_box (round64 (inject_Z w / inject_Z h)) W H) /\
   (0 <= to_int (mul_int (round64 (inject_Z w / inject_Z h)) H) <= W)%Z) \/
  (crop_box w h W H = Ok (tall_box (round64 (inject_Z w / inject_Z h)) W H) /\
   (0 <= to_int (round64 (of_int W / round64 (inject_Z w / inject_Z h))) <= H)%Z).
Proof.
  intros Hw Hh HW HH. rewrite crop_box_eq by lia.
  destruct (gt _ _) eqn:Hgt.
  - left. split; [reflexivity|]. apply new_width_range; tauto.
  - right. split; [reflexivity|]. apply new_height_range; tauto.
Qed.

(** Property X2: The rectangle that [Image.crop] extracts lies inside the source, so no
    pixel of the cropped image comes from outside the picture, and it is
    centered: on each axis the margins before and after it differ by one
    pixel at most. *)
Theorem crop_is_centered_inside_source (w h W H : Z) :
  (0 < w < max_dim)%Z -> (0 < h < max_dim)%Z ->
  (0 < W < max_dim)%Z -> (0 < H < max_dim)%Z ->
  exists box,
    crop_box w h W H = Ok box /\
    (0 <= round_half_even (PIL.b_left box) <= round_half_even (PIL.b_right box))%Z /\
    (round_half_even (PIL.b_right box) <= W)%Z /\
    (0 <= round_half_even (PIL.b_top box) <= round_half_even (PIL.b_bottom box))%Z /\
    (round_half_even (PIL.b_bottom box) <= H)%Z /\
    (-1 <= round_half_even (PIL.b_left box) - (W - round_half_even (PIL.b_right box)) <= 1)%Z /\
    (-1 <= round_half_even (PIL.b_top box) - (H - round_half_even (PIL.b_bottom box)) <= 1)%Z.
Proof.
  intros Hw Hh HW HH.
  destruct (crop_box_branch w h W H Hw Hh HW HH) as [[-> Hr]|[-> Hr]];
    eexists; (split; [reflexivity|]);
    cbn [wide_box tall_box PIL.b_left PIL.b_top PIL.b_right PIL.b_bottom];
    rewrite !round_half_even_inject.
  - destruct (centered_axis W _ HW Hr) as (A & B & _ & C & _). repeat split; tauto || lia.
  - destruct (centered_axis H _ HH Hr) as (A & B & _ & C & _). repeat split; tauto || lia.
Qed.

Lemma crop_is_centered_inside_source_witness :
  exists box,
    crop_box 1 1 5 2 = Ok box /\
    (0 <= round_half_even (PIL.b_left box) <= round_half_even (PIL.b_right box))%Z /\
    (round_half_even (PIL.b_right box) <= 5)%Z /\
    (0 <= round_half_even (PIL.b_top box) <= round_half_even (PIL.b_bottom box))%Z /\
    (round_half_even (PIL.b_bottom box) <= 2)%Z /\
    (-1 <= round_half_even (PIL.b_left box) - (5 - round_half_even (PIL.b_right box)) <= 1)%Z /\
    (-1 <= round_half_even (PIL.b_top box) - (2 - round_half_even (PIL.b_bottom box)) <= 1)%Z.
Proof.
  apply (crop_is_centered_inside_source 1 1 5 2); unfold max_dim; lia.
Defined.

(** Property X3: The cropped image: the dimension that is not narrowed is kept; the
    other one is the new width (height) when source and new size have the
    same parity, and within one pixel of it otherwise, because the two
    half-integer edges are rounded to the even neighbour. *)
Theorem cropped_size_within_one_pixel (w h W H : Z) :
  (0 < w < max_dim)%Z -> (0 < h < max_dim)%Z ->
  (0 < W < max_dim)%Z -> (0 < H < max_dim)%Z ->
  forall (Pixel : Type) (P : PIL.Pillow Pixel) (im : PIL.Image Pixel),
  exists box cropped,
    crop_box w h W H = Ok box /\ PIL.crop im box = Ok cropped /\
    ((exists new_width,
        new_width = to_int (mul_int (round64 (inject_Z w / inject_Z h)) H) /\
        PIL.height cropped = H /\
        (new_width - 1 <= PIL.width cropped <= new_width + 1)%Z /\
        (Z.even (W - new_width) = true -> PIL.width cropped = new_width)) \/
     (exists new_height,
        new_height = to_int (round64 (of_int W / round64 (inject_Z w / inject_Z h))) /\
        PIL.width cropped = W /\
        (new_height - 1 <= PIL.height cropped <= new_height + 1)%Z /\
        (Z.even (H - new_height) = true -> PIL.height cropped = new_height))).
Proof.
  intros Hw Hh HW HH Pixel P im.
  destruct (crop_box_ordered w h W H) as (box & Hbox & Hx & Hy); try tauto.
  exists box. unfold PIL.crop, PIL.Qlt_bool.
  apply Qle_bool_iff in Hx, Hy. rewrite Hx, Hy. cbn [negb].
  eexists. split; [exact Hbox|]. split; [reflexivity|].
  cbn [PIL.width PIL.height].
  destruct (crop_box_branch w h W H Hw Hh HW HH) as [[E Hr]|[E Hr]];
    rewrite E in Hbox; injection Hbox as <-;
    cbn [wide_box tall_box PIL.b_left PIL.b_top PIL.b_right PIL.b_bottom];
    rewrite !round_half_even_inject.
  - left. eexists. split; [reflexivity|].
    destruct (centered_axis W _ HW Hr) as (A & B & C & _ & D).
    split; [lia|]. split; [lia|]. intros He. destruct (D He) as [D1 D2]. lia.
  - right. eexists. split; [reflexivity|].
    destruct (centered_axis H _ HH Hr) as (A & B & C & _ & D).
    split; [lia|]. split; [lia|]. intros He. destruct (D He) as [D1 D2]. lia.
Qed.

Lemma cropped_size_within_one_pixel_witness :
  exists box cropped,
    crop_box 1 1 4 3 = Ok box /\
    PIL.crop (H := raw_codec) (blank 4 3) box = Ok cropped /\
    ((exists new_width,
        new_width = to_int (mul_int (round64 (inject_Z 1 / inject_Z 1)) 3) /\
        PIL.height cropped = 3%Z /\
        (new_width - 1 <= PIL.width cropped <= new_width + 1)%Z /\
        (Z.even (4 - new_width) = true -> PIL.width cropped = new_width)) \/
     (exists new_height,
        new_height = to_int (round64 (of_int 4 / round64 (inject_Z 1 / inject_Z 1))) /\
        PIL.width cropped = 4%Z /\
        (new_height - 1 <= PIL.height cropped <= new_height + 1)%Z /\
        (Z.even (3 - new_height) = true -> PIL.height cropped = new_height))).
Proof.
  apply (cropped_size_within_one_pixel 1 1 4 3); unfold max_dim; lia.
Defined.

(** Property X4: When the target aspect ratio is a float (as for a square target, or
    3 by 4) and the source has the same aspect ratio, the crop rectangle
    is the whole picture. *)
Theorem exact_aspect_keeps_whole_image (w h W H : Z) :
  (0 < w < max_dim)%Z -> (0 < h < max_dim)%Z ->
  (0 < W < max_dim)%Z -> (0 < H < max_dim)%Z ->
  (W * h = w * H)%Z ->
  (round64 (inject_Z w / inject_Z h) == inject_Z w / inject_Z h)%Q ->
  exists box,
    crop_box w h W H = Ok box /\
    (PIL.b_left box == 0)%Q /\ (PIL.b_top box == 0)%Q /\
    (PIL.b_right box == inject_Z W)%Q /\ (PIL.b_bottom box == inject_Z H)%Q /\
    extracted box = (0, 0, W, H)%Z.
Proof.
  intros Hw Hh HW HH E Hexact.
  rewrite crop_box_eq by lia.
  rewrite equal_aspect_takes_else_branch by (lia || exact E).
  set (ta := round64 (inject_Z w / inject_Z h)) in *.
  assert (Hwq : (0 < inject_Z w)%Q) by (apply inject_Z_pos; lia).
  assert (Hhq : (0 < inject_Z h)%Q) by (apply inject_Z_pos; lia).
  assert (HHq : (0 < inject_Z H)%Q) by (apply inject_Z_pos; lia).
  assert (Hq : (of_int W / ta == inject_Z H)%Q).
  { rewrite Hexact, (of_int_dim W HW).
    assert (C : (inject_Z W * inject_Z h == inject_Z w * inject_Z H)%Q).
    { rewrite <- !inject_Z_mult, E. reflexivity. }
    apply Qeq_trans with (inject_Z W * inject_Z h / inject_Z w)%Q; [field; lra|].
    rewrite C. field. lra. }
  assert (Hnh : to_int (round64 (of_int W / ta)) = H).
  { rewrite (round64_comp _ _ Hq). fold (of_int H).
    rewrite to_int_floor.
    - rewrite (Qfloor_comp _ _ (of_int_dim H HH)). apply Qfloor_Z.
    - rewrite (of_int_dim H HH). lra. }
  eexists. split; [reflexivity|].
  unfold tall_box. rewrite Hnh.
  cbn [PIL.b_left PIL.b_top PIL.b_right PIL.b_bottom].
  destruct (centered_offsets_exact H H HH ltac:(lia)) as [Ho Hs].
  assert (Ho0 : (round64 (inject_Z (H - H) / inject_Z 2) == 0)%Q).
  { rewrite Ho, Z.sub_diag. reflexivity. }
  assert (Hs0 : (add_int (round64 (inject_Z (H - H) / inject_Z 2)) H == inject_Z H)%Q).
  { rewrite Hs, Ho0. ring. }
  split; [reflexivity|]. split; [exact Ho0|]. split; [reflexivity|]. split; [exact Hs0|].
  unfold extracted. cbn [PIL.b_left PIL.b_top PIL.b_right PIL.b_bottom].
  rewrite (round_half_even_comp _ _ Ho0), (round_half_even_comp _ _ Hs0).
  rewrite !round_half_even_inject. reflexivity.
Qed.

Lemma exact_aspect_keeps_whole_image_witness :
  exists box,
    crop_box 3 4 600 800 = Ok box /\
    (PIL.b_left box == 0)%Q /\ (PIL.b_top box == 0)%Q /\
    (PIL.b_right box == inject_Z 600)%Q /\ (PIL.b_bottom box == inject_Z 800)%Q /\
    extracted box = (0, 0, 600, 800)%Z.
Proof.
  apply (exact_aspect_keeps_whole_image 3 4 600 800);
    try (unfold max_dim; lia); vm_compute; reflexivity.
Defined.

(** The crop rectangle is computed without error as soon as the target
    height is not 0. *)
Lemma crop_box_total (target_x target_y W H : Z) :
  target_y <> 0%Z -> (0 < W)%Z -> (0 < H)%Z ->
  exists box, crop_box target_x target_y W H = Ok box.
Proof.
  intros Hy HW HH. unfold crop_box.
  rewrite (truediv_int_ok target_x target_y Hy). cbn [mbind PyResult_bind pybind].
  rewrite (truediv_int_ok W H) by lia. cbn [mbind PyResult_bind pybind].
  set (ta := round64 (inject_Z target_x / inject_Z target_y)).
  set (ca := round64 (inject_Z W / inject_Z H)).
  assert (Hca : (0 < ca)%Q) by (apply round64_pos, inject_Z_div_pos; assumption).
  destruct (gt ca ta) eqn:Hgt.
  - rewrite truediv_int_ok by lia. eexists. reflexivity.
  - apply gt_false in Hgt. rewrite int_div_ok by lra.
    cbn [mbind PyResult_bind pybind].
    rewrite truediv_int_ok by lia. eexists. reflexivity.
Qed.

Section TransformerErrors.
Context {Pixel : Type} `{PIL.Pillow Pixel}.

(** The cropped image is not larger than the source. *)
Lemma cropped_within_source (w h : Z) (im : PIL.Image Pixel) :
  (0 < w < max_dim)%Z -> (0 < h < max_dim)%Z ->
  (0 < PIL.width im < max_dim)%Z -> (0 < PIL.height im < max_dim)%Z ->
  exists box cropped,
    crop_box w h (PIL.width im) (PIL.height im) = Ok box /\
    PIL.crop im box = Ok cropped /\
    (PIL.width cropped <= PIL.width im)%Z /\ (PIL.height cropped <= PIL.height im)%Z.
Proof.
  intros Hw Hh HW HH.
  destruct (crop_box_ordered w h (PIL.width im) (PIL.height im))
    as (box & Hbox & Hx & Hy); try tauto.
  exists box. unfold PIL.crop, PIL.Qlt_bool.
  apply Qle_bool_iff in Hx, Hy. rewrite Hx, Hy. cbn [negb].
  eexists. split; [exact Hbox|]. split; [reflexivity|].
  cbn [PIL.width PIL.height].
  destruct (crop_box_branch w h _ _ Hw Hh HW HH) as [[E Hr]|[E Hr]];
    rewrite E in Hbox; injection Hbox as <-;
    cbn [wide_box tall_box PIL.b_left PIL.b_top PIL.b_right PIL.b_bottom];
    rewrite !round_half_even_inject.
  - destruct (centered_axis _ _ HW Hr) as (A & B & _). lia.
  - destruct (centered_axis _ _ HH Hr) as (A & B & _). lia.
Qed.

Lemma resize_overflow (im : PIL.Image Pixel) (w h : Z) :
  (PIL.width im < 2 ^ 31)%Z -> (PIL.height im < 2 ^ 31)%Z ->
  (2 ^ 31 <= w)%Z \/ (2 ^ 31 <= h)%Z ->
  PIL.resize im (w, h) = Raise OverflowError.
Proof.
  intros HW HH Hbig. unfold PIL.resize.
  assert (E : ((w =? PIL.width im) && (h =? PIL.height im))%Z = false).
  { apply andb_false_iff. destruct Hbig; [left | right]; apply Z.eqb_neq; lia. }
  assert (F : PIL.fits_int w && PIL.fits_int h = false).
  { unfold PIL.fits_int. apply andb_false_iff.
    destruct Hbig; [left | right]; apply andb_false_iff; right; apply Z.ltb_ge; lia. }
  rewrite E, F. reflexivity.
Qed.

(** Property X1: The exceptions that leave the transformer before the encoder is
    reached.  A target height of 0 makes it raise [ZeroDivisionError]
    before anything is cropped; with any other target height the crop
    rectangle of a picture of positive size is computed without error,
    also for a zero or negative target width.  An exception of
    [Image.open] leaves the transformer as it is, and so does, for
    positive targets, an exception of the deferred decoding of the pixel
    data, which surfaces in [crop].  A target width or height from [2^31]
    on makes [resize] raise [OverflowError]. *)
Theorem transformer_raises :
  (forall target_x image_bytes image,
     PIL.Image_open image_bytes = Ok image ->
     crop_and_resize_image target_x 0 image_bytes = Raise ZeroDivisionError) /\
  (forall target_x target_y W H,
     (- max_dim < target_x < max_dim)%Z -> (- max_dim < target_y < max_dim)%Z ->
     target_y <> 0%Z -> (0 < W < max_dim)%Z -> (0 < H < max_dim)%Z ->
     exists box, crop_box target_x target_y W H = Ok box) /\
  (forall target_x target_y image_bytes e,
     PIL.Image_open image_bytes = Raise e ->
     crop_and_resize_image target_x target_y image_bytes = Raise e) /\
  (forall w h image_bytes image e,
     (0 < w < max_dim)%Z -> (0 < h < max_dim)%Z ->
     PIL.Image_open image_bytes = Ok image -> PIL.load_error image = Some e ->
     (0 < PIL.width image < max_dim)%Z -> (0 < PIL.height image < max_dim)%Z ->
     crop_and_resize_image w h image_bytes = Raise e) /\
  (forall w h image_bytes image,
     (0 < w < max_dim)%Z -> (0 < h < max_dim)%Z ->
     (2 ^ 31 <= w)%Z \/ (2 ^ 31 <= h)%Z ->
     PIL.Image_open image_bytes = Ok image -> PIL.load_error image = None ->
     (0 < PIL.width image < 2 ^ 31)%Z -> (0 < PIL.height image < 2 ^ 31)%Z ->
     crop_and_resize_image w h image_bytes = Raise OverflowError).
Proof.
  split; [|split; [|split; [|split]]].
  - intros target_x image_bytes image Ho. unfold crop_and_resize_image.
    rewrite Ho. reflexivity.
  - intros target_x target_y W0 H0 _ _ Hy HW HH. apply crop_box_total; lia.
  - intros target_x target_y image_bytes e Ho. unfold crop_and_resize_image.
    rewrite Ho. reflexivity.
  - intros w h image_bytes image e Hw Hh Ho Hl HW HH.
    destruct (cropped_within_source w h image Hw Hh HW HH)
      as (box & cropped & Hb & Hc & _).
    unfold crop_and_resize_image. rewrite Ho. cbn [mbind PyResult_bind pybind].
    rewrite Hb. cbn [mbind PyResult_bind pybind].
    unfold PIL.Image_crop. rewrite Hc, Hl. reflexivity.
  - intros w h image_bytes image Hw Hh Hbig Ho Hl HW HH.
    assert (Hm : (2 ^ 31 < max_dim)%Z) by reflexivity.
    destruct (cropped_within_source w h image Hw Hh) as (box & cropped & Hb & Hc & Cw & Ch);
      [lia | lia |].
    unfold crop_and_resize_image. rewrite Ho. cbn [mbind PyResult_bind pybind].
    rewrite Hb. cbn [mbind PyResult_bind pybind].
    rewrite (Image_crop_loaded _ _ Hl), Hc. cbn [mbind PyResult_bind pybind].
    rewrite resize_overflow by (assumption || lia). reflexivity.
Qed.
End TransformerErrors.

Lemma transformer_raises_witness :
  crop_and_resize_image (H := raw_codec) 600 0 [x01; x02] = Raise ZeroDivisionError /\
  (exists box, crop_box (-5) 3 4 3 = Ok box) /\
  crop_and_resize_image (H := raw_codec) 600 800 [] = Raise UnidentifiedImageError /\
  crop_and_resize_image (H := cut_short_codec) 2 1 [x01; x02; x03; x04]
  = Raise (OSError OtherOSErr "image file is truncated") /\
  crop_and_resize_image (H := raw_codec) (2 ^ 31) 1 [x01; x02] = Raise OverflowError.
Proof.
  destruct (transformer_raises (H := raw_codec)) as (H1 & H2 & H3 & _ & H5).
  destruct (transformer_raises (H := cut_short_codec)) as (_ & _ & _ & H4 & _).
  split; [|split; [|split; [|split]]].
  - apply (H1 600%Z [x01; x02] (PIL.mkImage 2 1 [x01; x02])). reflexivity.
  - apply (H2 (-5)%Z 3%Z 4%Z 3%Z); unfold max_dim; lia.
  - apply (H3 600%Z 800%Z [] UnidentifiedImageError). reflexivity.
  - apply (H4 2%Z 1%Z [x01; x02; x03; x04] (PIL.mkImage 4 1 [x01; x02; x03; x04]));
      try reflexivity; unfold max_dim; cbn [PIL.width PIL.height]; lia.
  - apply (H5 (2 ^ 31)%Z 1%Z [x01; x02] (PIL.mkImage 2 1 [x01; x02]));
      try reflexivity; unfold max_dim; cbn [PIL.width PIL.height]; lia.
Defined.

(** ** The code before the loop *)












(** [os.makedirs] raises for the [printed] directory. *)
Lemma startup_printed_fails args w n abs_path target_dir e :
  2 <= length args ->
  path_taken w (nth 1 args EmptyString) = true ->
  abspath_of w (nth 1 args EmptyString) = Ok abs_path ->
  target_of w abs_path = Some target_dir ->
  makedirs_error w (os_path.join target_dir "printed") = Some e ->
  isinstance_Exception e = true ->
  exists n',
    startup args (quiet w n)
    = (Ok (inl 1%Z), quiet w n',
       target_trace (nth 1 args EmptyString) abs_path target_dir w
       ++ [Ev_makedirs (os_path.join target_dir "printed")] ++ makedirs_report e).
Proof.
  intros H Hp Ha Ht Hm He. unfold startup.
  assert (E : (length args <? 2) = false) by (apply Nat.ltb_ge; exact H).
  rewrite E. unfold os_path_exists. run. fold (path_taken w (nth 1 args EmptyString)).
  rewrite Hp. cbn [negb]. unfold try_except, os_path_abspath. run. rewrite Ha.
  cbn [fst snd]. unfold os_path_isdir. run. fold (is_dir w abs_path).
  unfold target_of, target_trace, makedirs_report in *.
  destruct (is_dir w abs_path).
  - injection Ht as <-. cbn [fst snd]. unfold print at 1. run.
    unfold try_except, os_makedirs, print. run. rewrite Hm. cbn [fst snd].
    rewrite He. destruct (isinstance_OSError e); run; eexists; reflexivity.
  - unfold os_path_isfile. run. fold (is_file w abs_path).
    destruct (is_file w abs_path); [|discriminate Ht].
    injection Ht as <-. cbn [fst snd]. unfold print at 1. run.
    unfold try_except, os_makedirs, print. run. rewrite Hm. cbn [fst snd].
    rewrite He. destruct (isinstance_OSError e); run; eexists; reflexivity.
Qed.

(** [os.makedirs] succeeds for [printed] and raises for [error]. *)
Lemma startup_error_dir_fails args w n abs_path target_dir e :
  2 <= length args ->
  path_taken w (nth 1 args EmptyString) = true ->
  abspath_of w (nth 1 args EmptyString) = Ok abs_path ->
  target_of w abs_path = Some target_dir ->
  makedirs_error w (os_path.join target_dir "printed") = None ->
  makedirs_error w (os_path.join target_dir "error") = Some e ->
  isinstance_Exception e = true ->
  exists n',
    startup args (quiet w n)
    = (Ok (inl 1%Z), quiet (ensure_dir (os_path.join target_dir "printed") w) n',
       target_trace (nth 1 args EmptyString) abs_path target_dir w
       ++ [Ev_makedirs (os_path.join target_dir "printed");
           Ev_print stdout ("Successfully ensured 'printed' folder exists at: "
                            +:+ os_path.join target_dir "printed");
           Ev_makedirs (os_path.join target_dir "error")]
       ++ makedirs_report e).
Proof.
  intros H Hp Ha Ht Hm1 Hm2 He. unfold startup.
  assert (E : (length args <? 2) = false) by (apply Nat.ltb_ge; exact H).
  rewrite E. unfold os_path_exists. run. fold (path_taken w (nth 1 args EmptyString)).
  rewrite Hp. cbn [negb]. unfold try_except, os_path_abspath. run. rewrite Ha.
  cbn [fst snd]. unfold os_path_isdir. run. fold (is_dir w abs_path).
  unfold target_of, target_trace, makedirs_report in *.
  destruct (is_dir w abs_path).
  - injection Ht as <-. cbn [fst snd]. unfold print at 1. run.
    unfold try_except, os_makedirs, print. run. rewrite Hm1. cbn [fst snd].
    run. fold (ensure_dir (os_path.join abs_path "printed") w).
    cbn [ensure_dir set_nodes makedirs_error]. rewrite Hm2. cbn [fst snd].
    rewrite He. destruct (isinstance_OSError e); run; eexists; reflexivity.
  - unfold os_path_isfile. run. fold (is_file w abs_path).
    destruct (is_file w abs_path); [|discriminate Ht].
    injection Ht as <-. cbn [fst snd]. unfold print at 1. run.
    unfold try_except, os_makedirs, print. run. rewrite Hm1. cbn [fst snd].
    run. cbn [ensure_dir set_nodes makedirs_error]. rewrite Hm2. cbn [fst snd].
    rewrite He. destruct (isinstance_OSError e); run; eexists; reflexivity.
Qed.

(** Property X6: When one of the two sub-directories cannot be created, [main] reports
    it on standard error and returns 1 without contacting the printer.  A
    [printed] directory created before [error] failed is left in place. *)
Theorem makedirs_failure_returns_1 :
  (forall fuel env args w n abs_path target_dir e,
     2 <= length args ->
     path_taken w (nth 1 args EmptyString) = true ->
     abspath_of w (nth 1 args EmptyString) = Ok abs_path ->
     target_of w abs_path = Some target_dir ->
     makedirs_error w (os_path.join target_dir "printed") = Some e ->
     isinstance_Exception e = true ->
     exists n',
       main fuel env args (quiet w n)
       = (Ok (Some 1%Z), quiet w n',
          target_trace (nth 1 args EmptyString) abs_path target_dir w
          ++ [Ev_makedirs (os_path.join target_dir "printed")]
          ++ makedirs_report e)) /\
  (forall fuel env args w n abs_path target_dir e,
     2 <= length args ->
     path_taken w (nth 1 args EmptyString) = true ->
     abspath_of w (nth 1 args EmptyString) = Ok abs_path ->
     target_of w abs_path = Some target_dir ->
     makedirs_error w (os_path.join target_dir "printed") = None ->
     makedirs_error w (os_path.join target_dir "error") = Some e ->
     isinstance_Exception e = true ->
     exists n',
       main fuel env args (quiet w n)
       = (Ok (Some 1%Z), quiet (ensure_dir (os_path.join target_dir "printed") w) n',
          target_trace (nth 1 args EmptyString) abs_path target_dir w
          ++ [Ev_makedirs (os_path.join target_dir "printed");
              Ev_print stdout ("Successfully ensured 'printed' folder exists at: "
                               +:+ os_path.join target_dir "printed");
              Ev_makedirs (os_path.join target_dir "error")]
          ++ makedirs_report e)).
Proof.
  split.
  - intros fuel env args w n abs_path target_dir e H Hp Ha Ht Hm He.
    destruct (startup_printed_fails args w n abs_path target_dir e H Hp Ha Ht Hm He)
      as [n' Hs].
    exists n'. apply main_returns_early, Hs.
  - intros fuel env args w n abs_path target_dir e H Hp Ha Ht Hm1 Hm2 He.
    destruct (startup_error_dir_fails args w n abs_path target_dir e H Hp Ha Ht Hm1 Hm2 He)
      as [n' Hs].
    exists n'. apply main_returns_early, Hs.
Qed.

Lemma makedirs_failure_returns_1_witness :
  exists n',
    main 3 (fun _ w => w) ["prog"; "/w"] (quiet read_only 0)
    = (Ok (Some 1%Z), quiet read_only n',
       target_trace "/w" "/w" "/w" read_only
       ++ [Ev_makedirs "/w/printed"]
       ++ makedirs_report (OSError PermissionErr "Permission denied")).
Proof.
  destruct makedirs_failure_returns_1 as [H _].
  apply (H 3 (fun _ w => w) ["prog"; "/w"] read_only 0 "/w" "/w"
           (OSError PermissionErr "Permission denied"));
    [cbn; lia | reflexivity ..].
Defined.

(** Property X7: Lines 97-107.  When the constructor raises, nothing is disconnected;
    when a later call on the printer raises, [disconnect] is called once;
    in both cases the error is reported on standard error, the code is 1
    and [main] returns it without entering the loop. *)
Theorem printer_failure_returns_1 :
  (forall w n e,
     instax_error w 0 = Some e -> isinstance_Exception e = true ->
     connect_printer (quiet w n)
     = (Ok (inl 1%Z), quiet w (n + 2), [Ev_instax InstaxBLE_new; connect_report e])) /\
  (forall w n i e,
     1 <= i <= 3 ->
     (forall j, j < i -> instax_error w j = None) ->
     instax_error w i = Some e -> isinstance_Exception e = true ->
     instax_error w 4 = None ->
     connect_printer (quiet w n)
     = (Ok (inl 1%Z), quiet w (n + i + 3),
        take (S i) connect_trace ++ [connect_report e; Ev_instax instax_disconnect])) /\
  (forall fuel env args m target_dir printed_dir m1 t1 code m2 t2,
     startup args m = (Ok (inr (target_dir, printed_dir)), m1, t1) ->
     connect_printer m1 = (Ok (inl code), m2, t2) ->
     main fuel env args m = (Ok (Some code), m2, t1 ++ t2)).
Proof.
  split; [|split].
  - intros w n e H0 He. unfold connect_printer, try_except, instax, print, connect_report.
    run. rewrite H0. cbn [raise_opt fst snd]. rewrite He. run.
    repeat f_equal. unfold quiet. f_equal. lia.
  - intros w n i e Hi Hlt Hie He H4.
    unfold connect_printer, try_except, instax, print, connect_report.
    run. rewrite (Hlt 0) by lia. cbn [raise_opt fst snd]. run.
    destruct i as [|[|[|[|i]]]]; try lia.
    + rewrite Hie. cbn [raise_opt fst snd]. rewrite He. run. rewrite H4.
      cbn [raise_opt fst snd]. run. repeat f_equal. lia.
    + rewrite (Hlt 1) by lia. cbn [raise_opt fst snd]. run.
      rewrite Hie. cbn [raise_opt fst snd]. rewrite He. run. rewrite H4.
      cbn [raise_opt fst snd]. run. repeat f_equal. lia.
    + rewrite (Hlt 1) by lia. cbn [raise_opt fst snd]. run.
      rewrite (Hlt 2) by lia. cbn [raise_opt fst snd]. run.
      rewrite Hie. cbn [raise_opt fst snd]. rewrite He. run. rewrite H4.
      cbn [raise_opt fst snd]. run. repeat f_equal. lia.
  - intros fuel env args m target_dir printed_dir m1 t1 code m2 t2 Hs Hc.
    unfold main, mbind, M_bind. rewrite Hs, Hc. cbn. rewrite app_nil_r. reflexivity.
Qed.

Lemma printer_failure_returns_1_witness :
  connect_printer (quiet unreachable_printer 0)
  = (Ok (inl 1%Z), quiet unreachable_printer 4,
     [Ev_instax InstaxBLE_new; Ev_instax instax_connect;
      connect_report (OSError OtherOSErr "device not found");
      Ev_instax instax_disconnect]).
Proof.
  destruct printer_failure_returns_1 as (_ & H & _).
  apply (H unreachable_printer 0 1 (OSError OtherOSErr "device not found"));
    [lia | | reflexivity ..].
  intros j Hj. destruct j; [reflexivity | lia].
Defined.

(** Property X8: Lines 48-52: when [os.path.abspath] raises, [main] reports it on
    standard error and returns 1; nothing is created and the printer is
    not contacted. *)
Theorem abspath_failure_returns_1 (fuel : nat) (env : nat -> World -> World)
    (args : list string) (w : World) (n : nat) (e : Exn) :
  2 <= length args ->
  path_taken w (nth 1 args EmptyString) = true ->
  abspath_of w (nth 1 args EmptyString) = Raise e ->
  isinstance_Exception e = true ->
  main fuel env args (quiet w n)
  = (Ok (Some 1%Z), quiet w (n + 3),
     [Ev_exists (nth 1 args EmptyString); Ev_abspath (nth 1 args EmptyString);
      Ev_print stderr ("Error resolving absolute path: " +:+ exn_text e)]).
Proof.
  intros H Hp Ha He. apply main_returns_early. unfold startup.
  assert (E : (length args <? 2) = false) by (apply Nat.ltb_ge; exact H).
  rewrite E. unfold os_path_exists. run. fold (path_taken w (nth 1 args EmptyString)).
  rewrite Hp. cbn [negb]. unfold try_except, os_path_abspath. run. rewrite Ha.
  cbn [fst snd]. rewrite He. unfold print. run. cbn. repeat f_equal. lia.
Qed.

Lemma abspath_failure_returns_1_witness :
  main 3 (fun _ w => w) ["prog"; "/w"] (quiet unresolvable 0)
  = (Ok (Some 1%Z), quiet unresolvable (0 + 3),
     [Ev_exists "/w"; Ev_abspath "/w";
      Ev_print stderr ("Error resolving absolute path: "
                       +:+ exn_text (OSError OtherOSErr "getcwd failed"))]).
Proof.
  apply (abspath_failure_returns_1 3 (fun _ w => w) ["prog"; "/w"] unresolvable 0
           (OSError OtherOSErr "getcwd failed")); [cbn; lia | reflexivity ..].
Defined.

Lemma files_with_mtime_paths w target_dir :
  listing_ok w -> NoDup (map fst (files_with_mtime_of w target_dir)).
Proof.
  intros [Hnd Hall]. unfold files_with_mtime_of.
  assert (Hplain : Forall (fun f => "/"%char ∉ Str.to_list f) (map e_name (entries w))).
  { apply Forall_forall. intros f Hf. apply list_elem_of_fmap in Hf as (e & -> & He).
    rewrite Forall_forall in Hall. auto. }
  clear Hall. induction (map e_name (entries w)) as [|f names IH]; [constructor|].
  apply NoDup_cons in Hnd as [Hf Hnd]. apply Forall_cons in Hplain as [Hpf Hplain].
  cbn [omap list_omap].
  destruct (stat_entry w (os_path.join target_dir f)) as [x|] eqn:Hs; [|auto].
  apply stat_entry_some in Hs as (_ & mtime & -> & _).
  cbn [map fst]. apply NoDup_cons. split; [|auto].
  intros Hin. apply Hf.
  apply list_elem_of_fmap in Hin as ([p t] & Hp & Hin). cbn [fst] in Hp. subst p.
  apply list_elem_of_omap in Hin as (g & Hg & Hs).
  apply stat_entry_some in Hs as (_ & _ & [= Hj _] & _).
  rewrite Forall_forall in Hplain.
  apply join_inj in Hj; [|exact Hpf|apply Hplain, Hg]. subst g. exact Hg.
Qed.

(** Property X12: In a turn whose listing succeeds, the files that are probed are the
    image files of the listing that are regular files with a readable
    modification time: each of them once and no other file. *)
Theorem every_image_is_probed_once (target_dir printed_dir : string) (w : World) (n : nat) :
  listdir_error w = None -> watched w = target_dir ->
  exists w' n' t,
    poll target_dir printed_dir (quiet w n) = (Ok tt, quiet w' n', t) /\
    probes t ≡ₚ filter (fun f => is_image f = true)
                  (map fst (files_with_mtime_of w target_dir)) /\
    (listing_ok w -> NoDup (probes t)).
Proof.
  intros Hl Hw.
  destruct (poll_run target_dir printed_dir w n Hl Hw) as (w' & n' & t & Hrun & Hp).
  exists w', n', t. split; [exact Hrun|].
  assert (Hperm : probes t ≡ₚ filter (fun f => is_image f = true)
                               (map fst (files_with_mtime_of w target_dir))).
  { rewrite Hp. unfold select_images. cbv zeta.
    rewrite (sort_by_mtime_perm (files_with_mtime_of w target_dir)). reflexivity. }
  split; [exact Hperm|]. intros Hok. rewrite Hperm.
  apply NoDup_filter, files_with_mtime_paths, Hok.
Qed.

Lemma every_image_is_probed_once_witness :
  exists w' n' t,
    poll "/w" "/w/printed" (quiet shelf 0) = (Ok tt, quiet w' n', t) /\
    probes t ≡ₚ ["/w/b.png"; "/w/c.gif"; "/w/a.jpg"] /\
    NoDup (probes t).
Proof.
  destruct (every_image_is_probed_once "/w" "/w/printed" shelf 0 eq_refl eq_refl)
    as (w' & n' & t & H1 & H2 & H3).
  exists w', n', t. split; [exact H1|]. split; [|exact (H3 shelf_listing_ok)].
  rewrite H2. vm_compute. reflexivity.
Defined.

(** ** What a turn does to the watch directory *)

Lemma entry_at_none w p :
  entry_at w p = None -> remaining w [p] = entries w.
Proof.
  unfold entry_at, remaining. intros H. cbn [existsb].
  induction (entries w) as [|e l IH]; [reflexivity|]. cbn [List.find List.filter] in *.
  destruct (String.eqb (os_path.join (watched w) (e_name e)) p); [discriminate H|].
  cbn. rewrite IH by exact H. reflexivity.
Qed.

Lemma remove_entry_remaining w p : remove_entry w p = remaining w [p].
Proof.
  unfold remove_entry, remaining. apply List.filter_ext. intros e.
  cbn [existsb]. rewrite orb_false_r. reflexivity.
Qed.

Lemma remaining_cons w p l w1 :
  watched w1 = watched w -> entries w1 = remaining w [p] ->
  remaining w1 l = remaining w (p :: l).
Proof.
  intros Hw He. unfold remaining in *. rewrite He, Hw. clear He Hw.
  cbn [existsb].
  induction (entries w) as [|e es IH]; [reflexivity|]. cbn [List.filter].
  destruct (String.eqb (os_path.join (watched w) (e_name e)) p); cbn [orb negb].
  - exact IH.
  - cbn [List.filter]. rewrite IH. reflexivity.
Qed.

Lemma archive_grows_refl printed_dir w : archive_grows printed_dir w w.
Proof.
  split; [reflexivity|]. split; [reflexivity|]. intros q k H1 H2. congruence.
Qed.

Lemma archive_grows_trans printed_dir w1 w2 w3 :
  archive_grows printed_dir w1 w2 -> archive_grows printed_dir w2 w3 ->
  archive_grows printed_dir w1 w3.
Proof.
  intros (W1 & S1 & N1) (W2 & S2 & N2). split; [congruence|].
  split; [etrans; eassumption|]. intros q k Hq Hk.
  destruct (nodes w2 !! q) as [k2|] eqn:E2.
  - pose proof (lookup_weaken _ _ _ _ E2 S2) as E3.
    rewrite Hk in E3. injection E3 as ->. eauto.
  - eauto.
Qed.

Lemma archive_grows_moved printed_dir src dst w :
  directly_in printed_dir dst -> path_taken w dst = false ->
  archive_grows printed_dir w (moved src dst w).
Proof.
  intros Hd Hf. unfold path_taken in Hf. apply orb_false_iff in Hf as [Hf _].
  apply bool_decide_eq_false in Hf.
  assert (Hn : nodes w !! dst = None).
  { destruct (nodes w !! _); [exfalso; apply Hf; eauto | reflexivity]. }
  split; [reflexivity|]. cbn [moved nodes]. split.
  - apply insert_subseteq. exact Hn.
  - intros q k Hq Hk. destruct (decide (dst = q)) as [<-|Hne].
    + rewrite lookup_insert_eq in Hk. injection Hk as <-. auto.
    + rewrite lookup_insert_ne in Hk by exact Hne. congruence.
Qed.

Lemma remaining_ext w g1 g2 :
  (forall q, q ∈ g1 <-> q ∈ g2) -> remaining w g1 = remaining w g2.
Proof.
  intros H. unfold remaining. apply List.filter_ext. intros e. f_equal.
  apply eq_true_iff_eq. rewrite !existsb_exists.
  split; intros (p & Hp & Heq); exists p; (split; [|exact Heq]);
    apply list_elem_of_In, H, list_elem_of_In, Hp.
Qed.

Lemma entry_at_moved_ne src dst w q :
  q <> src -> entry_at (moved src dst w) q = entry_at w q.
Proof.
  intros Hne. unfold entry_at, moved, remove_entry. cbn [watched entries].
  induction (entries w) as [|x l IH]; [reflexivity|]. cbn [List.filter List.find].
  destruct (String.eqb (os_path.join (watched w) (e_name x)) src) eqn:Es; cbn [negb].
  - destruct (String.eqb (os_path.join (watched w) (e_name x)) q) eqn:Eq; [|exact IH].
    apply String.eqb_eq in Es, Eq. congruence.
  - cbn [List.find]. rewrite IH. reflexivity.
Qed.

(** The files of [image_files] that are movable leave the watch directory
    one after the other; the others stay. *)
Lemma for_each_effect printed_dir image_files w n :
  exists w' n' t,
    for_each image_files (process_file printed_dir) (quiet w n) = (Ok tt, quiet w' n', t) /\
    entries w' = remaining w (List.filter (movable w) image_files) /\
    archive_grows printed_dir w w'.
Proof.
  revert w n. induction image_files as [|p l IH]; intros w n; cbn [for_each].
  { exists w, n, []. split; [reflexivity|]. split; [|apply archive_grows_refl].
    unfold remaining. cbn [List.filter existsb negb]. symmetry. apply forallb_filter_id.
    apply forallb_forall. reflexivity. }
  assert (Hstay : forall n1 t1,
    process_file printed_dir p (quiet w n) = (Ok tt, quiet w n1, t1) ->
    movable w p = false ->
    exists w' n' t,
      (process_file printed_dir p;; for_each l (process_file printed_dir)) (quiet w n)
      = (Ok tt, quiet w' n', t) /\
      entries w' = remaining w (List.filter (movable w) (p :: l)) /\
      archive_grows printed_dir w w').
  { intros n1 t1 Hrun Hm. destruct (IH w n1) as (w' & n' & t & Hrest & He' & Hg).
    exists w', n', (t1 ++ t).
    split; [rewrite (bind_run _ _ _ _ _ _ Hrun), Hrest; reflexivity|].
    cbn [List.filter]. rewrite Hm. auto. }
  destruct (probe_result w p) as [[]|kind msg] eqn:Hp.
  2:{ eapply Hstay; [apply (process_file_skipped _ _ _ _ _ _ Hp)|].
      unfold movable, probe_result in *. destruct (entry_at w p); [|reflexivity].
      rewrite Hp. reflexivity. }
  unfold probe_result in Hp. destruct (entry_at w p) as [e|] eqn:He; [|discriminate Hp].
  destruct (process_file_available printed_dir p w n e He Hp)
    as (dest & checks & Hres & Hrun).
  destruct (e_move e) as [[]|kind msg] eqn:Hm; cbn [after_move] in Hrun.
  2:{ eapply Hstay; [exact Hrun|]. unfold movable. rewrite He, Hp, Hm. reflexivity. }
  destruct (resolve_eq printed_dir (os_path.basename p) (basename_no_sep p) w)
    as (k & Hres' & Hfree & _).
  rewrite Hres in Hres'. injection Hres' as ->.
  set (dest := candidate _ _ _ _ k) in *.
  assert (Hin : directly_in printed_dir dest)
    by apply candidate_directly_in, basename_no_sep.
  destruct (IH (moved p dest w) (n + length checks + 5)) as (w' & n' & t & Hrest & He' & Hg).
  exists w', n', (available_trace p dest checks (OSOk tt) ++ t).
  split; [rewrite (bind_run _ _ _ _ _ _ Hrun), Hrest; reflexivity|]. split.
  - rewrite He'. cbn [List.filter].
    assert (Hmv : movable w p = true) by (unfold movable; rewrite He, Hp, Hm; reflexivity).
    rewrite Hmv.
    rewrite (remaining_cons w p _ (moved p dest w) eq_refl (remove_entry_remaining w p)).
    apply remaining_ext. intros q.
    rewrite !elem_of_cons, !list_elem_of_In, !filter_In.
    destruct (decide (q = p)) as [->|Hne]; [tauto|].
    unfold movable. rewrite (entry_at_moved_ne p dest w q Hne). tauto.
  - eapply archive_grows_trans; [|exact Hg].
    apply archive_grows_moved; [exact Hin | exact Hfree].
Qed.

Lemma remaining_elem w gone e :
  e ∈ remaining w gone <->
  e ∈ entries w /\ os_path.join (watched w) (e_name e) ∉ gone.
Proof.
  unfold remaining. rewrite !list_elem_of_In, filter_In, negb_true_iff.
  rewrite <- not_true_iff_false, existsb_exists.
  split; intros [Hin Hn]; (split; [exact Hin|]).
  - intros Hg. apply Hn. exists (os_path.join (watched w) (e_name e)).
    split; [exact Hg | apply String.eqb_refl].
  - intros (p & Hp & Heq). apply String.eqb_eq in Heq. subst p.
    apply Hn, Hp.
Qed.

Lemma remaining_listing_ok w gone w' :
  listing_ok w -> entries w' = remaining w gone -> listing_ok w'.
Proof.
  intros [Hnd Hall] He. unfold listing_ok. rewrite He. unfold remaining. split.
  - clear Hall. induction (entries w) as [|e l IH]; [constructor|].
    cbn [map] in Hnd. apply NoDup_cons in Hnd as [Hn Hnd]. cbn [List.filter].
    destruct (negb _); [|auto]. cbn [map]. apply NoDup_cons. split; [|auto].
    intros Hin. apply Hn. apply list_elem_of_fmap in Hin as (x & Hx & Hin).
    apply list_elem_of_fmap. exists x. split; [exact Hx|].
    apply list_elem_of_In in Hin. apply filter_In in Hin as [Hin _].
    apply list_elem_of_In, Hin.
  - apply Forall_forall. intros e Hin. rewrite Forall_forall in Hall. apply Hall.
    apply list_elem_of_In in Hin. apply filter_In in Hin as [Hin _].
    apply list_elem_of_In, Hin.
Qed.

Lemma selected_is_listed w target_dir f :
  f ∈ select_images (files_with_mtime_of w target_dir) ->
  exists e, e ∈ entries w /\ f = os_path.join target_dir (e_name e).
Proof.
  intros Hf. apply select_images_elem in Hf as [_ [mtime Hin]].
  unfold files_with_mtime_of in Hin. apply list_elem_of_omap in Hin as (name & Hn & Hs).
  apply list_elem_of_fmap in Hn as (e & -> & He).
  apply stat_entry_some in Hs as (_ & _ & [= -> _] & _).
  eauto.
Qed.

(** Property X9: What a turn of the loop does to the file system when the listing
    succeeds.  The selected files that are there, free and movable leave
    the watch directory; all other entries stay, in their order.  Every
    path that existed still exists, and the new paths are regular files
    directly in the printed archive: the printed directory joined with a
    file name, a name without separator.  When every selected file was
    movable, a second listing finds no image to process. *)
Theorem poll_moves_the_movable (target_dir printed_dir : string) (w : World) (n : nat) :
  listdir_error w = None -> watched w = target_dir ->
  exists w' n' t,
    poll target_dir printed_dir (quiet w n) = (Ok tt, quiet w' n', t) /\
    entries w'
    = remaining w (List.filter (movable w)
                     (select_images (files_with_mtime_of w target_dir))) /\
    archive_grows printed_dir w w' /\
    (listing_ok w ->
     (forall p, p ∈ select_images (files_with_mtime_of w target_dir) ->
                movable w p = true) ->
     select_images (files_with_mtime_of w' target_dir) = []).
Proof.
  intros Hl Hw. unfold poll.
  destruct (listing_run target_dir w n
    (fun e =>
       if isinstance_Exception e
       then Some (print stderr ("Error reading directory '" +:+ target_dir
                                +:+ "': " +:+ exn_text e);;
                  time_sleep 5;; mret None)
       else None) Hl Hw) as (n1 & t1 & H1 & _).
  rewrite (bind_run _ _ _ _ _ _ H1).
  set (image_files := select_images (files_with_mtime_of w target_dir)) in *.
  assert (Hfound : exists n2 t2,
    (if bool_decide (image_files = []) then mret tt
     else print stdout ("Found " +:+ pretty (length image_files)
                        +:+ " image(s) to process...")) (quiet w n1)
    = (Ok tt, quiet w n2, t2)).
  { case_bool_decide.
    - exists n1, []. reflexivity.
    - unfold print. rewrite call_run. do 2 eexists. reflexivity. }
  destruct Hfound as (n2 & t2 & Hf).
  rewrite (bind_run _ _ _ _ _ _ Hf).
  destruct (for_each_effect printed_dir image_files w n2)
    as (w3 & n3 & t3 & H3 & He & Hg).
  rewrite (bind_run _ _ _ _ _ _ H3). unfold time_sleep. rewrite call_run.
  cbn [fst snd]. do 3 eexists. split; [reflexivity|].
  split; [exact He|]. split; [exact Hg|].
  intros Hok Hall.
  destruct Hg as (Hw3 & _).
  pose proof (remaining_listing_ok w _ w3 Hok He) as Hok3.
  destruct (select_images (files_with_mtime_of w3 target_dir)) as [|f l] eqn:Es;
    [reflexivity|]. exfalso.
  assert (Hf3 : f ∈ select_images (files_with_mtime_of w3 target_dir))
    by (rewrite Es; left).
  destruct (selected_is_listed _ _ _ Hf3) as (e & Hin & ->).
  rewrite He in Hin.
  apply remaining_elem in Hin as Hin'. destruct Hin' as [Hinw Hgone]. apply Hgone.
  assert (Hsel : os_path.join (watched w) (e_name e) ∈ image_files).
  { unfold image_files. rewrite <- Hw. apply (selected_iff w e Hok Hinw).
    rewrite <- He in Hin. rewrite <- Hw, <- Hw3 in Hf3.
    apply (selected_iff w3 e Hok3 Hin). exact Hf3. }
  apply list_elem_of_In, filter_In. split; [apply list_elem_of_In, Hsel|].
  apply Hall, Hsel.
Qed.

Lemma poll_moves_the_movable_witness :
  (exists w' n' t,
     poll "/w" "/w/printed" (quiet shelf 0) = (Ok tt, quiet w' n', t) /\
     entries w' = [plain_file "notes.txt" 0] /\
     archive_grows "/w/printed" shelf w') /\
  (exists w' n' t,
     poll "/w" "/w/printed" (quiet troubled 0) = (Ok tt, quiet w' n', t) /\
     entries w' = entries troubled /\
     archive_grows "/w/printed" troubled w').
Proof.
  split.
  - destruct (poll_moves_the_movable "/w" "/w/printed" shelf 0 eq_refl eq_refl)
      as (w' & n' & t & H1 & H2 & H3 & _).
    exists w', n', t. split; [exact H1|]. split; [|exact H3].
    rewrite H2. vm_compute. reflexivity.
  - destruct (poll_moves_the_movable "/w" "/w/printed" troubled 0 eq_refl eq_refl)
      as (w' & n' & t & H1 & H2 & H3 & _).
    exists w', n', t. split; [exact H1|]. split; [|exact H3].
    rewrite H2. vm_compute. reflexivity.
Defined.

(** ** The shape of a turn *)

Lemma read_directory_trace target_dir names acc w n :
  read_directory target_dir names acc (quiet w n)
  = (Ok (acc ++ omap (fun f => stat_entry w (os_path.join target_dir f)) names),
     quiet w (n + length (flat_map (fun f => stat_trace w (os_path.join target_dir f)) names)),
     flat_map (fun f => stat_trace w (os_path.join target_dir f)) names).
Proof.
  revert acc n. induction names as [|f rest IH]; intros acc n.
  - cbn. rewrite app_nil_r, Nat.add_0_r. reflexivity.
  - cbn [read_directory omap list_omap flat_map].
    set (step := try_except _ _).
    assert (Hstep :
      step (quiet w n)
      = (Ok (acc ++ option_list (stat_entry w (os_path.join target_dir f))),
         quiet w (n + length (stat_trace w (os_path.join target_dir f))),
         stat_trace w (os_path.join target_dir f))).
    { unfold step, try_except, os_path_isfile, os_path_getmtime, stat_entry, stat_trace,
        is_file.
      run. destruct (entry_at w (os_path.join target_dir f)) as [e|] eqn:He.
      - destruct (e_isfile e).
        + run. rewrite He. destruct (e_getmtime e) as [mtime|kind msg]; cbn;
            rewrite ?app_nil_r; repeat f_equal; lia.
        + cbn. rewrite ?app_nil_r. repeat f_equal; lia.
      - case_bool_decide; run; rewrite ?He; cbn; rewrite ?app_nil_r;
          repeat f_equal; lia. }
    rewrite (bind_run _ _ _ _ _ _ Hstep), IH. cbn [fst snd].
    rewrite length_app, Nat.add_assoc.
    destruct (stat_entry w _); cbn [option_list]; rewrite <- ?app_assoc, ?app_nil_r;
      reflexivity.
Qed.

Lemma process_file_block printed_dir file_path w n :
  exists w' n' t,
    process_file printed_dir file_path (quiet w n) = (Ok tt, quiet w' n', t) /\
    file_block printed_dir file_path t.
Proof.
  destruct (probe_result w file_path) as [[]|kind msg] eqn:Hp.
  - unfold probe_result in Hp. destruct (entry_at w file_path) as [e|] eqn:He;
      [|discriminate].
    destruct (process_file_available printed_dir file_path w n e He Hp)
      as (dest & checks & Hres & ->).
    destruct (resolve_eq printed_dir (os_path.basename file_path)
                (basename_no_sep file_path) w) as (k & Hres' & _).
    rewrite Hres in Hres'. injection Hres' as ->.
    do 3 eexists. split; [reflexivity|]. right. do 3 eexists. split; [reflexivity|].
    apply candidate_directly_in, basename_no_sep.
  - rewrite (process_file_skipped _ _ _ _ _ _ Hp).
    do 3 eexists. split; [reflexivity|]. left. eauto.
Qed.

Lemma for_each_blocks printed_dir l w n :
  exists w' n' blocks,
    for_each l (process_file printed_dir) (quiet w n) = (Ok tt, quiet w' n', concat blocks) /\
    Forall2 (file_block printed_dir) l blocks.
Proof.
  revert w n. induction l as [|f l IH]; intros w n; cbn [for_each].
  - exists w, n, []. split; [reflexivity | constructor].
  - destruct (process_file_block printed_dir f w n) as (w1 & n1 & t1 & H1 & B1).
    destruct (IH w1 n1) as (w2 & n2 & blocks & H2 & B2).
    exists w2, n2, (t1 :: blocks). split.
    + rewrite (bind_run _ _ _ _ _ _ H1), H2. reflexivity.
    + constructor; assumption.
Qed.

(** A listing that fails because the directory is not there. *)
Lemma poll_directory_missing target_dir printed_dir w n :
  listdir_error w = None -> watched w <> target_dir ->
  poll target_dir printed_dir (quiet w n)
  = (Ok tt, quiet w (n + 3), listing_failure_trace target_dir target_dir).
Proof.
  intros Hl Hw. unfold poll, try_except, os_listdir. run. rewrite Hl.
  assert (E : String.eqb target_dir (watched w) = false)
    by (apply String.eqb_neq; congruence).
  rewrite E. cbn. unfold print, time_sleep. run. cbn. repeat f_equal. lia.
Qed.

Lemma listing_trace target_dir w n (handler : Exn -> option (M (option (list (string * Q))))) :
  listdir_error w = None -> watched w = target_dir ->
  exists n1,
    try_except
      (names ← os_listdir target_dir;
       l ← read_directory target_dir names [];
       mret (Some l)) handler (quiet w n)
    = (Ok (Some (files_with_mtime_of w target_dir)), quiet w n1,
       Ev_listdir target_dir
       :: flat_map (fun f => stat_trace w (os_path.join target_dir f))
            (map e_name (entries w))).
Proof.
  intros Hl Hw. unfold try_except, os_listdir. run. rewrite Hl, Hw.
  rewrite String.eqb_refl, read_directory_trace. cbn [fst snd app].
  rewrite app_nil_r. eexists. reflexivity.
Qed.

Lemma poll_turn target_dir printed_dir w n :
  exists w' n' t,
    poll target_dir printed_dir (quiet w n) = (Ok tt, quiet w' n', t) /\
    turn_trace target_dir printed_dir w t.
Proof.
  destruct (listdir_error w) as [[kind msg]|] eqn:Hl.
  { rewrite (poll_listdir_failure _ _ _ _ _ _ Hl).
    do 3 eexists. split; [reflexivity|]. left. eauto. }
  destruct (decide (watched w = target_dir)) as [Hw|Hw].
  2:{ rewrite (poll_directory_missing _ _ _ _ Hl Hw).
      do 3 eexists. split; [reflexivity|]. left. eauto. }
  unfold poll.
  destruct (listing_trace target_dir w n
    (fun e =>
       if isinstance_Exception e
       then Some (print stderr ("Error reading directory '" +:+ target_dir
                                +:+ "': " +:+ exn_text e);;
                  time_sleep 5;; mret None)
       else None) Hl Hw) as (n1 & H1).
  rewrite (bind_run _ _ _ _ _ _ H1).
  set (image_files := select_images (files_with_mtime_of w target_dir)).
  assert (Hfound : exists n2,
    (if bool_decide (image_files = []) then mret tt
     else print stdout ("Found " +:+ pretty (length image_files)
                        +:+ " image(s) to process...")) (quiet w n1)
    = (Ok tt, quiet w n2, found_trace image_files)).
  { case_bool_decide as Hi.
    - rewrite Hi. eexists. reflexivity.
    - unfold print. rewrite call_run. eexists. unfold found_trace.
      destruct image_files; [contradiction | reflexivity]. }
  destruct Hfound as (n2 & Hf).
  rewrite (bind_run _ _ _ _ _ _ Hf).
  destruct (for_each_blocks printed_dir image_files w n2) as (w3 & n3 & blocks & H3 & B3).
  rewrite (bind_run _ _ _ _ _ _ H3). unfold time_sleep. rewrite call_run.
  cbn [fst snd]. do 3 eexists. split; [reflexivity|]. right.
  exists blocks. split; [|exact B3].
  reflexivity.
Qed.

(** Property X10: The trace of the loop, turn by turn.  A turn starts with the one
    listing of the target directory and ends with a sleep: of five
    seconds after a failed listing, else of one second, after the stat
    calls in listing order, the message about the number of images, and
    one block per image file in processing order. *)
Theorem loop_is_a_sequence_of_turns (fuel k : nat) (env : nat -> World -> World)
    (target_dir printed_dir : string) (w : World) (n : nat) :
  exists w' n' turns,
    while_true fuel k env (poll target_dir printed_dir) (quiet w n)
    = (Ok false, quiet w' n', concat turns) /\
    length turns = fuel /\
    Forall (fun t => exists wi, turn_trace target_dir printed_dir wi t) turns.
Proof.
  revert k w n. induction fuel as [|fuel IH]; intros k w n; cbn [while_true].
  - exists w, n, []. split; [reflexivity|]. split; [reflexivity | constructor].
  - rewrite (bind_run _ _ _ _ _ _ (interfere_run (env k) (quiet w n))).
    cbn [quiet world ticks sigint]. fold (quiet (env k w) n).
    destruct (poll_turn target_dir printed_dir (env k w) n) as (w1 & n1 & t1 & H1 & T1).
    rewrite (bind_run _ _ _ _ _ _ H1).
    destruct (IH (S k) w1 n1) as (w2 & n2 & turns & H2 & L2 & T2). rewrite H2.
    cbn [fst snd app]. exists w2, n2, (t1 :: turns).
    split; [reflexivity|]. split; [cbn; congruence|].
    constructor; [eauto | exact T2].
Qed.

Lemma move_in_block printed_dir p b src dst :
  file_block printed_dir p b -> Ev_move src dst ∈ b ->
  src = p /\ exists checks r, b = available_trace src dst checks r.
Proof.
  intros [(kind & msg & ->)|(dest & checks & r & -> & _)] Hin.
  - exfalso. unfold skip_trace in Hin.
    destruct kind; repeat (apply elem_of_cons in Hin as [Hin|Hin]; [discriminate Hin|]);
      inversion Hin.
  - unfold available_trace in Hin.
    apply elem_of_app in Hin as [Hin|Hin].
    { repeat (apply elem_of_cons in Hin as [Hin|Hin]; [discriminate Hin|]). inversion Hin. }
    apply elem_of_app in Hin as [Hin|Hin].
    { apply list_elem_of_fmap in Hin as (x & Hx & _). discriminate Hx. }
    apply elem_of_cons in Hin as [Hin|Hin].
    + injection Hin as -> ->. eauto.
    + exfalso. apply elem_of_cons in Hin as [Hin|Hin].
      * destruct r; discriminate Hin.
      * apply elem_of_cons in Hin as [Hin|Hin]; [discriminate Hin | inversion Hin].
Qed.

Lemma move_in_blocks printed_dir l blocks src dst :
  Forall2 (file_block printed_dir) l blocks -> Ev_move src dst ∈ concat blocks ->
  exists t1 t2 checks r, concat blocks = t1 ++ available_trace src dst checks r ++ t2.
Proof.
  induction 1 as [|p b l blocks Hb _ IH]; cbn [concat]; intros Hin; [inversion Hin|].
  apply elem_of_app in Hin as [Hin|Hin].
  - destruct (move_in_block _ _ _ _ _ Hb Hin) as (_ & checks & r & ->).
    exists [], (concat blocks), checks, r. reflexivity.
  - destruct (IH Hin) as (t1 & t2 & checks & r & ->).
    exists (b ++ t1), t2, checks, r. rewrite <- app_assoc. reflexivity.
Qed.

(** Property X11: A file is moved only right after its own lock probe has succeeded:
    every move of a turn sits in a block that starts with
    [os.rename(src, src)], goes on with the message and the existence
    tests of the naming rule, and then moves [src]. *)
Theorem move_follows_probe (target_dir printed_dir : string) (w : World) (n : nat)
    (src dst : string) :
  Ev_move src dst ∈ (poll target_dir printed_dir (quiet w n)).2 ->
  exists t1 t2 checks r,
    (poll target_dir printed_dir (quiet w n)).2
    = t1 ++ available_trace src dst checks r ++ t2.
Proof.
  destruct (poll_turn target_dir printed_dir w n) as (w' & n' & t & -> & Ht).
  cbn [snd]. intros Hin.
  destruct Ht as [(msg & ->)|(blocks & -> & Hb)].
  - exfalso. unfold listing_failure_trace in Hin.
    repeat (apply elem_of_cons in Hin as [Hin|Hin]; [discriminate Hin|]). inversion Hin.
  - apply elem_of_cons in Hin as [Hin|Hin]; [discriminate Hin|].
    apply elem_of_app in Hin as [Hin|Hin].
    { exfalso. apply list_elem_of_In, in_flat_map in Hin as (f & _ & Hin).
      unfold stat_trace in Hin. destruct Hin as [Hin|Hin]; [discriminate Hin|].
      destruct (is_file w _); [destruct Hin as [Hin|[]]; discriminate Hin | destruct Hin]. }
    apply elem_of_app in Hin as [Hin|Hin].
    { exfalso. unfold found_trace in Hin. destruct (select_images _); [inversion Hin|].
      apply elem_of_cons in Hin as [Hin|Hin]; [discriminate Hin | inversion Hin]. }
    apply elem_of_app in Hin as [Hin|Hin].
    2:{ exfalso. apply elem_of_cons in Hin as [Hin|Hin]; [discriminate Hin | inversion Hin]. }
    destruct (move_in_blocks _ _ _ _ _ Hb Hin) as (t1 & t2 & checks & r & E).
    rewrite E.
    exists (Ev_listdir target_dir
            :: flat_map (fun f => stat_trace w (os_path.join target_dir f))
                 (map e_name (entries w))
            ++ found_trace (select_images (files_with_mtime_of w target_dir)) ++ t1),
      (t2 ++ [Ev_sleep 1]), checks, r.
    cbn [app]. rewrite <- !app_assoc. reflexivity.
Qed.

Lemma move_follows_probe_witness :
  exists t1 t2 checks r,
    (poll "/w" "/w/printed" (quiet shelf 0)).2
    = t1 ++ available_trace "/w/a.jpg" "/w/printed/a.jpg" checks r ++ t2.
Proof.
  apply (move_follows_probe "/w" "/w/printed" shelf 0 "/w/a.jpg" "/w/printed/a.jpg").
  vm_compute. repeat constructor.
Defined.

(** ** The archived name *)

Lemma basename_join printed_dir name :
  "/"%char ∉ Str.to_list name -> os_path.basename (os_path.join printed_dir name) = name.
Proof.
  intros Hn. rewrite (join_relative _ _ (relative_no_sep _ Hn)).
  unfold os_path.basename, os_path.sep.
  destruct (join_prefix_cases printed_dir) as [->|[X ->]].
  - change (EmptyString +:+ name) with name.
    rewrite (rpartition_fresh _ _ Hn). reflexivity.
  - rewrite append_assoc. change ("/" +:+ name) with (String "/"%char name).
    rewrite (rpartition_app _ _ _ Hn). reflexivity.
Qed.

Lemma all_chars_spec c s : Str.all_chars c s = true -> forall x, x ∈ Str.to_list s -> x = c.
Proof.
  induction s as [|a s IH]; cbn; intros H x Hx; [inversion Hx|].
  apply andb_true_iff in H as [Ha Hs]. apply Ascii.eqb_eq in Ha.
  apply elem_of_cons in Hx as [->|Hx]; [exact Ha | auto].
Qed.

Section ArchivedName.
Variable basename : string.
Hypothesis basename_plain : "/"%char ∉ Str.to_list basename.

(** The name that the naming rule tries after [k] collisions has the
    extension of the original name. *)
Lemma splitext_candidate (k : nat) :
  os_path.splitext ((os_path.splitext basename).1 +:+ "_" +:+ pretty (S k)
                    +:+ (os_path.splitext basename).2)
  = ((os_path.splitext basename).1 +:+ "_" +:+ pretty (S k),
     (os_path.splitext basename).2).
Proof.
  pose proof (pretty_nat_fresh "." (S k) (or_introl eq_refl)) as Hdot.
  pose proof (pretty_nat_fresh "/" (S k) (or_intror eq_refl)) as Hsep.
  destruct (os_path.splitext basename) as [base ext] eqn:Hse. cbn [fst snd].
  unfold os_path.splitext, os_path.sep in *.
  rewrite (rpartition_fresh "/" basename basename_plain) in Hse.
  destruct (Str.rpartition "." basename) as [[root e]|] eqn:Ed.
  - apply rpartition_some in Ed as [Eb He].
    assert (Hroot : "/"%char ∉ Str.to_list root).
    { intros Hin. apply basename_plain. rewrite Eb, to_list_app.
      apply elem_of_app. left. exact Hin. }
    assert (Hee : "/"%char ∉ Str.to_list e).
    { intros Hin. apply basename_plain. rewrite Eb, to_list_app.
      apply elem_of_app. right. right. exact Hin. }
    destruct (Str.all_chars "." root) eqn:Ea; injection Hse as <- <-.
    + (* only dots before the last dot: no extension *)
      rewrite !append_empty_r.
      assert (Hs : "/"%char ∉ Str.to_list (basename +:+ "_" +:+ pretty (S k))).
      { rewrite !to_list_app. rewrite !elem_of_app. intros [H|[H|H]]; [tauto| |tauto].
        cbn in H. apply elem_of_cons in H as [H|H]; [discriminate | inversion H]. }
      rewrite (rpartition_fresh "/" _ Hs).
      rewrite Eb at 1. rewrite append_assoc.
      change (String "." e +:+ "_" +:+ pretty (S k))
        with (String "."%char (e +:+ "_" +:+ pretty (S k))).
      rewrite rpartition_app.
      * rewrite Ea. reflexivity.
      * rewrite !to_list_app, !elem_of_app. intros [H|[H|H]]; [tauto| |tauto].
        cbn in H. apply elem_of_cons in H as [H|H]; [discriminate | inversion H].
    + change (EmptyString +:+ root) with root.
      assert (Hs : "/"%char ∉ Str.to_list (root +:+ "_" +:+ pretty (S k) +:+ "." +:+ e)).
      { rewrite !to_list_app. rewrite !elem_of_app.
        intros [H|[H|[H|[H|H]]]]; try tauto;
          cbn in H; apply elem_of_cons in H as [H|H]; try discriminate; inversion H. }
      rewrite (rpartition_fresh "/" _ Hs).
      replace (root +:+ "_" +:+ pretty (S k) +:+ "." +:+ e)
        with ((root +:+ "_" +:+ pretty (S k)) +:+ String "."%char e)
        by (rewrite !append_assoc; reflexivity).
      rewrite (rpartition_app _ _ _ He).
      assert (Hnd : Str.all_chars "." (root +:+ "_" +:+ pretty (S k)) = false).
      { apply not_true_iff_false. intros Hall.
        assert (Hu : "_"%char = "."%char); [|discriminate Hu].
        apply (all_chars_spec _ _ Hall). rewrite !to_list_app, !elem_of_app.
        right. left. left. }
      rewrite Hnd. reflexivity.
  - apply rpartition_none in Ed. injection Hse as <- <-. rewrite !append_empty_r.
    assert (Hs : "/"%char ∉ Str.to_list (basename +:+ "_" +:+ pretty (S k))).
    { rewrite !to_list_app. rewrite !elem_of_app. intros [H|[H|H]]; [tauto| |tauto].
      cbn in H. apply elem_of_cons in H as [H|H]; [discriminate | inversion H]. }
    rewrite (rpartition_fresh "/" _ Hs).
    rewrite rpartition_fresh; [reflexivity|].
    rewrite !to_list_app, !elem_of_app. intros [H|[H|H]]; [tauto| |tauto].
    cbn in H. apply elem_of_cons in H as [H|H]; [discriminate | inversion H].
Qed.

Lemma candidate_plain (k : nat) :
  "/"%char ∉ Str.to_list ((os_path.splitext basename).1 +:+ "_" +:+ pretty (S k)
                          +:+ (os_path.splitext basename).2).
Proof.
  pose proof (pretty_nat_fresh "/" (S k) (or_intror eq_refl)) as Hsep.
  pose proof (base_ext basename) as Hbe.
  assert (H1 : "/"%char ∉ Str.to_list (os_path.splitext basename).1).
  { intros Hin. apply basename_plain. rewrite <- Hbe, to_list_app.
    apply elem_of_app. left. exact Hin. }
  assert (H2 : "/"%char ∉ Str.to_list (os_path.splitext basename).2).
  { intros Hin. apply basename_plain. rewrite <- Hbe, to_list_app.
    apply elem_of_app. right. exact Hin. }
  rewrite !to_list_app, !elem_of_app. intros [H|[H|[H|H]]]; try tauto.
  cbn in H. apply elem_of_cons in H as [H|H]; [discriminate | inversion H].
Qed.
End ArchivedName.

(** Property X13: The destination chosen for a file is in the printed archive, under
    the name of the file or under that name with [_k] put before the
    extension; in both cases [os.path.splitext] finds the extension of the
    original again. *)
Theorem archived_name_keeps_extension (printed_dir file_path : string) (w : World) :
  exists dest name,
    resolve w printed_dir (os_path.basename file_path) = Some dest /\
    dest = os_path.join printed_dir name /\
    os_path.basename dest = name /\
    (os_path.splitext name).2 = (os_path.splitext (os_path.basename file_path)).2 /\
    (name = os_path.basename file_path \/
     exists k,
       (os_path.splitext name).1
       = (os_path.splitext (os_path.basename file_path)).1 +:+ "_" +:+ pretty (S k)).
Proof.
  pose proof (basename_no_sep file_path) as Hplain.
  destruct (resolve_eq printed_dir _ Hplain w) as (k & Hres & _).
  destruct k as [|k]; cbn [candidate] in Hres.
  - exists (os_path.join printed_dir (os_path.basename file_path)),
      (os_path.basename file_path).
    split; [exact Hres|]. split; [reflexivity|].
    split; [apply basename_join, Hplain|]. split; [reflexivity | left; reflexivity].
  - eexists _, _. split; [exact Hres|]. split; [reflexivity|].
    split; [apply basename_join, candidate_plain, Hplain|].
    rewrite (splitext_candidate _ Hplain k). split; [reflexivity|].
    right. exists k. reflexivity.
Qed.
